(** * National Defense Grid: coverage scoring, deployment mutation, batch
    evaluation and kinematic simulation

    A shallow embedding of the numerical core of the repository:

    - [types.ts]                       -> module [Types]
    - [constants.ts]                   -> module [Constants]
    - [isInsideCountry]                -> module [Geo]
    - [calculateScores]                -> module [Scores]
    - [mutateDeployment]               -> module [Mutation]
    - [runBatchTest] (stress test)     -> module [StressTest]
    - [calculateIntercept], [launchThreat], [updateSimulation]
                                       -> module [AttackSimulator]

    JavaScript numbers are embedded as exact numbers: the code that only adds,
    multiplies, divides and compares is embedded over [Q] (and runs inside
    Rocq); the kinematic code calls [Math.atan2], [Math.cos], [Math.sin] and
    [Math.sqrt] and is embedded over [R].  Rounding is not modelled.  The
    divisions whose divisor can be 0 without a guard ([2 * a] in
    [calculateIntercept], [totalLaunched] in [runBatchTest]) are written out.

    Leaflet's [LatLng.distanceTo] and [L.LineUtil.pointToSegmentDistance] are
    library functions: the embedding takes them as section variables.  The
    calls of [Math.random()] read a sequence of draws.  React state is
    embedded as one record per component, updated once per operation; wall
    clock values (timestamps, the time a batch takes) are left out. *)

From Stdlib Require Import Reals.
From Stdlib Require Import List Bool Arith ZArith QArith Qminmax Qround Qabs.
From Stdlib Require Import String Lia Psatz.
Import ListNotations.

Set Implicit Arguments.

(** ** types.ts *)

Module Types.

Inductive SystemRole := INTERCEPTOR | RADAR.

Definition role_eqb (a b : SystemRole) : bool :=
  match a, b with
  | INTERCEPTOR, INTERCEPTOR | RADAR, RADAR => true
  | _, _ => false
  end.

(** [DefenseSystem]; [num] is the embedding of [number].  The descriptive
    fields ([name], [category], [systemCost], [shotCost], [targetType],
    [killMethod], [color]) are never read by the embedded functions and are
    kept together in [descr]. *)
Record DefenseSystem (num : Type) := mkSystem {
  id : string;
  lat : num;
  lng : num;
  range : num;
  role : SystemRole;
  shotSpeed : num;
  isActive : option bool;      (* isActive?: boolean *)
  descr : string
}.

(** [s.isActive !== false] *)
Definition active {num} (s : DefenseSystem num) : bool :=
  match isActive s with
  | Some false => false
  | _ => true
  end.

(** [s.role === r && s.isActive !== false] *)
Definition activeWithRole {num} (r : SystemRole) (s : DefenseSystem num) : bool :=
  role_eqb (role s) r && active s.

(** [{ ...sys, lat: newLat, lng: newLng }] *)
Definition withPosition {num} (s : DefenseSystem num) (newLat newLng : num) :=
  mkSystem (id s) newLat newLng (range s) (role s) (shotSpeed s) (isActive s) (descr s).

End Types.

(** ** Leaflet's [L.latLng] *)

Module L.
Record LatLng (num : Type) := latLng { lat : num; lng : num }.
End L.

(** ** Comparison of numbers over [Q] *)

Definition Qltb (a b : Q) : bool := negb (Qle_bool b a).
Definition Qgtb (a b : Q) : bool := Qltb b a.


(** ** constants.ts *)

Module Constants.

Definition SAMPLING_POINTS_COUNT : Z := 3600.

Record Bounds := { minLat : Q; maxLat : Q; minLng : Q; maxLng : Q }.

Definition SL_BOUNDS : Bounds :=
  {| minLat := 5.8; maxLat := 9.9; minLng := 79.5; maxLng := 82.0 |}.

Record City := { name : string; lat : Q; lng : Q; weight : Q }.

Definition CITIES : list City :=
  [ {| name := "Colombo";      lat := 6.9271; lng := 79.8612; weight := 5 |};
    {| name := "Kandy";        lat := 7.2906; lng := 80.6337; weight := 3 |};
    {| name := "Galle";        lat := 6.0535; lng := 80.2210; weight := 2 |};
    {| name := "Jaffna";       lat := 9.6615; lng := 80.0104; weight := 2 |};
    {| name := "Trincomalee";  lat := 8.5873; lng := 81.2152; weight := 2 |};
    {| name := "Anuradhapura"; lat := 8.3114; lng := 80.4037; weight := 3.5 |};
    {| name := "Batticaloa";   lat := 7.7102; lng := 81.6924; weight := 1.5 |};
    {| name := "Matara";       lat := 5.9549; lng := 80.5550; weight := 2.5 |};
    {| name := "Ratnapura";    lat := 6.6828; lng := 80.3992; weight := 1.5 |};
    {| name := "Kurunegala";   lat := 7.4818; lng := 80.3609; weight := 1.5 |};
    {| name := "Pottuvil";     lat := 6.8724; lng := 81.8210; weight := 1.2 |} ].

End Constants.

(** ** Region boundary and [isInsideCountry] *)

Module Geo.

(** A GeoJSON position [[x, y]] = [[lng, lat]]. *)
Definition Position : Type := (Q * Q)%type.
Definition Ring : Type := list Position.

(** A GeoJSON polygon is a non-empty array of rings: the exterior ring
    [coordinates[0]] followed by the interior (hole) rings. *)
Record PolygonCoords := { exterior : Ring; holes : list Ring }.

Inductive Geometry :=
| Polygon (coordinates : PolygonCoords)
| MultiPolygon (coordinates : list PolygonCoords)
| OtherGeometry.               (* any other [geometry.type] *)

Record Feature := { geometry : Geometry }.

(** [geoData]: [None] is a falsy value, [Some fs] an object with [features = fs]. *)
Definition GeoData : Type := option (list Feature).

(** One turn of the loop of [checkPolygon], for the edge from
    [(xj, yj) = polygon[j]] to [(xi, yi) = polygon[i]]. *)
Definition intersect (x y : Q) (pi pj : Position) : bool :=
  let '(xi, yi) := pi in
  let '(xj, yj) := pj in
  negb (Bool.eqb (Qgtb yi y) (Qgtb yj y))
  && Qltb x ((xj - xi) * (y - yi) / (yj - yi) + xi).

(** [for (let i = 0, j = polygon.length - 1; i < polygon.length; j = i++)]:
    [pj] is the previous vertex, initially the last one. *)
Fixpoint checkPolygonLoop (x y : Q) (pj : Position) (rest : Ring) (isInside : bool) : bool :=
  match rest with
  | [] => isInside
  | pi :: rest' =>
      checkPolygonLoop x y pi rest'
        (if intersect x y pi pj then negb isInside else isInside)
  end.

Definition checkPolygon (x y : Q) (polygon : Ring) : bool :=
  checkPolygonLoop x y (last polygon (0, 0)) polygon false.

(** The body of [for (const feature of features)]. *)
Definition featureStep (lat lng : Q) (inside : bool) (feature : Feature) : bool :=
  match geometry feature with
  | Polygon c =>
      if checkPolygon lng lat (exterior c) then negb inside else inside
  | MultiPolygon polys =>
      fold_left
        (fun ins poly => if checkPolygon lng lat (exterior poly) then negb ins else ins)
        polys inside
  | OtherGeometry => inside
  end.

Definition isInsideCountry (lat lng : Q) (geoData : GeoData) : bool :=
  match geoData with
  | None => true
  | Some features => fold_left (featureStep lat lng) features false
  end.

(** *** The rings of a region *)

Definition polygonsOf (g : Geometry) : list PolygonCoords :=
  match g with
  | Polygon c => [c]
  | MultiPolygon polys => polys
  | OtherGeometry => []
  end.

(** Every ring of the region, hole rings included. *)
Definition allRings (features : list Feature) : list Ring :=
  flat_map (fun f => flat_map (fun c => exterior c :: holes c) (polygonsOf (geometry f)))
           features.

(** The exterior rings only. *)
Definition exteriorRings (features : list Feature) : list Ring :=
  flat_map (fun f => map exterior (polygonsOf (geometry f))) features.

(** Number of the given rings that contain the point under [checkPolygon]. *)
Definition ringsContaining (lat lng : Q) (rings : list Ring) : nat :=
  List.length (filter (checkPolygon lng lat) rings).

End Geo.

(** ** [calculateScores] *)

Module Scores.

Definition System : Type := Types.DefenseSystem Q.
Definition Point : Type := L.LatLng Q.

Record Counts := mkCounts {
  spatialLandCoveredCount : nat;
  radarLandHitsCount : nat;
  attackLandHitsCount : nat;
  landPointsTotal : nat;
  seaPointsTotal : nat;
  combinedSeaHits : nat
}.

(** The object [calculateScores] returns. *)
Record Result := mkResult {
  combinedLand : Q;
  combinedCities : Q;
  combinedSea : Q;
  radarLand : Q;
  attackLand : Q
}.

Definition ofNat (n : nat) : Q := inject_Z (Z.of_nat n).

(** [total > 0 ? (count / total) * 100 : 0], on counters. *)
Definition percent (count total : nat) : Q :=
  if (0 <? total)%nat then (ofNat count / ofNat total) * 100 else 0.

(** [total > 0 ? (score / total) * 100 : 0], on weights. *)
Definition percentQ (score total : Q) : Q :=
  if Qgtb total 0 then (score / total) * 100 else 0.

(** [Math.floor(Math.sqrt(SAMPLING_POINTS_COUNT))] *)
Definition gridSize : nat := Z.to_nat (Z.sqrt Constants.SAMPLING_POINTS_COUNT).

Definition latStep : Q :=
  (Constants.maxLat Constants.SL_BOUNDS - Constants.minLat Constants.SL_BOUNDS) / ofNat gridSize.
Definition lngStep : Q :=
  (Constants.maxLng Constants.SL_BOUNDS - Constants.minLng Constants.SL_BOUNDS) / ofNat gridSize.

(** The sample point of cell [(i, j)]. *)
Definition samplePoint (i j : nat) : Point :=
  L.latLng (Constants.minLat Constants.SL_BOUNDS + (ofNat i * latStep) + (latStep / 2))
           (Constants.minLng Constants.SL_BOUNDS + (ofNat j * lngStep) + (lngStep / 2)).

Section WithDistance.

(** Leaflet's [a.distanceTo(b)], in metres. *)
Variable distanceTo : Point -> Point -> Q.

(** [point.distanceTo(L.latLng(sys.lat, sys.lng)) / 1000 <= sys.range] *)
Definition inRange (point : Point) (sys : System) : bool :=
  Qle_bool (distanceTo point (L.latLng (Types.lat sys) (Types.lng sys)) / 1000)
           (Types.range sys).

(** [let hits = 0; for (const sys of systems) { if (...) { hits++; break; } }] *)
Fixpoint hitsAtPoint (point : Point) (systems : list System) : nat :=
  match systems with
  | [] => 0
  | sys :: rest => if inRange point sys then 1 else hitsAtPoint point rest
  end.

(** The body of the two nested grid loops, for cell [(i, j)]. *)
Definition cellStep (radars interceptors : list System) (geoData : Geo.GeoData)
    (i : nat) (c : Counts) (j : nat) : Counts :=
  let point := samplePoint i j in
  let isLand := Geo.isInsideCountry (L.lat point) (L.lng point) geoData in
  let radarHitsAtPoint := hitsAtPoint point radars in
  let attackHitsAtPoint := hitsAtPoint point interceptors in
  let isCombinedShield := (0 <? radarHitsAtPoint)%nat && (0 <? attackHitsAtPoint)%nat in
  if isLand then
    mkCounts
      (if isCombinedShield then S (spatialLandCoveredCount c) else spatialLandCoveredCount c)
      (if (0 <? radarHitsAtPoint)%nat then S (radarLandHitsCount c) else radarLandHitsCount c)
      (if (0 <? attackHitsAtPoint)%nat then S (attackLandHitsCount c) else attackLandHitsCount c)
      (S (landPointsTotal c))
      (seaPointsTotal c)
      (combinedSeaHits c)
  else
    mkCounts
      (spatialLandCoveredCount c) (radarLandHitsCount c) (attackLandHitsCount c)
      (landPointsTotal c)
      (S (seaPointsTotal c))
      (if isCombinedShield then S (combinedSeaHits c) else combinedSeaHits c).

Definition rowStep (radars interceptors : list System) (geoData : Geo.GeoData)
    (c : Counts) (i : nat) : Counts :=
  fold_left (cellStep radars interceptors geoData i) (seq 0 gridSize) c.

(** The counters after both grid loops. *)
Definition gridCounts (radars interceptors : list System) (geoData : Geo.GeoData) : Counts :=
  fold_left (rowStep radars interceptors geoData) (seq 0 gridSize) (mkCounts 0 0 0 0 0 0).

(** The body of [CITIES.forEach]; the state is [(combinedCityScore, totalCityWeight)]. *)
Definition cityStep (radars interceptors : list System) (acc : Q * Q) (city : Constants.City)
    : Q * Q :=
  let '(combinedCityScore, totalCityWeight) := acc in
  let totalCityWeight := totalCityWeight + Constants.weight city in
  let cityPt := L.latLng (Constants.lat city) (Constants.lng city) in
  let isRadarCovered := existsb (inRange cityPt) radars in
  let isInterceptorCovered := existsb (inRange cityPt) interceptors in
  (if isRadarCovered && isInterceptorCovered
   then combinedCityScore + Constants.weight city else combinedCityScore,
   totalCityWeight).

Definition cityTotals (radars interceptors : list System) (cities : list Constants.City) : Q * Q :=
  fold_left (cityStep radars interceptors) cities (0, 0).

Definition activeRadars (defenseSystems : list System) : list System :=
  filter (Types.activeWithRole Types.RADAR) defenseSystems.
Definition activeInterceptors (defenseSystems : list System) : list System :=
  filter (Types.activeWithRole Types.INTERCEPTOR) defenseSystems.

Definition calculateScores (defenseSystems : list System) (geoData : Geo.GeoData) : Result :=
  match geoData with
  | None => mkResult 0 0 0 0 0
  | Some _ =>
      let radars := activeRadars defenseSystems in
      let interceptors := activeInterceptors defenseSystems in
      let c := gridCounts radars interceptors geoData in
      let '(combinedCityScore, totalCityWeight) :=
        cityTotals radars interceptors Constants.CITIES in
      mkResult
        (percent (spatialLandCoveredCount c) (landPointsTotal c))
        (percentQ combinedCityScore totalCityWeight)
        (percent (combinedSeaHits c) (seaPointsTotal c))
        (percent (radarLandHitsCount c) (landPointsTotal c))
        (percent (attackLandHitsCount c) (landPointsTotal c))
  end.

(** *** The grid as a list of sample points, and what the metrics count *)

(** The sample points, in the order the loops visit them. *)
Definition gridPoints : list Point :=
  flat_map (fun i => map (samplePoint i) (seq 0 gridSize)) (seq 0 gridSize).

Definition isLandPoint (geoData : Geo.GeoData) (p : Point) : bool :=
  Geo.isInsideCountry (L.lat p) (L.lng p) geoData.

Definition landPoints (geoData : Geo.GeoData) : list Point :=
  filter (isLandPoint geoData) gridPoints.

(** Some system of the list reaches the point. *)
Definition covered (systems : list System) (p : Point) : bool :=
  existsb (inRange p) systems.

Definition countIf (f : Point -> bool) (ps : list Point) : nat :=
  List.length (filter f ps).

(** The body of the grid loops as a function of the sample point, and the
    predicates its counters count. *)
Definition pointStep (radars interceptors : list System) (geoData : Geo.GeoData)
    (c : Counts) (p : Point) : Counts :=
  let r := covered radars p in
  let a := covered interceptors p in
  if isLandPoint geoData p then
    mkCounts (if r && a then S (spatialLandCoveredCount c) else spatialLandCoveredCount c)
             (if r then S (radarLandHitsCount c) else radarLandHitsCount c)
             (if a then S (attackLandHitsCount c) else attackLandHitsCount c)
             (S (landPointsTotal c)) (seaPointsTotal c) (combinedSeaHits c)
  else
    mkCounts (spatialLandCoveredCount c) (radarLandHitsCount c) (attackLandHitsCount c)
             (landPointsTotal c) (S (seaPointsTotal c))
             (if r && a then S (combinedSeaHits c) else combinedSeaHits c).

Definition landAnd (geoData : Geo.GeoData) (f : Point -> bool) (p : Point) : bool :=
  isLandPoint geoData p && f p.
Definition seaAnd (geoData : Geo.GeoData) (f : Point -> bool) (p : Point) : bool :=
  negb (isLandPoint geoData p) && f p.
Definition both (radars interceptors : list System) (p : Point) : bool :=
  covered radars p && covered interceptors p.

(** Percentage of land points covered by a radar but by no interceptor. *)
Definition radarOnlyLandPercent (defenseSystems : list System) (geoData : Geo.GeoData) : Q :=
  percent
    (countIf (fun p => covered (activeRadars defenseSystems) p
                       && negb (covered (activeInterceptors defenseSystems) p))
             (landPoints geoData))
    (List.length (landPoints geoData)).

(** Percentage of land points covered by an interceptor but by no radar. *)
Definition interceptorOnlyLandPercent (defenseSystems : list System) (geoData : Geo.GeoData) : Q :=
  percent
    (countIf (fun p => covered (activeInterceptors defenseSystems) p
                       && negb (covered (activeRadars defenseSystems) p))
             (landPoints geoData))
    (List.length (landPoints geoData)).

End WithDistance.

End Scores.

(** ** [Math.random()] *)

(** A computation that calls [Math.random()]: it reads the sequence of the
    values the calls return, from the index of the next one, and returns its
    result with the index advanced. *)
Module Random.

Definition M (A : Type) : Type := (nat -> Q) -> nat -> A * nat.

Definition ret {A} (a : A) : M A := fun _ k => (a, k).

Definition bind {A B} (m : M A) (f : A -> M B) : M B :=
  fun draws k => let '(a, k') := m draws k in f a draws k'.

(** One call of [Math.random()]. *)
Definition random : M Q := fun draws k => (draws k, S k).

(** [xs.map(f)] for an [f] that draws. *)
Fixpoint mapM {A B} (f : A -> M B) (xs : list A) : M (list B) :=
  match xs with
  | [] => ret []
  | x :: rest => bind (f x) (fun y => bind (mapM f rest) (fun ys => ret (y :: ys)))
  end.

(** What [Math.random()] promises of its results. *)
Definition unitInterval (draws : nat -> Q) : Prop :=
  forall k, (0 <= draws k /\ draws k < 1)%Q.

End Random.

Notation "x <- m ;; f" := (Random.bind m (fun x => f))
  (at level 61, m at next level, right associativity).

(** ** [mutateDeployment] *)

Module Mutation.

Definition System : Type := Types.DefenseSystem Q.

(** The perturbation branch, from two draws. *)
Definition perturb (forceHighEntropy : bool) (sys : System) : Random.M System :=
  let moveAmount : Q := if Types.role_eqb (Types.role sys) Types.RADAR then 1.5 else 0.45 in
  let entropyMultiplier : Q := if forceHighEntropy then 2.5 else 1.0 in
  r1 <- Random.random ;;
  let newLat := Types.lat sys + (r1 - 0.5) * moveAmount * entropyMultiplier in
  r2 <- Random.random ;;
  let newLng := Types.lng sys + (r2 - 0.5) * moveAmount * entropyMultiplier in
  let newLat := Qmax (Constants.minLat Constants.SL_BOUNDS)
                     (Qmin (Constants.maxLat Constants.SL_BOUNDS) newLat) in
  let newLng := Qmax (Constants.minLng Constants.SL_BOUNDS)
                     (Qmin (Constants.maxLng Constants.SL_BOUNDS) newLng) in
  Random.ret (Types.withPosition sys newLat newLng).

(** The full relocation branch, from two draws. *)
Definition relocate (sys : System) : Random.M System :=
  r1 <- Random.random ;;
  r2 <- Random.random ;;
  Random.ret
    (Types.withPosition sys
       (r1 * (Constants.maxLat Constants.SL_BOUNDS - Constants.minLat Constants.SL_BOUNDS)
        + Constants.minLat Constants.SL_BOUNDS)
       (r2 * (Constants.maxLng Constants.SL_BOUNDS - Constants.minLng Constants.SL_BOUNDS)
        + Constants.minLng Constants.SL_BOUNDS)).

(** The callback of [baseSystems.map]. *)
Definition mutateSystem (radarSecured forceHighEntropy : bool) (sys : System)
    : Random.M System :=
  if negb forceHighEntropy && radarSecured && Types.role_eqb (Types.role sys) Types.RADAR
  then Random.ret sys
  else
    let mutationChance : Q := if forceHighEntropy then 0.45 else 0.25 in
    r <- Random.random ;;
    if Qgtb r mutationChance then Random.ret sys
    else if forceHighEntropy then
      r' <- Random.random ;;
      if Qltb r' 0.08 then relocate sys else perturb forceHighEntropy sys
    else perturb forceHighEntropy sys.

(** [geoData] and [placementStrategy] are parameters the function never reads. *)
Definition mutateDeployment (baseSystems : list System) (radarSecured : bool)
    (geoData : Geo.GeoData) (placementStrategy : string) (forceHighEntropy : bool)
    : Random.M (list System) :=
  Random.mapM (mutateSystem radarSecured forceHighEntropy) baseSystems.

(** The position of a unit lies in the bounding box [SL_BOUNDS]. *)
Definition inBounds (sys : System) : Prop :=
  (Constants.minLat Constants.SL_BOUNDS <= Types.lat sys
   /\ Types.lat sys <= Constants.maxLat Constants.SL_BOUNDS
   /\ Constants.minLng Constants.SL_BOUNDS <= Types.lng sys
   /\ Types.lng sys <= Constants.maxLng Constants.SL_BOUNDS)%Q.

Definition inBoundsb (sys : System) : bool :=
  Qle_bool (Constants.minLat Constants.SL_BOUNDS) (Types.lat sys)
  && Qle_bool (Types.lat sys) (Constants.maxLat Constants.SL_BOUNDS)
  && Qle_bool (Constants.minLng Constants.SL_BOUNDS) (Types.lng sys)
  && Qle_bool (Types.lng sys) (Constants.maxLng Constants.SL_BOUNDS).

(** What one call of the [map] callback returns: the unit itself, or the unit
    moved to a position of the bounding box. *)
Definition mutated (sys sys' : System) : Prop :=
  sys' = sys
  \/ (inBounds sys'
      /\ sys' = Types.withPosition sys (Types.lat sys') (Types.lng sys')).

End Mutation.

(** ** The stress test: [runBatchTest] *)

Module StressTest.

Definition System : Type := Types.DefenseSystem Q.

(** The entries of [MISSILE_TYPES]; [selectedMissile] is always one of them. *)
Inductive MissileType := drone | cruise | ballistic | hypersonic.

Definition speedMod (m : MissileType) : Q :=
  match m with
  | drone => 0.6
  | cruise => 1.5
  | ballistic => 4.0
  | hypersonic => 12.0
  end.

(** A line pushed to [batchLogs]: its kind, the round number [r + 1] and the
    name of the target city. *)
Inductive LogLine :=
| InterceptedNear (round : nat) (city : string)
| CriticalFailure (round : nat) (city : string)
| UndetectedImpact (round : nat) (city : string).

(** The local variables of the callback. *)
Record Tally := mkTally {
  totalLaunched : nat;
  interceptedCount : nat;
  impactedCount : nat;
  detectedCount : nat;
  batchLogs : list LogLine
}.

(** The object given to [setResults].  [detectionRate] is [None] when the
    division is 0 / 0; [timeTaken] is wall-clock time and is left out. *)
Record Results := mkResults {
  r_totalLaunched : nat;
  intercepted : nat;
  impacted : nat;
  detectionRate : option Q;
  logs : list LogLine
}.

(** [Math.floor(Math.random() * n)] *)
Definition randomIndex (n : Q) : Random.M Z :=
  r <- Random.random ;; Random.ret (Qfloor (r * n)).

(** [xs[i]] for an integer [i]: [None] is [undefined]. *)
Definition at_ {A} (xs : list A) (i : Z) : option A :=
  if (i <? 0)%Z then None else nth_error xs (Z.to_nat i).

(** The random start of a path, [(startLat, startLng)]. *)
Definition randomStart : Random.M (Q * Q) :=
  let b := Constants.SL_BOUNDS in
  side <- randomIndex 4 ;;
  r <- Random.random ;;
  Random.ret
    (if (side =? 0)%Z then
       (Constants.maxLat b + 1,
        Constants.minLng b + r * (Constants.maxLng b - Constants.minLng b))
     else if (side =? 1)%Z then
       (Constants.minLat b - 1,
        Constants.minLng b + r * (Constants.maxLng b - Constants.minLng b))
     else if (side =? 2)%Z then
       (Constants.minLat b + r * (Constants.maxLat b - Constants.minLat b),
        Constants.maxLng b + 1)
     else
       (Constants.minLat b + r * (Constants.maxLat b - Constants.minLat b),
        Constants.minLng b - 1)).

(** Every launched missile has been counted as intercepted or as impacted. *)
Definition resolved (t : Tally) : Prop :=
  (interceptedCount t + impactedCount t = totalLaunched t)%nat.

Section WithSegmentDistance.

(** Leaflet's [L.LineUtil.pointToSegmentDistance(p, p1, p2)] on points [(x, y)]. *)
Variable pointToSegmentDistance : Q * Q -> Q * Q -> Q * Q -> Q.

(** [pointToSegmentDistance(sysPos, start, target) * 111 <= sys.range], with
    [L.point(lng, lat)] for each of the three. *)
Definition pathInRange (start target : L.LatLng Q) (sys : System) : bool :=
  Qle_bool
    (pointToSegmentDistance (Types.lng sys, Types.lat sys)
       (L.lng start, L.lat start) (L.lng target, L.lat target) * 111)
    (Types.range sys).

(** [(interceptor.shotSpeed || 0.25) / (0.005 * selectedMissile.speedMod) > 0.8] *)
Definition fastEnough (selectedMissile : MissileType) (interceptor : System) : bool :=
  let shot := if Qeq_bool (Types.shotSpeed interceptor) 0 then 0.25
              else Types.shotSpeed interceptor in
  Qgtb (shot / (0.005 * speedMod selectedMissile)) 0.8.

(** The loop over [activeRadars], with its [break]. *)
Definition detects (activeRadars : list System) (start target : L.LatLng Q) : bool :=
  existsb (pathInRange start target) activeRadars.

(** The loop over [activeInterceptors], with its [break]. *)
Definition hits (selectedMissile : MissileType) (activeInterceptors : list System)
    (start target : L.LatLng Q) : bool :=
  existsb (fun i => pathInRange start target i && fastEnough selectedMissile i)
          activeInterceptors.

(** The body of the inner loop, for round [r]; [None] when [CITIES[...]] is
    [undefined] and reading its [lat] throws. *)
Definition missileStep (selectedMissile : MissileType)
    (activeRadars activeInterceptors : list System) (r : nat) (t : Tally)
    : Random.M (option Tally) :=
  let totalLaunched := S (totalLaunched t) in
  start <- randomStart ;;
  cityIndex <- randomIndex (inject_Z (Z.of_nat (List.length Constants.CITIES))) ;;
  match at_ Constants.CITIES cityIndex with
  | None => Random.ret None
  | Some targetCity =>
      let start := L.latLng (fst start) (snd start) in
      let target := L.latLng (Constants.lat targetCity) (Constants.lng targetCity) in
      let city := Constants.name targetCity in
      if detects activeRadars start target then
        if hits selectedMissile activeInterceptors start target then
          Random.ret (Some
            (mkTally totalLaunched (S (interceptedCount t)) (impactedCount t)
               (S (detectedCount t))
               (if (totalLaunched mod 100 =? 0)%nat
                then batchLogs t ++ [InterceptedNear (r + 1) city] else batchLogs t)))
        else
          Random.ret (Some
            (mkTally totalLaunched (interceptedCount t) (S (impactedCount t))
               (S (detectedCount t))
               (if (totalLaunched mod 50 =? 0)%nat
                then batchLogs t ++ [CriticalFailure (r + 1) city] else batchLogs t)))
      else
        Random.ret (Some
          (mkTally totalLaunched (interceptedCount t) (S (impactedCount t))
             (detectedCount t)
             (if (totalLaunched mod 20 =? 0)%nat
              then batchLogs t ++ [UndetectedImpact (r + 1) city] else batchLogs t)))
  end.

(** [n] turns of a loop body that may throw. *)
Fixpoint repeatM {S} (body : S -> Random.M (option S)) (n : nat) (s : S)
    : Random.M (option S) :=
  match n with
  | O => Random.ret (Some s)
  | S n' =>
      s' <- body s ;;
      match s' with
      | None => Random.ret None
      | Some s' => repeatM body n' s'
      end
  end.

(** [for (let r = 0; r < rounds; r++)], from round [r] on, [n] rounds left. *)
Fixpoint roundLoop (selectedMissile : MissileType)
    (activeRadars activeInterceptors : list System) (missilesPerRound : nat)
    (r n : nat) (t : Tally) : Random.M (option Tally) :=
  match n with
  | O => Random.ret (Some t)
  | S n' =>
      t' <- repeatM (missileStep selectedMissile activeRadars activeInterceptors r)
              missilesPerRound t ;;
      match t' with
      | None => Random.ret None
      | Some t' =>
          roundLoop selectedMissile activeRadars activeInterceptors missilesPerRound
            (S r) n' t'
      end
  end.

(** The callback of [setTimeout] in [runBatchTest]; the result is the value
    given to [setResults]. *)
Definition runBatchTest (systems : list System) (rounds missilesPerRound : nat)
    (selectedMissile : MissileType) : Random.M (option Results) :=
  let activeRadars := filter (Types.activeWithRole Types.RADAR) systems in
  let activeInterceptors := filter (Types.activeWithRole Types.INTERCEPTOR) systems in
  t <- roundLoop selectedMissile activeRadars activeInterceptors missilesPerRound
         0 rounds (mkTally 0 0 0 0 []) ;;
  match t with
  | None => Random.ret None
  | Some t =>
      Random.ret (Some
        (mkResults (totalLaunched t) (interceptedCount t) (impactedCount t)
           (if (totalLaunched t =? 0)%nat then None
            else Some (Scores.ofNat (detectedCount t) / Scores.ofNat (totalLaunched t) * 100))
           (firstn 20 (batchLogs t))))
  end.

End WithSegmentDistance.

End StressTest.

(** ** The attack simulator: [calculateIntercept], [launchThreat], [updateSimulation] *)

Module AttackSimulator.

Local Open Scope R_scope.

Definition System : Type := Types.DefenseSystem R.
Definition LatLng : Type := L.LatLng R.

Definition Rltb (a b : R) : bool := if Rlt_dec a b then true else false.
Definition Rleb (a b : R) : bool := if Rle_dec a b then true else false.

(** [x || d] on numbers: [0] is falsy. *)
Definition orElse (x d : R) : R := if Req_dec_T x 0 then d else x.

(** A string is truthy when it is not empty; [undefined] is falsy. *)
Definition truthy (s : option string) : bool :=
  match s with
  | Some EmptyString | None => false
  | Some _ => true
  end.

(** [Math.atan2(y, x)] *)
Definition atan2 (y x : R) : R :=
  if Rlt_dec 0 x then atan (y / x)
  else if Rlt_dec x 0 then
    (if Rle_dec 0 y then atan (y / x) + PI else atan (y / x) - PI)
  else if Rlt_dec 0 y then PI / 2
  else if Rlt_dec y 0 then - (PI / 2)
  else 0.

(** [Math.ceil(x)] *)
Definition ceil (x : R) : Z := (- Int_part (- x))%Z.

Inductive Status := MOVING | INTERCEPTED | IMPACTED.

Definition isMoving (s : Status) : bool :=
  match s with MOVING => true | _ => false end.

(** [Threat]; [startTime] (the wall-clock time of the launch) is left out. *)
Record Threat := mkThreat {
  id : string;
  start : LatLng;
  target : LatLng;
  current : LatLng;
  status : Status;
  speed : R;
  type_ : string;
  interceptorId : option string;
  interceptorPos : option LatLng;
  predictedInterceptPoint : option LatLng;
  detectedByRadarId : option string
}.

Definition BASE_THREAT_SPEED : R := 0.005.

(** The entries of [MISSILE_TYPES]: their [id] and [speedMod]. *)
Definition typeId (m : StressTest.MissileType) : string :=
  match m with
  | StressTest.drone => "drone"
  | StressTest.cruise => "cruise"
  | StressTest.ballistic => "ballistic"
  | StressTest.hypersonic => "hypersonic"
  end.

Definition speedMod (m : StressTest.MissileType) : R :=
  match m with
  | StressTest.drone => 0.6
  | StressTest.cruise => 1.5
  | StressTest.ballistic => 4.0
  | StressTest.hypersonic => 12.0
  end.

(** [L.latLng(sys.lat, sys.lng)] *)
Definition position (sys : System) : LatLng := L.latLng (Types.lat sys) (Types.lng sys).

(** *** [calculateIntercept] *)

(** The value of [calculateIntercept]: [null], a point, or a point with
    coordinates that are not numbers, on which [L.latLng] throws. *)
Inductive Intercept :=
| NoIntercept
| InterceptAt (p : LatLng)
| NotANumber.

(** The velocity [(vx, vy)] of the threat. *)
Definition velocity (threat : Threat) : R * R :=
  let angle := atan2 (L.lat (target threat) - L.lat (start threat))
                     (L.lng (target threat) - L.lng (start threat)) in
  (cos angle * speed threat, sin angle * speed threat).

(** The coefficients [(a, b, c)] of the quadratic, for the shot speed [Vi]. *)
Definition coefficients (threat : Threat) (interceptor : System) (Vi : R) : R * R * R :=
  let '(vx, vy) := velocity threat in
  let dx := L.lng (current threat) - Types.lng interceptor in
  let dy := L.lat (current threat) - Types.lat interceptor in
  (vx * vx + vy * vy - Vi * Vi, 2 * (vx * dx + vy * dy), dx * dx + dy * dy).

(** [threat.current] moved along the velocity for the time [t]. *)
Definition positionAt (threat : Threat) (t : R) : LatLng :=
  let '(vx, vy) := velocity threat in
  L.latLng (L.lat (current threat) + vy * t) (L.lng (current threat) + vx * t).

(** The value of [t = (-b - Math.sqrt(disc)) / (2 * a)].  When [2 * a] is 0 the
    quotient is not a real number: it is [-Infinity] for a negative numerator
    and [NaN] for the numerator 0 (the numerator is never positive then). *)
Inductive Time :=
| Finite (t : R)
| MinusInfinity
| NaN.

Definition divide (n d : R) : Time :=
  if Req_dec_T d 0 then (if Rlt_dec n 0 then MinusInfinity else NaN)
  else Finite (n / d).

(** The shot speed [interceptor.shotSpeed || 0.22]. *)
Definition shotSpeedOf (interceptor : System) : R :=
  orElse (Types.shotSpeed interceptor) 0.22.

(** The root the code selects, when the discriminant is not negative. *)
Definition interceptTime (threat : Threat) (interceptor : System) : Time :=
  let '(a, b, c) := coefficients threat interceptor (shotSpeedOf interceptor) in
  let disc := b * b - 4 * a * c in
  divide (- b - sqrt disc) (2 * a).

Definition calculateIntercept (threat : Threat) (interceptor : System) : Intercept :=
  let '(a, b, c) := coefficients threat interceptor (shotSpeedOf interceptor) in
  let disc := b * b - 4 * a * c in
  if Rlt_dec disc 0 then NoIntercept
  else
    match interceptTime threat interceptor with
    | Finite t => if Rlt_dec t 0 then NoIntercept else InterceptAt (positionAt threat t)
    | MinusInfinity => NoIntercept
    | NaN => NotANumber
    end.

(** The quadratic [a t^2 + b t + c] for the shot speed [Vi], its
    discriminant, and the quotient the code computes as a real number. *)
Definition quadratic (threat : Threat) (interceptor : System) (Vi : R) (t : R) : R :=
  let '(a, b, c) := coefficients threat interceptor Vi in
  a * t * t + b * t + c.

Definition leading (threat : Threat) (interceptor : System) (Vi : R) : R :=
  fst (fst (coefficients threat interceptor Vi)).

Definition discriminant (threat : Threat) (interceptor : System) (Vi : R) : R :=
  let '(a, b, c) := coefficients threat interceptor Vi in
  b * b - 4 * a * c.

Definition selectedRoot (threat : Threat) (interceptor : System) (Vi : R) : R :=
  let '(a, b, c) := coefficients threat interceptor Vi in
  (- b - sqrt (b * b - 4 * a * c)) / (2 * a).

(** *** The state of the component *)

Inductive ExplosionType := impact | intercept.

Record Explosion := mkExplosion { pos : LatLng; e_type : ExplosionType }.

(** A log entry: the kind of its message and the threat it names. *)
Inductive LogEntry :=
| HyperLock (threatId : string)
| Neutralized (threatId : string)
| ImpactLog (threatId : string).

Record Stats := mkStats { launched : nat; intercepted : nat; impacted : nat }.

Record Sim := mkSim {
  threats : list Threat;
  explosions : list Explosion;
  logs : list LogEntry;         (* newest first *)
  stats : Stats
}.

Definition initial : Sim := mkSim [] [] [] (mkStats 0 0 0).

(** [launchThreat(start, target)], with the [attackerType], the
    [attackerSpeedScale] and the random id of the new threat. *)
Definition launchThreat (attackerType : StressTest.MissileType) (attackerSpeedScale : R)
    (newId : string) (start target : LatLng) (sim : Sim) : Sim :=
  let finalSpeed := BASE_THREAT_SPEED * speedMod attackerType * attackerSpeedScale in
  let newThreat :=
    mkThreat newId start target start MOVING finalSpeed (typeId attackerType)
      None None None None in
  mkSim (threats sim ++ [newThreat]) (explosions sim) (logs sim)
    (mkStats (S (launched (stats sim))) (intercepted (stats sim)) (impacted (stats sim))).

(** The [else] branch of the effect on [active]: a hard reset. *)
Definition deactivate (sim : Sim) : Sim := initial.

(** What a sub-step reports besides the new threat. *)
Inductive Event :=
| Locked (threatId : string)
| Killed (threatId : string) (at_ : LatLng)
| Hit (threatId : string) (at_ : LatLng).

(** [addLog]: [[newLog, ...prev].slice(0, 100)] *)
Definition addLog (entry : LogEntry) (logs : list LogEntry) : list LogEntry :=
  firstn 100 (entry :: logs).

(** The calls of [addLog], [setExplosions] and [setStats] of one event. *)
Definition applyEvent (sim : Sim) (e : Event) : Sim :=
  match e with
  | Locked i => mkSim (threats sim) (explosions sim) (addLog (HyperLock i) (logs sim)) (stats sim)
  | Killed i p =>
      mkSim (threats sim) (explosions sim ++ [mkExplosion p intercept])
        (addLog (Neutralized i) (logs sim))
        (mkStats (launched (stats sim)) (S (intercepted (stats sim))) (impacted (stats sim)))
  | Hit i p =>
      mkSim (threats sim) (explosions sim ++ [mkExplosion p impact])
        (addLog (ImpactLog i) (logs sim))
        (mkStats (launched (stats sim)) (intercepted (stats sim)) (S (impacted (stats sim))))
  end.

(** *** One sub-step of one threat *)

Definition withStatus (threat : Threat) (s : Status) (c : LatLng) : Threat :=
  mkThreat (id threat) (start threat) (target threat) c s (speed threat) (type_ threat)
    (interceptorId threat) (interceptorPos threat) (predictedInterceptPoint threat)
    (detectedByRadarId threat).

Definition withCurrent (threat : Threat) (c : LatLng) : Threat :=
  withStatus threat (status threat) c.

Definition withDetectedBy (threat : Threat) (radarId : string) : Threat :=
  mkThreat (id threat) (start threat) (target threat) (current threat) (status threat)
    (speed threat) (type_ threat)
    (interceptorId threat) (interceptorPos threat) (predictedInterceptPoint threat)
    (Some radarId).

Definition withInterceptor (threat : Threat) (interceptor : System) (predictedPos : LatLng)
    : Threat :=
  mkThreat (id threat) (start threat) (target threat) (current threat) (status threat)
    (speed threat) (type_ threat)
    (Some (Types.id interceptor)) (Some (position interceptor)) (Some predictedPos)
    (detectedByRadarId threat).

Definition withInterceptorPos (threat : Threat) (p : LatLng) : Threat :=
  mkThreat (id threat) (start threat) (target threat) (current threat) (status threat)
    (speed threat) (type_ threat)
    (interceptorId threat) (Some p) (predictedInterceptPoint threat)
    (detectedByRadarId threat).

(** [from] moved by [v * dt] along the bearing [Math.atan2(dLat, dLng)]. *)
Definition advance (from : LatLng) (dLat dLng v dt : R) : LatLng :=
  let angle := atan2 dLat dLng in
  L.latLng (L.lat from + sin angle * v * dt) (L.lng from + cos angle * v * dt).

(** [nextPos] *)
Definition nextPosition (dt : R) (threat : Threat) : LatLng :=
  advance (current threat)
    (L.lat (target threat) - L.lat (start threat))
    (L.lng (target threat) - L.lng (start threat))
    (speed threat) dt.

(** [activeInterceptors.sort((a, b) => (b.shotSpeed || 0) - (a.shotSpeed || 0))]:
    a stable sort, fastest first. *)
Fixpoint insertBySpeed (x : System) (sorted : list System) : list System :=
  match sorted with
  | [] => [x]
  | y :: rest =>
      if Rltb (orElse (Types.shotSpeed x) 0) (orElse (Types.shotSpeed y) 0)
      then y :: insertBySpeed x rest
      else x :: y :: rest
  end.

Definition sortBySpeed (systems : list System) : list System :=
  fold_right insertBySpeed [] systems.

(** [killRadius] and [impactThreshold] *)
Definition killRadius (currentSpeed : R) (threat : Threat) : R :=
  900 + (if Rltb 50 currentSpeed then currentSpeed * 2 else 0) + speed threat * 20000.

Definition impactThreshold (currentSpeed : R) : R :=
  600 + (if Rltb 500 currentSpeed then currentSpeed else 0).

Section WithDistance.

(** Leaflet's [a.distanceTo(b)], in metres. *)
Variable distanceTo : LatLng -> LatLng -> R.

(** [p.distanceTo(L.latLng(sys.lat, sys.lng)) / 1000 <= sys.range] *)
Definition inRange (p : LatLng) (sys : System) : bool :=
  Rleb (distanceTo p (position sys) / 1000) (Types.range sys).

(** The loop over [bestCandidates]: [Some None] when no candidate is
    feasible, [None] when [calculateIntercept] throws. *)
Fixpoint firstFeasible (threat : Threat) (bestCandidates : list System)
    : option (option (System * LatLng)) :=
  match bestCandidates with
  | [] => Some None
  | interceptor :: rest =>
      match calculateIntercept threat interceptor with
      | NoIntercept => firstFeasible threat rest
      | NotANumber => None
      | InterceptAt predictedPos =>
          if inRange predictedPos interceptor
          then Some (Some (interceptor, predictedPos))
          else firstFeasible threat rest
      end
  end.

(** Detection and interceptor assignment: the threat after the block
    [if (detectingRadar) { ... }], and whether a lock was logged. *)
Definition detectAndAssign (systems : list System) (nextPos : LatLng) (threat : Threat)
    : option (Threat * list Event) :=
  let activeRadars := filter (Types.activeWithRole Types.RADAR) systems in
  match find (inRange nextPos) activeRadars with
  | None => Some (threat, [])
  | Some detectingRadar =>
      let threat := withDetectedBy threat (Types.id detectingRadar) in
      if negb (truthy (interceptorId threat)) then
        let activeInterceptors := filter (Types.activeWithRole Types.INTERCEPTOR) systems in
        let bestCandidates := sortBySpeed activeInterceptors in
        match firstFeasible threat bestCandidates with
        | None => None
        | Some None => Some (threat, [])
        | Some (Some (interceptor, predictedPos)) =>
            Some (withInterceptor threat interceptor predictedPos, [Locked (id threat)])
        end
      else Some (threat, [])
  end.

(** [nextIPos], for the pursuit position [ipos]. *)
Definition nextInterceptorPosition (systems : list System) (dt : R) (nextPos : LatLng)
    (threat : Threat) (ipos : LatLng) : LatLng :=
  let targetGoal :=
    match predictedInterceptPoint threat with Some p => p | None => nextPos end in
  let interceptor :=
    find (fun sys => match interceptorId threat with
                     | Some i => String.eqb (Types.id sys) i
                     | None => false
                     end) systems in
  let shotSpeed :=
    match interceptor with
    | Some i => orElse (Types.shotSpeed i) 0.22
    | None => 0.22
    end in
  advance ipos (L.lat targetGoal - L.lat ipos) (L.lng targetGoal - L.lng ipos) shotSpeed dt.

(** The impact check and the final move. *)
Definition impactOrMove (currentSpeed : R) (nextPos : LatLng) (threat : Threat)
    : Threat * list Event :=
  if Rltb (distanceTo nextPos (target threat)) (impactThreshold currentSpeed)
  then (withStatus threat IMPACTED (target threat), [Hit (id threat) (target threat)])
  else (withCurrent threat nextPos, []).

(** Pursuit, kill check, impact check and move: the rest of the loop body
    after detection and assignment. *)
Definition resolve (systems : list System) (dt currentSpeed : R) (nextPos : LatLng)
    (threat : Threat) : Threat * list Event :=
  match (if truthy (interceptorId threat) then interceptorPos threat else None) with
  | Some ipos =>
      let nextIPos := nextInterceptorPosition systems dt nextPos threat ipos in
      if Rltb (distanceTo nextIPos nextPos) (killRadius currentSpeed threat)
      then (withStatus threat INTERCEPTED nextPos, [Killed (id threat) nextPos])
      else impactOrMove currentSpeed nextPos (withInterceptorPos threat nextIPos)
  | None => impactOrMove currentSpeed nextPos threat
  end.

(** The body of the inner loop for one threat; [None] when it throws. *)
Definition stepThreat (systems : list System) (dt currentSpeed : R) (threat : Threat)
    : option (Threat * list Event) :=
  if negb (isMoving (status threat)) then Some (threat, [])
  else
    let nextPos := nextPosition dt threat in
    match detectAndAssign systems nextPos threat with
    | None => None
    | Some (threat, events) =>
        let '(threat, events') := resolve systems dt currentSpeed nextPos threat in
        Some (threat, events ++ events')
    end.

(** The inner loop: every threat, in order. *)
Fixpoint stepThreats (systems : list System) (dt currentSpeed : R) (ts : list Threat)
    : option (list Threat * list Event) :=
  match ts with
  | [] => Some ([], [])
  | threat :: rest =>
      match stepThreat systems dt currentSpeed threat with
      | None => None
      | Some (threat', events) =>
          match stepThreats systems dt currentSpeed rest with
          | None => None
          | Some (rest', events') => Some (threat' :: rest', events ++ events')
          end
      end
  end.

(** The outer loop: [substeps] passes. *)
Fixpoint subSteps (systems : list System) (dt currentSpeed : R) (substeps : nat)
    (ts : list Threat) : option (list Threat * list Event) :=
  match substeps with
  | O => Some (ts, [])
  | S n =>
      match stepThreats systems dt currentSpeed ts with
      | None => None
      | Some (ts', events) =>
          match subSteps systems dt currentSpeed n ts' with
          | None => None
          | Some (ts'', events') => Some (ts'', events ++ events')
          end
      end
  end.

(** [Math.min(1000, Math.ceil(currentSpeed * 2.5))] *)
Definition substepCount (currentSpeed : R) : nat :=
  Z.to_nat (Z.min 1000 (ceil (currentSpeed * 2.5))).

(** One animation frame after the first (which only records its time):
    [rawDeltaTime] seconds after the last one, with the time acceleration
    [currentSpeed] and the systems of [systemsRef].  The threat objects the
    loop writes to are the ones it reads ([threat] and [nextThreats[i]] are
    one object until the entry is replaced), so one record is threaded through
    the body.  [None] when the frame throws. *)
Definition updateSimulation (systems : list System) (rawDeltaTime currentSpeed : R)
    (sim : Sim) : option Sim :=
  let substeps := substepCount currentSpeed in
  let dt := (rawDeltaTime * currentSpeed) / INR substeps in
  match threats sim with
  | [] => Some sim
  | prevThreats =>
      match subSteps systems dt currentSpeed substeps prevThreats with
      | None => None
      | Some (nextThreats, events) =>
          let sim' := fold_left applyEvent events sim in
          Some (mkSim nextThreats (explosions sim') (logs sim') (stats sim'))
      end
  end.

(** *** Runs *)

(** A step of a run: a launch or a frame. *)
Inductive step : Sim -> Sim -> Prop :=
| step_launch attackerType attackerSpeedScale newId start target sim :
    step sim (launchThreat attackerType attackerSpeedScale newId start target sim)
| step_frame systems rawDeltaTime currentSpeed sim sim' :
    updateSimulation systems rawDeltaTime currentSpeed sim = Some sim' ->
    step sim sim'.

(** [run sim sim']: [sim'] comes after [sim] in a run. *)
Inductive run : Sim -> Sim -> Prop :=
| run_refl sim : run sim sim
| run_step sim sim' sim'' : run sim sim' -> step sim' sim'' -> run sim sim''.

(** The states of the component: from the initial one by launches, frames
    and resets. *)
Inductive reachable : Sim -> Prop :=
| reachable_initial : reachable initial
| reachable_step sim sim' : reachable sim -> step sim sim' -> reachable sim'
| reachable_deactivate sim : reachable sim -> reachable (deactivate sim).

(** The number of kill events and of impact events in a list of events. *)
Definition kills (events : list Event) : nat :=
  List.length (filter (fun e => match e with Killed _ _ => true | _ => false end) events).

Definition hits (events : list Event) : nat :=
  List.length (filter (fun e => match e with Hit _ _ => true | _ => false end) events).

(** 1 for a MOVING threat, 0 for a resolved one. *)
Definition moving (threat : Threat) : nat := if isMoving (status threat) then 1 else 0.

(** What every sub-step keeps of a threat: its identity; the whole threat
    once it is resolved; its interceptor once it is bound. *)
Definition keeps (threat threat' : Threat) : Prop :=
  id threat' = id threat
  /\ (isMoving (status threat) = false -> threat' = threat)
  /\ (truthy (interceptorId threat) = true -> interceptorId threat' = interceptorId threat).

Definition movingCount (ts : list Threat) : nat :=
  List.length (filter (fun t => isMoving (status t)) ts).

(** Every launched threat is intercepted, impacted or still MOVING. *)
Definition balanced (sim : Sim) : Prop :=
  launched (stats sim)
  = (intercepted (stats sim) + impacted (stats sim) + movingCount (threats sim))%nat.

End WithDistance.

End AttackSimulator.

(** Example regions. *)

Module GeoExamples.
Import Geo.

Definition square (lo hi : Q) : Ring :=
  [ (lo, lo); (hi, lo); (hi, hi); (lo, hi); (lo, lo) ].

(** A 10 x 10 square with a 2 x 2 hole in its middle, as one GeoJSON polygon. *)
Definition squareWithHole : list Feature :=
  [ {| geometry := Polygon {| exterior := square 0 10; holes := [ square 4 6 ] |} |} ].

(** The same two rings, given as two polygons of a multi-polygon. *)
Definition squareAndIsland : list Feature :=
  [ {| geometry := MultiPolygon [ {| exterior := square 0 10; holes := [] |};
                                  {| exterior := square 4 6; holes := [] |} ] |} ].

End GeoExamples.

(** Example layouts for the scoring engine. *)

Module ScoresExamples.

(** A planar stand-in for Leaflet's distance, in metres (111 km per degree). *)
Definition flatDistance (a b : Scores.Point) : Q :=
  111000 * (Qabs (L.lat a - L.lat b) + Qabs (L.lng a - L.lng b)).

(** One radar and one interceptor in the middle of the island, each with a
    range larger than half the circumference of the Earth. *)
Definition fullShield : list Scores.System :=
  [ Types.mkSystem "r1" 7.9 80.7 25000 Types.RADAR 0 None "JY-27";
    Types.mkSystem "i1" 7.9 80.7 25000 Types.INTERCEPTOR 0.25 (Some true) "Barak-8" ].

(** A region that contains the whole bounding box. *)
Definition wholeBox : list Geo.Feature :=
  [ {| Geo.geometry :=
         Geo.Polygon {| Geo.exterior := GeoExamples.square 0 100; Geo.holes := [] |} |} ].

End ScoresExamples.

(** Example layouts for the mutation operator. *)

Module MutationExamples.

(** An interceptor east of the bounding box: the Pottuvil coast (lng 81.8210)
    shifted by 0.19 degrees, a position [generateRandomDeploymentWithCounts]
    can produce. *)
Definition eastOfBox : Mutation.System :=
  Types.mkSystem "u1" 6.8724 82.011 150 Types.INTERCEPTOR 0.25 (Some true) "Barak-8".

Definition insideBox : Mutation.System :=
  Types.mkSystem "u2" 7.0 80.0 500 Types.RADAR 0 (Some true) "JY-27".

(** Every call of [Math.random()] returns 0.9, or 0.05. *)
Definition always (q : Q) : nat -> Q := fun _ => q.

End MutationExamples.

(** Example input for the stress test. *)

Module StressTestExamples.

(** A stand-in for Leaflet's point-to-segment distance, in degrees: the
    taxicab distance from the point to the nearer end of the segment. *)
Definition flatSegmentDistance (p p1 p2 : Q * Q) : Q :=
  Qmin (Qabs (fst p - fst p1) + Qabs (snd p - snd p1))
       (Qabs (fst p - fst p2) + Qabs (snd p - snd p2)).

(** The draws 0.05, 0.15, ..., 0.95, 0.05, ... *)
Definition cycle (k : nat) : Q := inject_Z (Z.of_nat (k mod 10)) / 10 + 0.05.

End StressTestExamples.

(** Example threats and interceptors. *)

Module SimulatorExamples.

Local Open Scope string_scope.
Local Open Scope R_scope.

(** Leaflet's [distanceTo] ([CRS.Earth.distance], the haversine formula on a
    sphere of radius 6371000 m). *)
Definition earthDistance (p q : AttackSimulator.LatLng) : R :=
  let rad := PI / 180 in
  let lat1 := L.lat p * rad in
  let lat2 := L.lat q * rad in
  let sinDLat := sin ((L.lat q - L.lat p) * rad / 2) in
  let sinDLon := sin ((L.lng q - L.lng p) * rad / 2) in
  let a := sinDLat * sinDLat + cos lat1 * cos lat2 * sinDLon * sinDLon in
  let c := 2 * AttackSimulator.atan2 (sqrt a) (sqrt (1 - a)) in
  6371000 * c.

(** A threat at the origin flying east at the given speed, not yet detected. *)
Definition eastbound (v : R) : AttackSimulator.Threat :=
  AttackSimulator.mkThreat "t1" (L.latLng 0 0) (L.latLng 0 1) (L.latLng 0 0)
    AttackSimulator.MOVING v "cruise" None None None None.

(** An interceptor on the path of [eastbound], [d] degrees east of the origin. *)
Definition interceptorAt (d shot : R) : AttackSimulator.System :=
  Types.mkSystem "i1" 0 d 150 Types.INTERCEPTOR shot (Some true) "Custom".

(** A cruise missile flying east along the equator towards (0, 1), bound to
    the interceptor "i1", whose shot is at [ipos] and flies to (0, 1). *)
Definition pursued (cur ipos : R) : AttackSimulator.Threat :=
  AttackSimulator.mkThreat "t1" (L.latLng 0 0) (L.latLng 0 1) (L.latLng 0 cur)
    AttackSimulator.MOVING 0.0075 "cruise"
    (Some "i1") (Some (L.latLng 0 ipos)) (Some (L.latLng 0 1)) None.

(** The interceptor "i1" (Barak-8, shot speed 0.25), switched on or off. *)
Definition barak (on : bool) : AttackSimulator.System :=
  Types.mkSystem "i1" 0 0.75 150 Types.INTERCEPTOR 0.25 (Some on) "Barak-8".

(** The state after the first launch of a run. *)
Definition firstLaunch : AttackSimulator.Sim :=
  AttackSimulator.launchThreat StressTest.cruise 1 "t1" (L.latLng 9.9 80.75)
    (L.latLng 6.9271 79.8612) AttackSimulator.initial.

(** A cruise missile launched about 8 m west of its target, on an empty
    simulation. *)
Definition shortHop : AttackSimulator.Sim :=
  AttackSimulator.launchThreat StressTest.cruise 1 "t1" (L.latLng 0 0)
    (L.latLng 0 0.000075) AttackSimulator.initial.

Definition shortHopThreat (s : AttackSimulator.Status) (cur : AttackSimulator.LatLng)
    : AttackSimulator.Threat :=
  AttackSimulator.mkThreat "t1" (L.latLng 0 0) (L.latLng 0 0.000075) cur s
    (AttackSimulator.BASE_THREAT_SPEED * AttackSimulator.speedMod StressTest.cruise * 1)
    "cruise" None None None None.

End SimulatorExamples.

(** * Further definitions *)

From Stdlib Require Import DecimalString Sorted.

(** Shapes for the point-in-polygon test. *)

Module GeoShapes.

(** The closed ring of the axis-parallel rectangle with the corners
    [(x0, y0)] and [(x1, y1)]. *)
Definition rectangle (x0 y0 x1 y1 : Q) : Geo.Ring :=
  [ (x0, y0); (x1, y0); (x1, y1); (x0, y1); (x0, y0) ].

End GeoShapes.

(** Bounds of the mutation operator. *)

Module MutationBounds.

(** The mutation chance of the mode. *)
Definition mutationChance (forceHighEntropy : bool) : Q :=
  if forceHighEntropy then 0.45 else 0.25.

(** Half the [moveAmount] of the role: the largest step of a coordinate in
    low-entropy mode. *)
Definition maxStep (sys : Mutation.System) : Q :=
  if Types.role_eqb (Types.role sys) Types.RADAR then 0.75 else 0.225.

(** The unit [sys'] is within [maxStep] of [sys] in both coordinates. *)
Definition near (sys sys' : Mutation.System) : Prop :=
  (Qabs (Types.lat sys' - Types.lat sys) <= maxStep sys
   /\ Qabs (Types.lng sys' - Types.lng sys) <= maxStep sys)%Q.

End MutationBounds.

(** What the counters of the stress test keep. *)

Module StressTestBounds.

(** Intercepted missiles were detected, detected ones were launched, at most
    one log line per launch, three draws per launch from the draw [k0] on. *)
Definition consistent (k0 : nat) (t : StressTest.Tally) (k : nat) : Prop :=
  (StressTest.interceptedCount t <= StressTest.detectedCount t
   /\ StressTest.detectedCount t <= StressTest.totalLaunched t
   /\ k = k0 + 3 * StressTest.totalLaunched t)%nat.

(** The share of intercepted missiles, in percent. *)
Definition interceptRate (r : StressTest.Results) : Q :=
  Scores.ofNat (StressTest.intercepted r) / Scores.ofNat (StressTest.r_totalLaunched r) * 100.

End StressTestBounds.

(** ** [generateRandomDeploymentWithCounts] *)

Module Deployment.

(** [SystemTemplate]: the fields the generated unit is read by; the other
    descriptive fields are left out. *)
Record SystemTemplate := mkTemplate {
  category : string;
  role : Types.SystemRole;
  range : Q;
  shotSpeed : Q;
  name : option string          (* name?: string *)
}.

(** [Object.values(STRATEGIC_LOCATIONS)], as [(lat, lng)]. *)
Definition STRATEGIC_LOCATIONS : list (Q * Q) :=
  [ (7.0001, 80.7725);    (* PIDURUTHALAGALA *)
    (8.5873, 81.2152);    (* TRINCO_COAST *)
    (6.1246, 81.1245);    (* HAMBANTHOTA_COAST *)
    (6.8724, 81.8210);    (* POTTUVIL_COAST *)
    (5.9234, 80.5873) ].  (* DONDRA_HEAD *)

(** The variables of the placement loop. *)
Record Placement := mkPlacement {
  valid : bool;
  lat : Q;
  lng : Q;
  attempts : nat
}.

Definition isOutside (placementStrategy : string) : bool :=
  String.eqb placementStrategy "outside".

(** [base + (Math.random() - 0.5) * spread], twice. *)
Definition around (base : Q * Q) (spread : Q) : Random.M (Q * Q) :=
  r1 <- Random.random ;;
  r2 <- Random.random ;;
  Random.ret (fst base + (r1 - 0.5) * spread, snd base + (r2 - 0.5) * spread).

(** The position an attempt tries; [None] when an index is out of range and
    reading the entry throws. *)
Definition candidate (placementStrategy : string) : Random.M (option (Q * Q)) :=
  let b := Constants.SL_BOUNDS in
  roll <- Random.random ;;
  if Qgtb roll 0.7 && negb (isOutside placementStrategy) then
    i <- StressTest.randomIndex (inject_Z (Z.of_nat (List.length STRATEGIC_LOCATIONS))) ;;
    match StressTest.at_ STRATEGIC_LOCATIONS i with
    | None => Random.ret None
    | Some target => p <- around target 0.4 ;; Random.ret (Some p)
    end
  else if Qgtb roll 0.4 && negb (isOutside placementStrategy) then
    i <- StressTest.randomIndex (inject_Z (Z.of_nat (List.length Constants.CITIES))) ;;
    match StressTest.at_ Constants.CITIES i with
    | None => Random.ret None
    | Some targetCity =>
        p <- around (Constants.lat targetCity, Constants.lng targetCity) 0.6 ;;
        Random.ret (Some p)
    end
  else
    r1 <- Random.random ;;
    r2 <- Random.random ;;
    Random.ret (Some
      (r1 * (Constants.maxLat b - Constants.minLat b) + Constants.minLat b,
       r2 * (Constants.maxLng b - Constants.minLng b) + Constants.minLng b)).

(** The value given to [valid] for a position. *)
Definition accepts (placementStrategy : string) (geoData : Geo.GeoData) (p : Q * Q) : bool :=
  let inside := Geo.isInsideCountry (fst p) (snd p) geoData in
  if String.eqb placementStrategy "inside" then inside
  else if String.eqb placementStrategy "outside" then negb inside
  else true.

(** [while (!valid && attempts < 50) { ... }]; [fuel] bounds the number of
    turns. *)
Fixpoint placeLoop (placementStrategy : string) (geoData : Geo.GeoData) (fuel : nat)
    (st : Placement) : Random.M (option Placement) :=
  match fuel with
  | O => Random.ret (Some st)
  | S fuel' =>
      if negb (valid st) && (attempts st <? 50)%nat then
        c <- candidate placementStrategy ;;
        match c with
        | None => Random.ret None
        | Some p =>
            placeLoop placementStrategy geoData fuel'
              (mkPlacement (accepts placementStrategy geoData p) (fst p) (snd p)
                 (S (attempts st)))
        end
      else Random.ret (Some st)
  end.

(** The placement of one unit: the loop from [valid = false], [lat = 0],
    [lng = 0], [attempts = 0]; 50 turns are enough. *)
Definition place (placementStrategy : string) (geoData : Geo.GeoData)
    : Random.M (option Placement) :=
  placeLoop placementStrategy geoData 50 (mkPlacement false 0 0 0).

(** [`${template.name || template.category}-${s + 1}`] *)
Definition unitName (template : SystemTemplate) (s : nat) : string :=
  let base := match name template with
              | Some EmptyString | None => category template
              | Some n => n
              end in
  (base ++ "-" ++ NilEmpty.string_of_uint (Nat.to_uint (s + 1)))%string.

Section WithIds.

(** [Math.random().toString(36).substr(2, 9)], as a function of the draw. *)
Variable toId : Q -> string.

(** [generateId()] *)
Definition generateId : Random.M string :=
  r <- Random.random ;; Random.ret (toId r).

(** The body of the loop over [s]: one unit of the template. *)
Definition makeUnit (placementStrategy : string) (geoData : Geo.GeoData)
    (template : SystemTemplate) (s : nat) : Random.M (option (Types.DefenseSystem Q)) :=
  st <- place placementStrategy geoData ;;
  match st with
  | None => Random.ret None
  | Some st =>
      i <- generateId ;;
      Random.ret (Some
        (Types.mkSystem i (lat st) (lng st) (range template) (role template)
           (shotSpeed template) (Some true) (unitName template s)))
  end.

(** [for (let s = 0; s < count; s++)], from [s] on, [n] units left. *)
Fixpoint makeUnits (placementStrategy : string) (geoData : Geo.GeoData)
    (template : SystemTemplate) (s n : nat) : Random.M (option (list (Types.DefenseSystem Q))) :=
  match n with
  | O => Random.ret (Some [])
  | S n' =>
      u <- makeUnit placementStrategy geoData template s ;;
      match u with
      | None => Random.ret None
      | Some u =>
          us <- makeUnits placementStrategy geoData template (S s) n' ;;
          match us with
          | None => Random.ret None
          | Some us => Random.ret (Some (u :: us))
          end
      end
  end.

(** [Object.entries(unitCounts).forEach(...)]: the entries in order, with the
    lookup [templates[templateKey]]. *)
Fixpoint generateRandomDeploymentWithCounts (unitCounts : list (string * nat))
    (placementStrategy : string) (geoData : Geo.GeoData)
    (templates : string -> option SystemTemplate)
    : Random.M (option (list (Types.DefenseSystem Q))) :=
  match unitCounts with
  | [] => Random.ret (Some [])
  | (templateKey, count) :: rest =>
      match templates templateKey with
      | None =>
          generateRandomDeploymentWithCounts rest placementStrategy geoData templates
      | Some template =>
          us <- makeUnits placementStrategy geoData template 0 count ;;
          match us with
          | None => Random.ret None
          | Some us =>
              more <- generateRandomDeploymentWithCounts rest placementStrategy geoData
                        templates ;;
              match more with
              | None => Random.ret None
              | Some more => Random.ret (Some (us ++ more))
              end
          end
      end
  end.

End WithIds.

(** The number of units asked for with a key that has a template. *)
Fixpoint requested (unitCounts : list (string * nat))
    (templates : string -> option SystemTemplate) : nat :=
  match unitCounts with
  | [] => 0
  | (templateKey, count) :: rest =>
      match templates templateKey with
      | None => requested rest templates
      | Some _ => count + requested rest templates
      end
  end.

(** Within [margin] degrees of the bounding box. *)
Definition nearBox (margin : Q) (p : Q * Q) : Prop :=
  (Constants.minLat Constants.SL_BOUNDS - margin <= fst p
   /\ fst p <= Constants.maxLat Constants.SL_BOUNDS + margin
   /\ Constants.minLng Constants.SL_BOUNDS - margin <= snd p
   /\ snd p <= Constants.maxLng Constants.SL_BOUNDS + margin)%Q.

End Deployment.

(** ** The random origin and target of [launchRandomStrike] *)

Module Strike.

Definition margin : Q := 2.5.

(** The origin of a threat, [(originLat, originLng)]: one branch per side. *)
Definition randomOrigin : Random.M (Q * Q) :=
  let b := Constants.SL_BOUNDS in
  side <- StressTest.randomIndex 4 ;;
  r <- Random.random ;;
  Random.ret
    (if (side =? 0)%Z then
       (Constants.maxLat b + margin,
        Constants.minLng b + r * (Constants.maxLng b - Constants.minLng b))
     else if (side =? 1)%Z then
       (Constants.minLat b - margin,
        Constants.minLng b + r * (Constants.maxLng b - Constants.minLng b))
     else if (side =? 2)%Z then
       (Constants.minLat b + r * (Constants.maxLat b - Constants.minLat b),
        Constants.maxLng b + margin)
     else
       (Constants.minLat b + r * (Constants.maxLat b - Constants.minLat b),
        Constants.minLng b - margin)).

(** The target: a city, or a point of the box half a degree off its edges;
    [None] when [CITIES[...]] is [undefined] and reading its [lat] throws. *)
Definition randomTarget : Random.M (option (Q * Q)) :=
  let b := Constants.SL_BOUNDS in
  roll <- Random.random ;;
  if Qgtb roll 0.3 then
    i <- StressTest.randomIndex (inject_Z (Z.of_nat (List.length Constants.CITIES))) ;;
    match StressTest.at_ Constants.CITIES i with
    | None => Random.ret None
    | Some city => Random.ret (Some (Constants.lat city, Constants.lng city))
    end
  else
    r1 <- Random.random ;;
    r2 <- Random.random ;;
    Random.ret (Some
      (Constants.minLat b + 0.5 + r1 * (Constants.maxLat b - Constants.minLat b - 1),
       Constants.minLng b + 0.5 + r2 * (Constants.maxLng b - Constants.minLng b - 1))).

(** The arguments [(origin, targetPos)] of [launchThreat] in one callback. *)
Definition randomPath : Random.M (option ((Q * Q) * (Q * Q))) :=
  origin <- randomOrigin ;;
  target <- randomTarget ;;
  match target with
  | None => Random.ret None
  | Some target => Random.ret (Some (origin, target))
  end.

(** Inside the bounding box. *)
Definition inBox (p : Q * Q) : Prop :=
  (Constants.minLat Constants.SL_BOUNDS <= fst p
   /\ fst p <= Constants.maxLat Constants.SL_BOUNDS
   /\ Constants.minLng Constants.SL_BOUNDS <= snd p
   /\ snd p <= Constants.maxLng Constants.SL_BOUNDS)%Q.

(** On the line [margin] degrees off one side of the box, between the ends
    of that side. *)
Definition onApproach (p : Q * Q) : Prop :=
  let b := Constants.SL_BOUNDS in
  ((fst p == Constants.maxLat b + margin \/ fst p == Constants.minLat b - margin)
   /\ Constants.minLng b <= snd p /\ snd p <= Constants.maxLng b)%Q
  \/ ((snd p == Constants.maxLng b + margin \/ snd p == Constants.minLng b - margin)
      /\ Constants.minLat b <= fst p /\ fst p <= Constants.maxLat b)%Q.

End Strike.

(** What the placement loop has established once it has tried a position. *)

Module DeploymentFacts.

Definition tried (placementStrategy : string) (geoData : Geo.GeoData)
    (st : Deployment.Placement) : Prop :=
  Deployment.nearBox 0.3 (Deployment.lat st, Deployment.lng st)
  /\ (Deployment.isOutside placementStrategy = true ->
      Deployment.nearBox 0 (Deployment.lat st, Deployment.lng st))
  /\ Deployment.valid st
     = Deployment.accepts placementStrategy geoData (Deployment.lat st, Deployment.lng st)
  /\ (1 <= Deployment.attempts st)%nat.

End DeploymentFacts.

Module DeploymentUnits.

(** A unit made from the template: active, with the template's data, near
    the box, and inside the box for the strategy "outside". *)
Definition madeFrom (placementStrategy : string) (template : Deployment.SystemTemplate)
    (u : Types.DefenseSystem Q) : Prop :=
  Types.isActive u = Some true
  /\ Types.role u = Deployment.role template
  /\ Types.range u = Deployment.range template
  /\ Types.shotSpeed u = Deployment.shotSpeed template
  /\ Deployment.nearBox 0.3 (Types.lat u, Types.lng u)
  /\ (placementStrategy = "outside"%string -> Mutation.inBounds u).

(** A unit made from a template of the entries. *)
Definition generated (placementStrategy : string) (unitCounts : list (string * nat))
    (templates : string -> option Deployment.SystemTemplate)
    (u : Types.DefenseSystem Q) : Prop :=
  exists key count template,
    In (key, count) unitCounts /\ templates key = Some template
    /\ madeFrom placementStrategy template u.

End DeploymentUnits.

(** ** Interceptor assignment *)

Module Assignment.

(** The sort key [shotSpeed || 0]. *)
Definition speedKey (s : AttackSimulator.System) : R :=
  AttackSimulator.orElse (Types.shotSpeed s) 0.

(** An interceptor is feasible for a threat when [calculateIntercept] returns
    a point within the interceptor's range. *)
Definition feasible (distanceTo : AttackSimulator.LatLng -> AttackSimulator.LatLng -> R)
    (threat : AttackSimulator.Threat) (interceptor : AttackSimulator.System) : Prop :=
  exists p,
    AttackSimulator.calculateIntercept threat interceptor = AttackSimulator.InterceptAt p
    /\ AttackSimulator.inRange distanceTo p interceptor = true.

(** Fastest first. *)
Definition descending (l : list AttackSimulator.System) : Prop :=
  StronglySorted (fun a b => (speedKey b <= speedKey a)%R) l.

End Assignment.

(** Example units for the assignment. *)

Module AssignmentExamples.

Local Open Scope string_scope.
Local Open Scope R_scope.

(** A radar where the threat [eastbound 0.06] is after 10 ms. *)
Definition radarAhead : AttackSimulator.System :=
  Types.mkSystem "r1" 0 0.0006 500 Types.RADAR 0 (Some true) "JY-27".

(** An interceptor at the threat's position. *)
Definition launcher : AttackSimulator.System :=
  SimulatorExamples.interceptorAt 0 0.25.

End AssignmentExamples.

(** ** What frames keep *)

Module Flight.

(** The launch data of a threat. *)
Definition samePlan (t t' : AttackSimulator.Threat) : Prop :=
  AttackSimulator.id t' = AttackSimulator.id t
  /\ AttackSimulator.start t' = AttackSimulator.start t
  /\ AttackSimulator.target t' = AttackSimulator.target t
  /\ AttackSimulator.speed t' = AttackSimulator.speed t
  /\ AttackSimulator.type_ t' = AttackSimulator.type_ t.

(** [t'] has the launch data of [t], and when it is still MOVING it is where
    [t] gets in the time [d] on its bearing. *)
Definition flown (d : R) (t t' : AttackSimulator.Threat) : Prop :=
  samePlan t t'
  /\ (AttackSimulator.isMoving (AttackSimulator.status t') = true ->
      AttackSimulator.isMoving (AttackSimulator.status t) = true
      /\ AttackSimulator.current t' = AttackSimulator.nextPosition d t).

(** The bookkeeping of a threat: an IMPACTED threat is at its target, an
    INTERCEPTED one has a bound interceptor with a position, and a threat
    with an interceptor id has an interceptor position, a predicted intercept
    point and a detecting radar. *)
Definition wellFormed (t : AttackSimulator.Threat) : Prop :=
  (AttackSimulator.status t = AttackSimulator.IMPACTED ->
   AttackSimulator.current t = AttackSimulator.target t)
  /\ (AttackSimulator.status t = AttackSimulator.INTERCEPTED ->
      AttackSimulator.truthy (AttackSimulator.interceptorId t) = true
      /\ AttackSimulator.interceptorPos t <> None)
  /\ (AttackSimulator.interceptorId t <> None ->
      AttackSimulator.interceptorPos t <> None
      /\ AttackSimulator.predictedInterceptPoint t <> None
      /\ AttackSimulator.detectedByRadarId t <> None).

(** Without radar: nothing is detected or bound, and an unbound threat is
    not intercepted. *)
Definition unseen (t t' : AttackSimulator.Threat) : Prop :=
  AttackSimulator.detectedByRadarId t' = AttackSimulator.detectedByRadarId t
  /\ AttackSimulator.interceptorId t' = AttackSimulator.interceptorId t
  /\ (AttackSimulator.truthy (AttackSimulator.interceptorId t) = false ->
      AttackSimulator.status t' = AttackSimulator.INTERCEPTED ->
      AttackSimulator.status t = AttackSimulator.INTERCEPTED).

End Flight.

Module FrameExamples.

Local Open Scope R_scope.

(** The cruise missile of [SimulatorExamples.eastbound] at [cur] degrees
    east, undetected and unbound. *)
Definition cruisingAt (cur : R) : AttackSimulator.Threat :=
  AttackSimulator.withCurrent (SimulatorExamples.eastbound 0.0075) (L.latLng 0 cur).

(** One such missile in flight, after one launch. *)
Definition cruising : AttackSimulator.Sim :=
  AttackSimulator.mkSim [cruisingAt 0] [] [] (AttackSimulator.mkStats 1 0 0).

(** The state of [cruising] after a frame of 30 ms at speed 1. *)
Definition cruised : AttackSimulator.Sim :=
  AttackSimulator.mkSim
    [cruisingAt (0 + 0.0075 * 0.01 + 0.0075 * 0.01 + 0.0075 * 0.01)] [] []
    (AttackSimulator.mkStats 1 0 0).

(** The state of [SimulatorExamples.shortHop] after a frame of 30 ms at
    speed 1. *)
Definition landed : AttackSimulator.Sim :=
  AttackSimulator.mkSim
    [SimulatorExamples.shortHopThreat AttackSimulator.IMPACTED (L.latLng 0 0.000075)]
    [AttackSimulator.mkExplosion (L.latLng 0 0.000075) AttackSimulator.impact]
    [AttackSimulator.ImpactLog "t1"]
    (AttackSimulator.mkStats 1 0 1).

End FrameExamples.

(** ** A run of an engagement *)

Module EngagementExamples.

Local Open Scope string_scope.
Local Open Scope R_scope.

(** A radar at the target of the threat, with a range of 500 km. *)
Definition radarEast : AttackSimulator.System :=
  Types.mkSystem "r1" 0 1 500 Types.RADAR 0 (Some true) "JY-27".

(** A Barak-8 battery (shot speed 0.25, range 150 km) on the equator, [d]
    degrees east of the origin, with the given id, switched on or off. *)
Definition battery (unitId : string) (d : R) (on : bool) : AttackSimulator.System :=
  Types.mkSystem unitId 0 d 150 Types.INTERCEPTOR 0.25 (Some on) "Barak-8".

(** A faster battery (shot speed 0.5) close to the origin. *)
Definition fastBattery : AttackSimulator.System :=
  Types.mkSystem "i2" 0 0.00124 150 Types.INTERCEPTOR 0.5 (Some true) "Custom".

(** The cruise missile "t1" that [launchThreat] makes for a launch from
    (0, 0) at (0, 1) with the speed scale 1, later in its flight: at [cur]
    degrees east, with the given status, binding and detecting radar. *)
Definition missile (s : AttackSimulator.Status) (cur : R) (unitId : option string)
    (ipos pred : option AttackSimulator.LatLng) (radarId : option string)
    : AttackSimulator.Threat :=
  AttackSimulator.mkThreat "t1" (L.latLng 0 0) (L.latLng 0 1) (L.latLng 0 cur) s
    (AttackSimulator.BASE_THREAT_SPEED * AttackSimulator.speedMod StressTest.cruise * 1)
    "cruise" unitId ipos pred radarId.

(** The state after the launch. *)
Definition launched : AttackSimulator.Sim :=
  AttackSimulator.launchThreat StressTest.cruise 1 "t1" (L.latLng 0 0) (L.latLng 0 1)
    AttackSimulator.initial.

(** The state after the launch and a frame of 30 ms at speed 1 with the
    units [radarEast] and [battery "i1" 0.033475 true]: the missile is
    detected and bound to "i1", whose shot has flown for three sub-steps. *)
Definition locked : AttackSimulator.Sim :=
  AttackSimulator.mkSim
    [missile AttackSimulator.MOVING 0.000225 (Some "i1") (Some (L.latLng 0 0.025975))
       (Some (L.latLng 0 0.000975)) (Some "r1")]
    [] [AttackSimulator.HyperLock "t1"] (AttackSimulator.mkStats 1 0 0).

(** The state after the next frame, of 300 ms at speed 1, in which the shot
    of "i1" meets the missile. *)
Definition neutralized : AttackSimulator.Sim :=
  AttackSimulator.mkSim
    [missile AttackSimulator.INTERCEPTED 0.000975 (Some "i1") (Some (L.latLng 0 0.025975))
       (Some (L.latLng 0 0.000975)) (Some "r1")]
    [AttackSimulator.mkExplosion (L.latLng 0 0.000975) AttackSimulator.intercept]
    [AttackSimulator.Neutralized "t1"; AttackSimulator.HyperLock "t1"]
    (AttackSimulator.mkStats 1 1 0).

(** The state after the launch and a frame of 30 ms at speed 1 with the
    units [radarEast] and [battery EmptyString 0.0259 true]: every sub-step
    binds the missile to the battery whose id is the empty string. *)
Definition relocked : AttackSimulator.Sim :=
  AttackSimulator.mkSim
    [missile AttackSimulator.MOVING 0.000225 (Some EmptyString) (Some (L.latLng 0 0.0259))
       (Some (L.latLng 0 0.0009)) (Some "r1")]
    []
    [AttackSimulator.HyperLock "t1"; AttackSimulator.HyperLock "t1";
     AttackSimulator.HyperLock "t1"]
    (AttackSimulator.mkStats 1 0 0).

(** The state after the next frame of 30 ms, with [fastBattery] added to the
    units: the missile is bound to "i2" and intercepted by its shot. *)
Definition rebound : AttackSimulator.Sim :=
  AttackSimulator.mkSim
    [missile AttackSimulator.INTERCEPTED 0.0003 (Some "i2") (Some (L.latLng 0 0.00124))
       (Some (L.latLng 0 0.00024)) (Some "r1")]
    [AttackSimulator.mkExplosion (L.latLng 0 0.0003) AttackSimulator.intercept]
    [AttackSimulator.Neutralized "t1"; AttackSimulator.HyperLock "t1";
     AttackSimulator.HyperLock "t1"; AttackSimulator.HyperLock "t1";
     AttackSimulator.HyperLock "t1"]
    (AttackSimulator.mkStats 1 1 0).

End EngagementExamples.

(** * Properties *)

Lemma Qltb_lt (a b : Q) : Qltb a b = true <-> (a < b)%Q.
Proof.
  unfold Qltb. rewrite negb_true_iff.
  split; intro H.
  - apply Qnot_le_lt. intro Hle. apply Qle_bool_iff in Hle. congruence.
  - destruct (Qle_bool b a) eqn:E; [|reflexivity].
    apply Qle_bool_iff in E. exfalso. apply (Qlt_not_le _ _ H E).
Qed.

(** ** Point-in-region *)


Section Toggle.
Context {A : Type} (p : A -> bool).

Lemma toggle_fold (l : list A) (b : bool) :
  fold_left (fun ins a => if p a then negb ins else ins) l b
  = xorb b (Nat.odd (List.length (filter p l))).
Proof.
  revert b. induction l as [|a l IH]; intro b; simpl.
  - now rewrite xorb_false_r.
  - rewrite IH. destruct (p a); simpl; [|reflexivity].
    rewrite Nat.odd_succ, <- Nat.negb_odd.
    destruct b, (Nat.odd _); reflexivity.
Qed.

End Toggle.

Lemma featureStep_parity (lat lng : Q) (inside : bool) (f : Geo.Feature) :
  Geo.featureStep lat lng inside f
  = xorb inside
      (Nat.odd (Geo.ringsContaining lat lng
                  (map Geo.exterior (Geo.polygonsOf (Geo.geometry f))))).
Proof.
  unfold Geo.featureStep, Geo.ringsContaining.
  destruct (Geo.geometry f) as [c|polys|]; simpl.
  - destruct (Geo.checkPolygon lng lat (Geo.exterior c)); simpl;
      destruct inside; reflexivity.
  - rewrite (toggle_fold (fun poly => Geo.checkPolygon lng lat (Geo.exterior poly))).
    f_equal. f_equal.
    induction polys as [|q polys IH]; simpl; [reflexivity|].
    destruct (Geo.checkPolygon lng lat (Geo.exterior q)); simpl; now rewrite IH.
  - now rewrite xorb_false_r.
Qed.

Lemma odd_add_xorb (n m : nat) : Nat.odd (n + m) = xorb (Nat.odd n) (Nat.odd m).
Proof. apply Nat.odd_add. Qed.

Lemma isInside_fold_parity (lat lng : Q) (features : list Geo.Feature) (b : bool) :
  fold_left (Geo.featureStep lat lng) features b
  = xorb b (Nat.odd (Geo.ringsContaining lat lng (Geo.exteriorRings features))).
Proof.
  revert b. induction features as [|f fs IH]; intro b; simpl.
  - now rewrite xorb_false_r.
  - rewrite IH, featureStep_parity.
    unfold Geo.ringsContaining, Geo.exteriorRings. simpl.
    rewrite filter_app, length_app, odd_add_xorb.
    now rewrite xorb_assoc.
Qed.

(** C1, as the code has it: for a region given by its features, the test is
    the parity of the number of EXTERIOR rings (the first ring of each polygon
    of each Polygon or MultiPolygon feature) that contain the point under the
    ray-casting test; hole rings are never read. *)
Theorem isInsideCountry_exterior_parity (lat lng : Q) (features : list Geo.Feature) :
  Geo.isInsideCountry lat lng (Some features)
  = Nat.odd (Geo.ringsContaining lat lng (Geo.exteriorRings features)).
Proof.
  unfold Geo.isInsideCountry. now rewrite isInside_fold_parity.
Qed.

(** C1, the claim as stated fails: the point (5, 5) lies in the exterior ring
    and in the hole ring of [squareWithHole], so two rings contain it, and the
    test still answers [true]. *)
Lemma isInsideCountry_ignores_hole :
  Geo.checkPolygon 5 5 (GeoExamples.square 0 10) = true
  /\ Geo.checkPolygon 5 5 (GeoExamples.square 4 6) = true
  /\ Geo.ringsContaining 5 5 (Geo.allRings GeoExamples.squareWithHole) = 2%nat
  /\ Geo.isInsideCountry 5 5 (Some GeoExamples.squareWithHole) = true.
Proof. vm_compute. repeat split; reflexivity. Qed.

(** The double toggle only happens when the inner ring is the exterior ring
    of a polygon of its own. *)
Example isInsideCountry_nested_polygons :
  Geo.isInsideCountry 5 5 (Some GeoExamples.squareAndIsland) = false
  /\ Geo.isInsideCountry 2 2 (Some GeoExamples.squareAndIsland) = true
  /\ Geo.isInsideCountry 12 2 (Some GeoExamples.squareAndIsland) = false.
Proof. vm_compute. repeat split; reflexivity. Qed.

(** ** Coverage scoring *)

Section ScoresFacts.
Import Scores.

Variable distanceTo : Point -> Point -> Q.
Variables radars interceptors : list System.
Variable geoData : Geo.GeoData.

Lemma hitsAtPoint_covered (p : Point) (systems : list System) :
  (0 <? hitsAtPoint distanceTo p systems)%nat = covered distanceTo systems p.
Proof.
  unfold covered. induction systems as [|s l IH]; simpl; [reflexivity|].
  destruct (inRange distanceTo p s); simpl; [reflexivity|exact IH].
Qed.

Lemma cellStep_pointStep (i j : nat) (c : Counts) :
  cellStep distanceTo radars interceptors geoData i c j
  = pointStep distanceTo radars interceptors geoData c (samplePoint i j).
Proof.
  unfold cellStep, pointStep, isLandPoint.
  now rewrite !hitsAtPoint_covered.
Qed.

Lemma grid_fold_points (rows cols : list nat) (c : Counts) :
  fold_left
    (fun c i => fold_left (cellStep distanceTo radars interceptors geoData i) cols c)
    rows c
  = fold_left (pointStep distanceTo radars interceptors geoData)
      (flat_map (fun i => map (samplePoint i) cols) rows) c.
Proof.
  revert c. induction rows as [|i rows IH]; intro c; simpl; [reflexivity|].
  rewrite fold_left_app, IH. f_equal.
  clear IH. revert c.
  induction cols as [|j cols IH]; intro c; simpl; [reflexivity|].
  now rewrite cellStep_pointStep, IH.
Qed.

Lemma gridCounts_points :
  gridCounts distanceTo radars interceptors geoData
  = fold_left (pointStep distanceTo radars interceptors geoData) gridPoints
      (mkCounts 0 0 0 0 0 0).
Proof. apply grid_fold_points. Qed.

Lemma fold_pointStep_counts (ps : list Point) (c : Counts) :
  let c' := fold_left (pointStep distanceTo radars interceptors geoData) ps c in
  spatialLandCoveredCount c' = (spatialLandCoveredCount c + countIf (landAnd geoData (both distanceTo radars interceptors)) ps)%nat
  /\ radarLandHitsCount c' = (radarLandHitsCount c + countIf (landAnd geoData (covered distanceTo radars)) ps)%nat
  /\ attackLandHitsCount c' = (attackLandHitsCount c + countIf (landAnd geoData (covered distanceTo interceptors)) ps)%nat
  /\ landPointsTotal c' = (landPointsTotal c + countIf (isLandPoint geoData) ps)%nat
  /\ seaPointsTotal c' = (seaPointsTotal c + countIf (fun p => negb (isLandPoint geoData p)) ps)%nat
  /\ combinedSeaHits c' = (combinedSeaHits c + countIf (seaAnd geoData (both distanceTo radars interceptors)) ps)%nat.
Proof.
  revert c. induction ps as [|p ps IH]; intro c; simpl.
  - unfold countIf; simpl. repeat split; lia.
  - specialize (IH (pointStep distanceTo radars interceptors geoData c p)). simpl in IH.
    destruct IH as (H1 & H2 & H3 & H4 & H5 & H6).
    rewrite H1, H2, H3, H4, H5, H6. clear H1 H2 H3 H4 H5 H6.
    unfold countIf, pointStep, landAnd, seaAnd, both; simpl.
    destruct (isLandPoint geoData p); simpl;
      destruct (covered distanceTo radars p); simpl;
      destruct (covered distanceTo interceptors p); simpl;
      repeat split; lia.
Qed.

Lemma countIf_le (f : Point -> bool) (ps : list Point) :
  (countIf f ps <= List.length ps)%nat.
Proof. apply filter_length_le. Qed.

Lemma countIf_and_le (f g : Point -> bool) (ps : list Point) :
  (countIf (fun p => f p && g p) ps <= countIf f ps)%nat.
Proof.
  unfold countIf. induction ps as [|p ps IH]; simpl; [lia|].
  destruct (f p), (g p); simpl; lia.
Qed.

Lemma countIf_filter (f g : Point -> bool) (ps : list Point) :
  countIf (fun p => f p && g p) ps = countIf g (filter f ps).
Proof.
  unfold countIf. induction ps as [|p ps IH]; simpl; [reflexivity|].
  destruct (f p); simpl; [destruct (g p); simpl; now rewrite IH | exact IH].
Qed.

End ScoresFacts.

Lemma ofNat_nonneg (n : nat) : (0 <= Scores.ofNat n)%Q.
Proof.
  unfold Scores.ofNat. change 0%Q with (inject_Z 0). rewrite <- Zle_Qle. lia.
Qed.

Lemma ofNat_le (n m : nat) : (n <= m)%nat -> (Scores.ofNat n <= Scores.ofNat m)%Q.
Proof. intro H. unfold Scores.ofNat. rewrite <- Zle_Qle. lia. Qed.

Lemma ofNat_pos (n : nat) : (0 < n)%nat -> (0 < Scores.ofNat n)%Q.
Proof.
  intro H. unfold Scores.ofNat. change 0%Q with (inject_Z 0). rewrite <- Zlt_Qlt. lia.
Qed.

Lemma ratio_bounds (x y : Q) :
  (0 <= x)%Q -> (x <= y)%Q -> (0 < y)%Q -> (0 <= x / y * 100 /\ x / y * 100 <= 100)%Q.
Proof.
  intros Hx Hxy Hy.
  assert (H0 : (0 <= x / y)%Q) by (apply Qle_shift_div_l; [exact Hy | lra]).
  assert (H1 : (x / y <= 1)%Q) by (apply Qle_shift_div_r; [exact Hy | lra]).
  split; lra.
Qed.

Lemma percent_bounds (count total : nat) :
  (count <= total)%nat ->
  (0 <= Scores.percent count total /\ Scores.percent count total <= 100)%Q.
Proof.
  intro H. unfold Scores.percent.
  destruct (0 <? total)%nat eqn:E.
  - apply Nat.ltb_lt in E.
    apply ratio_bounds; [apply ofNat_nonneg | now apply ofNat_le | now apply ofNat_pos].
  - split; lra.
Qed.

Lemma percent_zero_total (count : nat) : Scores.percent count 0 = 0%Q.
Proof. reflexivity. Qed.

Lemma percentQ_bounds (score total : Q) :
  (0 <= score)%Q -> (score <= total)%Q ->
  (0 <= Scores.percentQ score total /\ Scores.percentQ score total <= 100)%Q.
Proof.
  intros H0 H1. unfold Scores.percentQ.
  destruct (Qgtb total 0) eqn:E.
  - apply Qltb_lt in E. now apply ratio_bounds.
  - split; lra.
Qed.

Lemma percentQ_zero_total (score total : Q) :
  (total <= 0)%Q -> Scores.percentQ score total = 0%Q.
Proof.
  intro H. unfold Scores.percentQ.
  destruct (Qgtb total 0) eqn:E; [|reflexivity].
  apply Qltb_lt in E. lra.
Qed.

(** The weighted sums of the city loop, for any list of cities with
    non-negative weights. *)
Lemma cityTotals_bounds distanceTo (radars interceptors : list Scores.System)
    (cities : list Constants.City) :
  Forall (fun c => (0 <= Constants.weight c)%Q) cities ->
  (0 <= fst (Scores.cityTotals distanceTo radars interceptors cities)
   /\ fst (Scores.cityTotals distanceTo radars interceptors cities)
      <= snd (Scores.cityTotals distanceTo radars interceptors cities))%Q.
Proof.
  unfold Scores.cityTotals.
  assert (G : forall acc : Q * Q,
             (0 <= fst acc /\ fst acc <= snd acc)%Q ->
             Forall (fun c => (0 <= Constants.weight c)%Q) cities ->
             (0 <= fst (fold_left (Scores.cityStep distanceTo radars interceptors) cities acc)
              /\ fst (fold_left (Scores.cityStep distanceTo radars interceptors) cities acc)
                 <= snd (fold_left (Scores.cityStep distanceTo radars interceptors) cities acc))%Q).
  { induction cities as [|c cs IH]; intros acc Hacc Hw; simpl; [exact Hacc|].
    inversion Hw as [|? ? Hc Hcs]; subst.
    apply IH; [|exact Hcs].
    destruct acc as [score total]; simpl in *.
    destruct (existsb _ radars && existsb _ interceptors); simpl; split; lra. }
  intro Hw. apply G; [simpl; split; lra | exact Hw].
Qed.

Lemma CITIES_weights : Forall (fun c => (0 <= Constants.weight c)%Q) Constants.CITIES.
Proof. repeat constructor; simpl; unfold Qle; simpl; lia. Qed.

(** The land counters after the grid loops, in terms of the land sample
    points. *)
Lemma gridCounts_land (distanceTo : Scores.Point -> Scores.Point -> Q)
    (radars interceptors : list Scores.System) (geoData : Geo.GeoData) :
  let c := Scores.gridCounts distanceTo radars interceptors geoData in
  Scores.spatialLandCoveredCount c
  = Scores.countIf (Scores.both distanceTo radars interceptors) (Scores.landPoints geoData)
  /\ Scores.radarLandHitsCount c
     = Scores.countIf (Scores.covered distanceTo radars) (Scores.landPoints geoData)
  /\ Scores.attackLandHitsCount c
     = Scores.countIf (Scores.covered distanceTo interceptors) (Scores.landPoints geoData)
  /\ Scores.landPointsTotal c = List.length (Scores.landPoints geoData).
Proof.
  cbv zeta. rewrite gridCounts_points.
  destruct (fold_pointStep_counts distanceTo radars interceptors geoData
              Scores.gridPoints (Scores.mkCounts 0 0 0 0 0 0))
    as (H1 & H2 & H3 & H4 & _ & _).
  rewrite H1, H2, H3, H4. simpl.
  unfold Scores.landAnd. rewrite !countIf_filter.
  unfold Scores.landPoints, Scores.countIf.
  repeat split; reflexivity.
Qed.

(** C6, as the code has it: over the land sample points, [combinedLand] is the
    percentage covered by a radar and an interceptor, [radarLand] the
    percentage covered by a radar (whether or not an interceptor covers the
    point too) and [attackLand] the percentage covered by an interceptor
    (whether or not a radar covers the point too). *)
Theorem calculateScores_land_metrics (distanceTo : Scores.Point -> Scores.Point -> Q)
    (defenseSystems : list Scores.System) (features : list Geo.Feature) :
  Scores.combinedLand (Scores.calculateScores distanceTo defenseSystems (Some features))
  = Scores.percent
      (Scores.countIf
         (Scores.both distanceTo (Scores.activeRadars defenseSystems)
            (Scores.activeInterceptors defenseSystems))
         (Scores.landPoints (Some features)))
      (List.length (Scores.landPoints (Some features)))
  /\ Scores.radarLand (Scores.calculateScores distanceTo defenseSystems (Some features))
     = Scores.percent
         (Scores.countIf (Scores.covered distanceTo (Scores.activeRadars defenseSystems))
            (Scores.landPoints (Some features)))
         (List.length (Scores.landPoints (Some features)))
  /\ Scores.attackLand (Scores.calculateScores distanceTo defenseSystems (Some features))
     = Scores.percent
         (Scores.countIf (Scores.covered distanceTo (Scores.activeInterceptors defenseSystems))
            (Scores.landPoints (Some features)))
         (List.length (Scores.landPoints (Some features))).
Proof.
  unfold Scores.calculateScores.
  destruct (Scores.cityTotals _ _ _ _) as [score total].
  cbn [Scores.combinedLand Scores.radarLand Scores.attackLand].
  destruct (gridCounts_land distanceTo (Scores.activeRadars defenseSystems)
              (Scores.activeInterceptors defenseSystems) (Some features))
    as (H1 & H2 & H3 & H4).
  rewrite H1, H2, H3, H4.
  repeat split; reflexivity.
Qed.

Lemma countIf_all (f : Scores.Point -> bool) (ps : list Scores.Point) :
  (forall p, f p = true) -> Scores.countIf f ps = List.length ps.
Proof.
  intro H. unfold Scores.countIf.
  induction ps as [|p ps IH]; simpl; [reflexivity|].
  rewrite H. simpl. now rewrite IH.
Qed.

Lemma countIf_none (f : Scores.Point -> bool) (ps : list Scores.Point) :
  (forall p, f p = false) -> Scores.countIf f ps = 0%nat.
Proof.
  intro H. unfold Scores.countIf.
  induction ps as [|p ps IH]; simpl; [reflexivity|].
  rewrite H. exact IH.
Qed.

Lemma fullShield_inRange (distanceTo : Scores.Point -> Scores.Point -> Q)
    (p : Scores.Point) (s : Scores.System) :
  (forall a b, distanceTo a b <= 20100000)%Q ->
  In s ScoresExamples.fullShield -> Scores.inRange distanceTo p s = true.
Proof.
  intros Hd Hs. unfold Scores.inRange. apply Qle_bool_iff.
  assert (Hr : (Types.range s == 25000)%Q).
  { destruct Hs as [<-|[<-|[]]]; reflexivity. }
  rewrite Hr.
  apply Qle_shift_div_r; [reflexivity|].
  eapply Qle_trans; [apply Hd|]. unfold Qle; simpl; lia.
Qed.

Lemma wholeBox_all_land :
  List.length (Scores.landPoints (Some ScoresExamples.wholeBox)) = 3600%nat.
Proof. vm_compute. reflexivity. Qed.

(** C6, the claim as stated fails.  With the layout [fullShield] every sample
    point is covered by the radar and by the interceptor, whatever the
    distance function (bounded by the size of the Earth): no land point is
    covered by the radar only, and [radarLand] is 100, not 0; the same for
    [attackLand].  The second half evaluates the code with [flatDistance]. *)
Lemma radarLand_counts_combined_points :
  (forall distanceTo : Scores.Point -> Scores.Point -> Q,
      (forall a b, distanceTo a b <= 20100000)%Q ->
      (Scores.radarLand
         (Scores.calculateScores distanceTo ScoresExamples.fullShield
            (Some ScoresExamples.wholeBox)) == 100
       /\ Scores.radarOnlyLandPercent distanceTo ScoresExamples.fullShield
            (Some ScoresExamples.wholeBox) == 0
       /\ Scores.attackLand
            (Scores.calculateScores distanceTo ScoresExamples.fullShield
               (Some ScoresExamples.wholeBox)) == 100
       /\ Scores.interceptorOnlyLandPercent distanceTo ScoresExamples.fullShield
            (Some ScoresExamples.wholeBox) == 0)%Q)
  /\ Qeq_bool
       (Scores.radarLand
          (Scores.calculateScores ScoresExamples.flatDistance ScoresExamples.fullShield
             (Some ScoresExamples.wholeBox)))
       (Scores.radarOnlyLandPercent ScoresExamples.flatDistance ScoresExamples.fullShield
          (Some ScoresExamples.wholeBox)) = false
  /\ Qeq_bool
       (Scores.attackLand
          (Scores.calculateScores ScoresExamples.flatDistance ScoresExamples.fullShield
             (Some ScoresExamples.wholeBox)))
       (Scores.interceptorOnlyLandPercent ScoresExamples.flatDistance ScoresExamples.fullShield
          (Some ScoresExamples.wholeBox)) = false.
Proof.
  split; [|split; vm_compute; reflexivity].
  intros distanceTo Hd.
  unfold Scores.calculateScores.
  destruct (Scores.cityTotals _ _ _ _) as [score total].
  cbn [Scores.radarLand Scores.attackLand].
  destruct (gridCounts_land distanceTo (Scores.activeRadars ScoresExamples.fullShield)
              (Scores.activeInterceptors ScoresExamples.fullShield)
              (Some ScoresExamples.wholeBox))
    as (_ & Hr & Ha & Hl).
  rewrite Hr, Ha, Hl.
  unfold Scores.radarOnlyLandPercent, Scores.interceptorOnlyLandPercent.
  assert (HR : forall p, Scores.covered distanceTo
                 (Scores.activeRadars ScoresExamples.fullShield) p = true).
  { intro p. simpl. rewrite (fullShield_inRange distanceTo p); [reflexivity|exact Hd|].
    simpl; auto. }
  assert (HI : forall p, Scores.covered distanceTo
                 (Scores.activeInterceptors ScoresExamples.fullShield) p = true).
  { intro p. simpl. rewrite (fullShield_inRange distanceTo p); [reflexivity|exact Hd|].
    simpl; auto. }
  rewrite (countIf_all _ _ HR), (countIf_all _ _ HI).
  rewrite !countIf_none by (intro p; now rewrite HR, HI).
  rewrite wholeBox_all_land.
  repeat split; vm_compute; reflexivity.
Qed.

Lemma gridCounts_le (distanceTo : Scores.Point -> Scores.Point -> Q)
    (radars interceptors : list Scores.System) (geoData : Geo.GeoData) :
  let c := Scores.gridCounts distanceTo radars interceptors geoData in
  (Scores.spatialLandCoveredCount c <= Scores.landPointsTotal c
   /\ Scores.radarLandHitsCount c <= Scores.landPointsTotal c
   /\ Scores.attackLandHitsCount c <= Scores.landPointsTotal c
   /\ Scores.combinedSeaHits c <= Scores.seaPointsTotal c)%nat.
Proof.
  simpl. rewrite gridCounts_points.
  destruct (fold_pointStep_counts distanceTo radars interceptors geoData
              Scores.gridPoints (Scores.mkCounts 0 0 0 0 0 0))
    as (H1 & H2 & H3 & H4 & H5 & H6).
  rewrite H1, H2, H3, H4, H5, H6. simpl.
  unfold Scores.landAnd, Scores.seaAnd.
  repeat split; apply countIf_and_le.
Qed.

(** C7: every percentage of the coverage result lies in [0, 100], for every
    unit list, distance function and region (or none), and a percentage is
    exactly 0 when its denominator (the number of land points, the total city
    weight, the number of sea points) is 0. *)
Theorem calculateScores_percentages (distanceTo : Scores.Point -> Scores.Point -> Q)
    (defenseSystems : list Scores.System) (geoData : Geo.GeoData) :
  let r := Scores.calculateScores distanceTo defenseSystems geoData in
  let radars := Scores.activeRadars defenseSystems in
  let interceptors := Scores.activeInterceptors defenseSystems in
  let c := Scores.gridCounts distanceTo radars interceptors geoData in
  let totalCityWeight :=
    snd (Scores.cityTotals distanceTo radars interceptors Constants.CITIES) in
  ((0 <= Scores.combinedLand r /\ Scores.combinedLand r <= 100)
   /\ (0 <= Scores.combinedCities r /\ Scores.combinedCities r <= 100)
   /\ (0 <= Scores.combinedSea r /\ Scores.combinedSea r <= 100)
   /\ (0 <= Scores.radarLand r /\ Scores.radarLand r <= 100)
   /\ (0 <= Scores.attackLand r /\ Scores.attackLand r <= 100))%Q
  /\ (Scores.landPointsTotal c = 0%nat ->
      Scores.combinedLand r = 0%Q /\ Scores.radarLand r = 0%Q /\ Scores.attackLand r = 0%Q)
  /\ (Scores.seaPointsTotal c = 0%nat -> Scores.combinedSea r = 0%Q)
  /\ ((totalCityWeight <= 0)%Q -> Scores.combinedCities r = 0%Q).
Proof.
  cbv zeta. unfold Scores.calculateScores.
  destruct geoData as [features|].
  2:{ cbn [Scores.combinedLand Scores.combinedCities Scores.combinedSea
           Scores.radarLand Scores.attackLand].
      repeat split; try reflexivity; lra. }
  destruct (gridCounts_le distanceTo (Scores.activeRadars defenseSystems)
              (Scores.activeInterceptors defenseSystems) (Some features))
    as (L1 & L2 & L3 & L4).
  pose proof (cityTotals_bounds distanceTo (Scores.activeRadars defenseSystems)
                (Scores.activeInterceptors defenseSystems) CITIES_weights) as HC.
  destruct (Scores.cityTotals _ _ _ _) as [score total].
  cbn [Scores.combinedLand Scores.combinedCities Scores.combinedSea
       Scores.radarLand Scores.attackLand fst snd] in *.
  split; [|split; [|split]].
  - repeat split;
      try (apply percent_bounds; assumption);
      try (apply percentQ_bounds; tauto).
  - intro H0. rewrite H0. repeat split; reflexivity.
  - intro H0. rewrite H0. reflexivity.
  - intro H0. now apply percentQ_zero_total.
Qed.

(** The zero-denominator cases occur: a region without features has no land
    point, a region that contains the bounding box no sea point. *)
Example calculateScores_no_land :
  Scores.landPointsTotal
    (Scores.gridCounts ScoresExamples.flatDistance
       (Scores.activeRadars ScoresExamples.fullShield)
       (Scores.activeInterceptors ScoresExamples.fullShield) (Some [])) = 0%nat
  /\ Scores.seaPointsTotal
       (Scores.gridCounts ScoresExamples.flatDistance
          (Scores.activeRadars ScoresExamples.fullShield)
          (Scores.activeInterceptors ScoresExamples.fullShield)
          (Some ScoresExamples.wholeBox)) = 0%nat
  /\ Scores.calculateScores ScoresExamples.flatDistance [] None
     = Scores.mkResult 0 0 0 0 0.
Proof. vm_compute. repeat split; reflexivity. Qed.

(** ** Deployment mutation *)

Lemma clamp_bounds (lo hi x : Q) :
  (lo <= hi)%Q -> (lo <= Qmax lo (Qmin hi x) /\ Qmax lo (Qmin hi x) <= hi)%Q.
Proof.
  intro H. split.
  - apply Q.le_max_l.
  - apply Q.max_lub; [exact H | apply Q.le_min_l].
Qed.

Lemma inBoundsb_iff (sys : Mutation.System) :
  Mutation.inBoundsb sys = true <-> Mutation.inBounds sys.
Proof.
  unfold Mutation.inBoundsb, Mutation.inBounds.
  rewrite !andb_true_iff, !Qle_bool_iff. tauto.
Qed.

Lemma perturb_inBounds (forceHighEntropy : bool) (sys : Mutation.System)
    (draws : nat -> Q) (k : nat) :
  Mutation.inBounds (fst (Mutation.perturb forceHighEntropy sys draws k)).
Proof.
  unfold Mutation.perturb, Random.bind, Random.random, Random.ret, Mutation.inBounds.
  cbn [fst Types.withPosition Types.lat Types.lng].
  repeat split; apply clamp_bounds; unfold Qle; simpl; lia.
Qed.

Lemma relocate_inBounds (sys : Mutation.System) (draws : nat -> Q) (k : nat) :
  Random.unitInterval draws ->
  Mutation.inBounds (fst (Mutation.relocate sys draws k)).
Proof.
  intro H. pose proof (H k) as [H1 H2]. pose proof (H (S k)) as [H3 H4].
  unfold Mutation.relocate, Random.bind, Random.random, Random.ret, Mutation.inBounds.
  cbn [fst Types.withPosition Types.lat Types.lng Constants.SL_BOUNDS
       Constants.minLat Constants.maxLat Constants.minLng Constants.maxLng].
  repeat split; lra.
Qed.

Lemma mutateSystem_mutated (radarSecured forceHighEntropy : bool) (sys : Mutation.System)
    (draws : nat -> Q) (k : nat) :
  Random.unitInterval draws ->
  Mutation.mutated sys (fst (Mutation.mutateSystem radarSecured forceHighEntropy sys draws k)).
Proof.
  intro H. unfold Mutation.mutateSystem.
  destruct (negb forceHighEntropy && radarSecured && _); [left; reflexivity|].
  unfold Random.bind at 1. unfold Random.random at 1.
  destruct (Qgtb (draws k) _); [left; reflexivity|].
  assert (P : forall j, Mutation.mutated sys (fst (Mutation.perturb forceHighEntropy sys draws j))).
  { intro j. right. split; [apply perturb_inBounds|reflexivity]. }
  destruct forceHighEntropy; [|apply P].
  unfold Random.bind at 1. unfold Random.random at 1.
  destruct (Qltb (draws (S k)) _); [|apply P].
  right. split; [now apply relocate_inBounds|reflexivity].
Qed.

Lemma mapM_cons {A B} (f : A -> Random.M B) (x : A) (xs : list A) (draws : nat -> Q) (k : nat) :
  Random.mapM f (x :: xs) draws k
  = let '(y, k') := f x draws k in
    let '(ys, k'') := Random.mapM f xs draws k' in
    (y :: ys, k'').
Proof.
  cbn [Random.mapM]. unfold Random.bind, Random.ret.
  destruct (f x draws k) as [y k']. destruct (Random.mapM f xs draws k'); reflexivity.
Qed.

(** C8, as the code has it: the output layout has the length of the input
    layout, and every output unit is either the input unit at that place,
    unchanged, or that unit moved to a position inside the bounding box; so
    the whole output lies in the box when the whole input does. *)
Theorem mutateDeployment_shape (baseSystems : list Mutation.System) (radarSecured : bool)
    (geoData : Geo.GeoData) (placementStrategy : string) (forceHighEntropy : bool)
    (draws : nat -> Q) (k : nat) :
  Random.unitInterval draws ->
  let out := fst (Mutation.mutateDeployment baseSystems radarSecured geoData
                    placementStrategy forceHighEntropy draws k) in
  List.length out = List.length baseSystems
  /\ Forall2 Mutation.mutated baseSystems out
  /\ (Forall Mutation.inBounds baseSystems -> Forall Mutation.inBounds out).
Proof.
  intro H. cbv zeta. unfold Mutation.mutateDeployment.
  revert k. induction baseSystems as [|sys rest IH]; intro k.
  - simpl. repeat split; auto.
  - rewrite mapM_cons.
    pose proof (mutateSystem_mutated radarSecured forceHighEntropy sys k H) as Hs.
    destruct (Mutation.mutateSystem radarSecured forceHighEntropy sys draws k)
      as [sys' k'].
    specialize (IH k').
    destruct (Random.mapM _ rest draws k') as [out k''].
    cbn [fst Random.ret] in *.
    destruct IH as (IH1 & IH2 & IH3).
    split; [simpl; now rewrite IH1|].
    split; [constructor; assumption|].
    intro Hin. inversion Hin as [|? ? Hsys Hrest]; subst.
    constructor; [|now apply IH3].
    destruct Hs as [->|[Hb _]]; assumption.
Qed.

(** The hypothesis of [mutateDeployment_shape] holds of the draws 0.05, under
    which every unit of a two-unit layout is moved. *)
Lemma mutateDeployment_shape_witness :
  Random.unitInterval (MutationExamples.always 0.05)
  /\ List.length
       (fst (Mutation.mutateDeployment
               [MutationExamples.eastOfBox; MutationExamples.insideBox]
               false None "any" true (MutationExamples.always 0.05) 0%nat))
     = 2%nat.
Proof.
  assert (H : Random.unitInterval (MutationExamples.always 0.05)).
  { intro k. unfold MutationExamples.always. split; unfold Qle, Qlt; simpl; lia. }
  split; [exact H|].
  exact (proj1 (mutateDeployment_shape
                  [MutationExamples.eastOfBox; MutationExamples.insideBox]
                  false None "any" true 0%nat H)).
Defined.

(** C8, the claim as stated fails: a unit outside the bounding box that the
    coin flip leaves alone is returned where it was. *)
Lemma mutateDeployment_keeps_outside_unit :
  fst (Mutation.mutateDeployment [MutationExamples.eastOfBox] false None "any" false
         (MutationExamples.always 0.9) 0%nat)
  = [MutationExamples.eastOfBox]
  /\ Mutation.inBoundsb MutationExamples.eastOfBox = false
  /\ Qle_bool (Types.lng MutationExamples.eastOfBox)
       (Constants.maxLng Constants.SL_BOUNDS) = false.
Proof. vm_compute. repeat split; reflexivity. Qed.

(** ** The stress test *)

Lemma randomIndex_range (n : positive) (draws : nat -> Q) (k : nat) :
  Random.unitInterval draws ->
  (0 <= fst (StressTest.randomIndex (inject_Z (Zpos n)) draws k) < Zpos n)%Z
  /\ snd (StressTest.randomIndex (inject_Z (Zpos n)) draws k) = S k.
Proof.
  intro H. destruct (H k) as [H0 H1].
  unfold StressTest.randomIndex, Random.bind, Random.random, Random.ret.
  cbn [fst snd]. split; [|reflexivity].
  assert (Hn : (0 < inject_Z (Zpos n))%Q) by reflexivity.
  split.
  - change 0%Z with (Qfloor 0). apply Qfloor_resp_le.
    apply Qmult_le_0_compat; [exact H0 | now apply Qlt_le_weak].
  - rewrite Zlt_Qlt.
    eapply Qle_lt_trans; [apply Qfloor_le|].
    setoid_replace (inject_Z (Zpos n)) with (1 * inject_Z (Zpos n))%Q at 2 by ring.
    apply Qmult_lt_compat_r; assumption.
Qed.

Lemma at_in_range {A} (xs : list A) (i : Z) :
  (0 <= i < Z.of_nat (List.length xs))%Z -> exists x, StressTest.at_ xs i = Some x.
Proof.
  intro H. unfold StressTest.at_.
  destruct (i <? 0)%Z eqn:E; [apply Z.ltb_lt in E; lia|].
  destruct (nth_error xs (Z.to_nat i)) eqn:N; [eauto|].
  apply nth_error_None in N. lia.
Qed.

Section StressTestFacts.
Import StressTest.

Variable pointToSegmentDistance : Q * Q -> Q * Q -> Q * Q -> Q.
Variable selectedMissile : MissileType.
Variables activeRadars activeInterceptors : list System.
Variable draws : nat -> Q.
Hypothesis draws_unit : Random.unitInterval draws.

Lemma missileStep_ok (r : nat) (t : Tally) (k : nat) :
  exists t' k',
    missileStep pointToSegmentDistance selectedMissile activeRadars activeInterceptors
      r t draws k = (Some t', k')
    /\ totalLaunched t' = S (totalLaunched t)
    /\ (resolved t -> resolved t').
Proof.
  unfold missileStep.
  unfold Random.bind at 1.
  destruct (randomStart draws k) as [start k1] eqn:Es.
  unfold Random.bind at 1.
  pose proof (randomIndex_range 11 k1 draws_unit) as [Hi Hk].
  change (inject_Z (Z.of_nat (List.length Constants.CITIES))) with (inject_Z 11).
  destruct (randomIndex (inject_Z 11) draws k1) as [cityIndex k2].
  cbn [fst snd] in Hi, Hk.
  destruct (@at_in_range _ Constants.CITIES cityIndex) as [city Hc].
  { change (Z.of_nat (List.length Constants.CITIES)) with 11%Z. exact Hi. }
  rewrite Hc.
  unfold resolved.
  destruct (detects _ _ _ _); [destruct (hits _ _ _ _ _)|];
    unfold Random.ret; eexists; eexists; (split; [reflexivity|]);
    cbn [totalLaunched interceptedCount impactedCount]; split; try reflexivity; lia.
Qed.

Lemma repeatM_missileStep_ok (r n : nat) (t : Tally) (k : nat) :
  exists t' k',
    repeatM (missileStep pointToSegmentDistance selectedMissile activeRadars
               activeInterceptors r) n t draws k = (Some t', k')
    /\ totalLaunched t' = (totalLaunched t + n)%nat
    /\ (resolved t -> resolved t').
Proof.
  revert t k. induction n as [|n IH]; intros t k.
  - exists t, k. cbn. repeat split; auto.
  - cbn [repeatM]. unfold Random.bind.
    destruct (missileStep_ok r t k) as (t1 & k1 & E1 & L1 & R1).
    rewrite E1.
    destruct (IH t1 k1) as (t2 & k2 & E2 & L2 & R2).
    exists t2, k2. split; [exact E2|]. split; [lia | tauto].
Qed.

Lemma roundLoop_ok (missilesPerRound r n : nat) (t : Tally) (k : nat) :
  exists t' k',
    roundLoop pointToSegmentDistance selectedMissile activeRadars activeInterceptors
      missilesPerRound r n t draws k = (Some t', k')
    /\ totalLaunched t' = (totalLaunched t + n * missilesPerRound)%nat
    /\ (resolved t -> resolved t').
Proof.
  revert r t k. induction n as [|n IH]; intros r t k.
  - exists t, k. cbn. repeat split; auto.
  - cbn [roundLoop]. unfold Random.bind.
    destruct (repeatM_missileStep_ok r missilesPerRound t k) as (t1 & k1 & E1 & L1 & R1).
    rewrite E1.
    destruct (IH (S r) t1 k1) as (t2 & k2 & E2 & L2 & R2).
    exists t2, k2. split; [exact E2|]. split; [lia | tauto].
Qed.

End StressTestFacts.

(** C9: for draws in [0, 1), the batch run returns a result, its
    [totalLaunched] is [rounds * missilesPerRound], and its intercepted and
    impacted counts add up to [totalLaunched]. *)
Theorem runBatchTest_totals
    (pointToSegmentDistance : Q * Q -> Q * Q -> Q * Q -> Q)
    (systems : list StressTest.System) (rounds missilesPerRound : nat)
    (selectedMissile : StressTest.MissileType) (draws : nat -> Q) (k : nat) :
  Random.unitInterval draws ->
  exists results k',
    StressTest.runBatchTest pointToSegmentDistance systems rounds missilesPerRound
      selectedMissile draws k = (Some results, k')
    /\ StressTest.r_totalLaunched results = (rounds * missilesPerRound)%nat
    /\ (StressTest.intercepted results + StressTest.impacted results
        = StressTest.r_totalLaunched results)%nat.
Proof.
  intro H. unfold StressTest.runBatchTest, Random.bind.
  destruct (roundLoop_ok pointToSegmentDistance selectedMissile
              (filter (Types.activeWithRole Types.RADAR) systems)
              (filter (Types.activeWithRole Types.INTERCEPTOR) systems)
              H missilesPerRound 0 rounds (StressTest.mkTally 0 0 0 0 []) k)
    as (t & k' & E & L & R).
  rewrite E. unfold Random.ret. eexists; eexists. split; [reflexivity|].
  cbn [StressTest.r_totalLaunched StressTest.intercepted StressTest.impacted].
  split; [exact L|]. apply R. reflexivity.
Qed.

Lemma cycle_unitInterval : Random.unitInterval StressTestExamples.cycle.
Proof.
  intro k. unfold StressTestExamples.cycle.
  pose proof (Nat.mod_upper_bound k 10) as Hk.
  assert (H0 : (0 <= inject_Z (Z.of_nat (k mod 10)))%Q).
  { change 0%Q with (inject_Z 0). rewrite <- Zle_Qle. lia. }
  assert (H1 : (inject_Z (Z.of_nat (k mod 10)) <= 9)%Q).
  { change 9%Q with (inject_Z 9). rewrite <- Zle_Qle. lia. }
  split.
  - apply Qle_trans with (0 / 10 + 0.05)%Q; [unfold Qle; simpl; lia|].
    apply Qplus_le_l. apply Qmult_le_compat_r; [exact H0 | unfold Qle; simpl; lia].
  - apply Qle_lt_trans with (9 / 10 + 0.05)%Q; [|reflexivity].
    apply Qplus_le_l. apply Qmult_le_compat_r; [exact H1 | unfold Qle; simpl; lia].
Qed.

(** The hypothesis of [runBatchTest_totals] holds of the draws [cycle]: two
    rounds of three cruise missiles against the layout [fullShield]. *)
Lemma runBatchTest_totals_witness :
  Random.unitInterval StressTestExamples.cycle
  /\ exists results k',
       StressTest.runBatchTest StressTestExamples.flatSegmentDistance
         ScoresExamples.fullShield 2 3 StressTest.cruise StressTestExamples.cycle 0%nat
       = (Some results, k')
       /\ StressTest.r_totalLaunched results = (2 * 3)%nat
       /\ (StressTest.intercepted results + StressTest.impacted results
           = StressTest.r_totalLaunched results)%nat.
Proof.
  split; [exact cycle_unitInterval|].
  exact (runBatchTest_totals StressTestExamples.flatSegmentDistance
           ScoresExamples.fullShield 2 3 StressTest.cruise 0%nat cycle_unitInterval).
Defined.

Example runBatchTest_run :
  fst (StressTest.runBatchTest StressTestExamples.flatSegmentDistance
         ScoresExamples.fullShield 2 3 StressTest.cruise StressTestExamples.cycle 0%nat)
  = Some (StressTest.mkResults 6 6 0
            (Some (Scores.ofNat 6 / Scores.ofNat 6 * 100)%Q) []).
Proof. vm_compute. reflexivity. Qed.

(** ** The attack simulator *)

Section InterceptFacts.
Import AttackSimulator.
Local Open Scope R_scope.

Lemma atan2_0_pos (x : R) : 0 < x -> atan2 0 x = 0.
Proof.
  intro H. unfold atan2. destruct (Rlt_dec 0 x) as [_|N]; [|contradiction].
  unfold Rdiv. rewrite Rmult_0_l. apply atan_0.
Qed.

Lemma orElse_nonzero (x d : R) : x <> 0 -> orElse x d = x.
Proof. intro H. unfold orElse. destruct (Req_dec_T x 0); [contradiction|reflexivity]. Qed.

Lemma orElse_zero (d : R) : orElse 0 d = d.
Proof. unfold orElse. destruct (Req_dec_T 0 0); [reflexivity|congruence]. Qed.

Lemma velocity_east (threat : Threat) :
  L.lat (target threat) = L.lat (start threat) ->
  L.lng (start threat) < L.lng (target threat) ->
  velocity threat = (speed threat, 0).
Proof.
  intros Hlat Hlng. unfold velocity.
  rewrite Hlat, Rminus_diag, atan2_0_pos by lra.
  rewrite cos_0, sin_0. f_equal; ring.
Qed.

Lemma velocity_still (threat : Threat) : speed threat = 0 -> velocity threat = (0, 0).
Proof. intro H. unfold velocity. rewrite H. f_equal; ring. Qed.

Lemma positionAt_0 (threat : Threat) : positionAt threat 0 = current threat.
Proof.
  unfold positionAt. destruct (velocity threat) as [vx vy].
  destruct (current threat) as [la lo]. simpl. f_equal; ring.
Qed.

Lemma Rltb_true (a b : R) : a < b -> Rltb a b = true.
Proof. intro H. unfold Rltb. destruct (Rlt_dec a b); [reflexivity|contradiction]. Qed.

Lemma Rltb_false (a b : R) : b <= a -> Rltb a b = false.
Proof. intro H. unfold Rltb. destruct (Rlt_dec a b); [lra|reflexivity]. Qed.

Lemma Rleb_true (a b : R) : a <= b -> Rleb a b = true.
Proof. intro H. unfold Rleb. destruct (Rle_dec a b); [reflexivity|contradiction]. Qed.

(** The selected quotient is a root, and the least non-negative one. *)
Lemma selected_root_least (a b dx dy s t : R) (vx vy : R) :
  a <> 0 ->
  b = 2 * (vx * dx + vy * dy) ->
  0 <= s -> s * s = b * b - 4 * a * (dx * dx + dy * dy) ->
  t = (- b - s) / (2 * a) ->
  0 <= t ->
  a * t * t + b * t + (dx * dx + dy * dy) = 0
  /\ forall t', 0 <= t' -> a * t' * t' + b * t' + (dx * dx + dy * dy) = 0 -> t <= t'.
Proof.
  intros Ha Hb Hs Hss Ht Ht0.
  set (c := dx * dx + dy * dy) in *.
  assert (Hc : 0 <= c) by (unfold c; nra).
  assert (H2 : 2 * a * t = - b - s) by (rewrite Ht; field; exact Ha).
  assert (Hroot : a * t * t + b * t + c = 0).
  { assert (H4 : 4 * a * (a * t * t + b * t + c) = 0) by nra.
    apply Rmult_integral in H4. destruct H4 as [H4|H4]; [lra|exact H4]. }
  split; [exact Hroot|].
  intros t' Ht' Hroot'.
  assert (Hsq : (2 * a * t' + b) * (2 * a * t' + b) = s * s) by nra.
  assert (Hcase : 2 * a * t' + b = s \/ 2 * a * t' + b = - s).
  { assert (Hf : (2 * a * t' + b - s) * (2 * a * t' + b + s) = 0) by nra.
    apply Rmult_integral in Hf. destruct Hf; [left|right]; lra. }
  destruct Hcase as [Hp|Hm].
  - (* the other root *)
    assert (Hd : 2 * a * (t' - t) = 2 * s) by nra.
    destruct (Rlt_dec 0 a) as [Hpos|Hneg].
    + destruct (Rle_dec t t') as [|N]; [assumption|]. exfalso. nra.
    + assert (Ha' : a < 0) by lra.
      (* the product of the roots is c / a <= 0 *)
      assert (Hprod : a * (t * t') = c).
      { assert (H4 : 4 * a * (a * (t * t') - c) = 0) by nra.
        apply Rmult_integral in H4. destruct H4; lra. }
      assert (Htt : 0 <= t * t') by nra.
      assert (Hc0 : c = 0) by nra.
      assert (Hdx : dx = 0) by (unfold c in Hc0; nra).
      assert (Hdy : dy = 0) by (unfold c in Hc0; nra).
      assert (Hb0 : b = 0) by (rewrite Hb, Hdx, Hdy; ring).
      assert (Hs0 : s = 0) by nra.
      assert (Hzero : t = 0).
      { assert (2 * a * t = 0) by lra. nra. }
      lra.
  - assert (Heq : 2 * a * (t' - t) = 0) by lra.
    apply Rmult_integral in Heq. destruct Heq; lra.
Qed.

End InterceptFacts.

Section InterceptTheorems.
Import AttackSimulator.
Local Open Scope R_scope.

Lemma coefficients_eq (threat : Threat) (interceptor : System) (Vi vx vy : R) :
  velocity threat = (vx, vy) ->
  coefficients threat interceptor Vi
  = (vx * vx + vy * vy - Vi * Vi,
     2 * (vx * (L.lng (current threat) - Types.lng interceptor)
          + vy * (L.lat (current threat) - Types.lat interceptor)),
     (L.lng (current threat) - Types.lng interceptor)
     * (L.lng (current threat) - Types.lng interceptor)
     + (L.lat (current threat) - Types.lat interceptor)
       * (L.lat (current threat) - Types.lat interceptor)).
Proof. intro H. unfold coefficients. now rewrite H. Qed.

(** C2, as the code has it.  With the shot speed [Vi = shotSpeed || 0.22]
    (0.22 when the interceptor's [shotSpeed] is 0), the coefficients are
    [a = |v|^2 - Vi^2], [b = 2 (v . D)], [c = |D|^2].  A negative discriminant
    gives [null].  When [a] is not 0, a negative selected quotient gives
    [null], and otherwise the result is the threat's straight-line position at
    that quotient, which is a root of the quadratic and its least non-negative
    root.  For a threat of speed 0 at the position of an interceptor with a
    positive shot speed, the time is 0 and the point is the threat's current
    position. *)
Theorem calculateIntercept_solves (threat : Threat) (interceptor : System) :
  let Vi := shotSpeedOf interceptor in
  let a := leading threat interceptor Vi in
  let disc := discriminant threat interceptor Vi in
  let t := selectedRoot threat interceptor Vi in
  (Types.shotSpeed interceptor <> 0 -> Vi = Types.shotSpeed interceptor)
  /\ (Types.shotSpeed interceptor = 0 -> Vi = 0.22)
  /\ (forall vx vy, velocity threat = (vx, vy) ->
      coefficients threat interceptor Vi
      = (vx * vx + vy * vy - Vi * Vi,
         2 * (vx * (L.lng (current threat) - Types.lng interceptor)
              + vy * (L.lat (current threat) - Types.lat interceptor)),
         (L.lng (current threat) - Types.lng interceptor)
         * (L.lng (current threat) - Types.lng interceptor)
         + (L.lat (current threat) - Types.lat interceptor)
           * (L.lat (current threat) - Types.lat interceptor)))
  /\ (disc < 0 -> calculateIntercept threat interceptor = NoIntercept)
  /\ (a <> 0 -> 0 <= disc -> t < 0 ->
      calculateIntercept threat interceptor = NoIntercept)
  /\ (a <> 0 -> 0 <= disc -> 0 <= t ->
      calculateIntercept threat interceptor = InterceptAt (positionAt threat t)
      /\ quadratic threat interceptor Vi t = 0
      /\ forall t', 0 <= t' -> quadratic threat interceptor Vi t' = 0 -> t <= t')
  /\ (speed threat = 0 -> current threat = position interceptor ->
      0 < Types.shotSpeed interceptor ->
      interceptTime threat interceptor = Finite 0
      /\ calculateIntercept threat interceptor = InterceptAt (current threat)).
Proof.
  cbv zeta.
  split; [intro H; now apply orElse_nonzero|].
  split; [intro H; unfold shotSpeedOf; rewrite H; apply orElse_zero|].
  split; [intros vx vy H; now apply coefficients_eq|].
  unfold leading, discriminant, selectedRoot, quadratic, calculateIntercept, interceptTime.
  destruct (velocity threat) as [vx vy] eqn:Ev.
  rewrite (coefficients_eq interceptor (shotSpeedOf interceptor) Ev).
  set (Vi := shotSpeedOf interceptor).
  set (dx := L.lng (current threat) - Types.lng interceptor).
  set (dy := L.lat (current threat) - Types.lat interceptor).
  set (a := vx * vx + vy * vy - Vi * Vi).
  set (b := 2 * (vx * dx + vy * dy)).
  set (c := dx * dx + dy * dy).
  cbn [fst snd].
  split; [|split; [|split]].
  - intro Hd. destruct (Rlt_dec (b * b - 4 * a * c) 0); [reflexivity|contradiction].
  - intros Ha Hd Ht.
    destruct (Rlt_dec (b * b - 4 * a * c) 0); [reflexivity|].
    unfold divide. destruct (Req_dec_T (2 * a) 0) as [E|_]; [exfalso; lra|].
    destruct (Rlt_dec _ 0); [reflexivity|contradiction].
  - intros Ha Hd Ht.
    split.
    + destruct (Rlt_dec (b * b - 4 * a * c) 0); [lra|].
      unfold divide. destruct (Req_dec_T (2 * a) 0) as [E|_]; [exfalso; lra|].
      destruct (Rlt_dec _ 0); [lra|reflexivity].
    + apply (selected_root_least (a := a) (b := b) (dx := dx) (dy := dy)
               (s := sqrt (b * b - 4 * a * c)) (vx := vx) (vy := vy));
        try assumption; try reflexivity.
      * apply sqrt_pos.
      * now apply sqrt_sqrt.
  - intros Hv Hc Hs.
    rewrite (velocity_still threat Hv) in Ev. injection Ev as <- <-.
    assert (Hdx : dx = 0) by (unfold dx; rewrite Hc; simpl; ring).
    assert (Hdy : dy = 0) by (unfold dy; rewrite Hc; simpl; ring).
    assert (HVi : Vi = Types.shotSpeed interceptor)
      by (apply orElse_nonzero; lra).
    assert (Ha : a = - (Vi * Vi)) by (unfold a; ring).
    assert (Hb : b = 0) by (unfold b; rewrite Hdx, Hdy; ring).
    assert (Hc0 : c = 0) by (unfold c; rewrite Hdx, Hdy; ring).
    assert (Hdisc : b * b - 4 * a * c = 0) by (rewrite Hb, Hc0; ring).
    rewrite Hdisc, sqrt_0, Hb.
    assert (Hn : 2 * a <> 0) by (rewrite Ha; nra).
    unfold divide. destruct (Req_dec_T (2 * a) 0) as [E|_]; [contradiction|].
    replace ((- 0 - 0) / (2 * a)) with 0 by (field; lra).
    split; [reflexivity|].
    destruct (Rlt_dec 0 0); [lra|].
    destruct (Rlt_dec 0 0); [lra|].
    now rewrite positionAt_0.
Qed.

End InterceptTheorems.

Section InterceptExamples.
Import AttackSimulator SimulatorExamples.
Local Open Scope R_scope.

Lemma eastbound_velocity (v : R) : velocity (eastbound v) = (v, 0).
Proof. apply velocity_east; simpl; lra. Qed.

Lemma eastbound_coefficients (v d shot Vi : R) :
  coefficients (eastbound v) (interceptorAt d shot) Vi
  = (v * v - Vi * Vi, - (2 * v * d), d * d).
Proof.
  rewrite (coefficients_eq (interceptorAt d shot) Vi (eastbound_velocity v)).
  simpl. f_equal; [f_equal|]; ring.
Qed.

Lemma eastbound_positionAt (v t : R) :
  positionAt (eastbound v) t = L.latLng 0 (v * t).
Proof.
  unfold positionAt. rewrite eastbound_velocity. simpl. f_equal; ring.
Qed.

(** C2, the claim as stated fails for an interceptor whose [shotSpeed] is 0
    (as in the Custom template), here 0.28 degrees ahead of a hypersonic
    threat (speed 0.06): the code solves the quadratic for the shot speed 0.22
    and returns the point (0, 0.06), reached at time 1; every root of the
    quadratic with [a = |v|^2 - shotSpeed^2] gives the point (0, 0.28). *)
Lemma calculateIntercept_zero_shotSpeed :
  calculateIntercept (eastbound 0.06) (interceptorAt 0.28 0) = InterceptAt (L.latLng 0 0.06)
  /\ (forall t,
        quadratic (eastbound 0.06) (interceptorAt 0.28 0)
          (Types.shotSpeed (interceptorAt 0.28 0)) t = 0 ->
        positionAt (eastbound 0.06) t = L.latLng 0 0.28).
Proof.
  split.
  - unfold calculateIntercept, interceptTime, shotSpeedOf.
    cbn [interceptorAt Types.shotSpeed]. rewrite orElse_zero.
    change (Types.mkSystem "i1" 0 0.28 150 Types.INTERCEPTOR 0 (Some true) "Custom")
      with (interceptorAt 0.28 0).
    rewrite eastbound_coefficients.
    replace (- (2 * 0.06 * 0.28) * - (2 * 0.06 * 0.28)
             - 4 * (0.06 * 0.06 - 0.22 * 0.22) * (0.28 * 0.28))
      with (0.1232 * 0.1232) by lra.
    rewrite sqrt_square by lra.
    destruct (Rlt_dec (0.1232 * 0.1232) 0); [lra|].
    unfold divide.
    destruct (Req_dec_T (2 * (0.06 * 0.06 - 0.22 * 0.22)) 0); [lra|].
    replace ((- - (2 * 0.06 * 0.28) - 0.1232) / (2 * (0.06 * 0.06 - 0.22 * 0.22)))
      with 1 by lra.
    destruct (Rlt_dec 1 0); [lra|].
    rewrite eastbound_positionAt. f_equal. f_equal. ring.
  - intros t Ht. unfold quadratic in Ht.
    rewrite eastbound_coefficients in Ht. cbn [interceptorAt Types.shotSpeed] in Ht.
    rewrite eastbound_positionAt. f_equal.
    assert (Hsq : (0.06 * t - 0.28) * (0.06 * t - 0.28) = 0) by lra.
    apply Rmult_integral in Hsq. destruct Hsq; lra.
Qed.

(** When the threat is as fast as the shot, [2 * a] is 0 and the quotient is
    [0 / 0]: the code does not return the meeting point, which exists (the
    threat and the shot meet at time 2). *)
Lemma calculateIntercept_equal_speeds :
  calculateIntercept (eastbound 0.25) (interceptorAt 1 0.25) = NotANumber
  /\ quadratic (eastbound 0.25) (interceptorAt 1 0.25) 0.25 2 = 0.
Proof.
  split.
  - unfold calculateIntercept, interceptTime, shotSpeedOf.
    cbn [interceptorAt Types.shotSpeed]. rewrite orElse_nonzero by lra.
    change (Types.mkSystem "i1" 0 1 150 Types.INTERCEPTOR 0.25 (Some true) "Custom")
      with (interceptorAt 1 0.25).
    rewrite eastbound_coefficients.
    replace (- (2 * 0.25 * 1) * - (2 * 0.25 * 1)
             - 4 * (0.25 * 0.25 - 0.25 * 0.25) * (1 * 1))
      with (0.5 * 0.5) by lra.
    rewrite sqrt_square by lra.
    destruct (Rlt_dec (0.5 * 0.5) 0); [lra|].
    unfold divide.
    destruct (Req_dec_T (2 * (0.25 * 0.25 - 0.25 * 0.25)) 0); [|lra].
    destruct (Rlt_dec (- - (2 * 0.25 * 1) - 0.5) 0); [lra|reflexivity].
  - unfold quadratic. rewrite eastbound_coefficients. lra.
Qed.

(** The hypotheses of the root case of [calculateIntercept_solves] hold of
    the threat [eastbound 0.06] and an interceptor 0.28 degrees ahead with
    the shot speed 0.22: [a] is -0.0448, the discriminant 0.1232^2 and the
    selected quotient 1. *)
Lemma calculateIntercept_solves_witness :
  selectedRoot (eastbound 0.06) (interceptorAt 0.28 0.22)
    (shotSpeedOf (interceptorAt 0.28 0.22)) = 1
  /\ calculateIntercept (eastbound 0.06) (interceptorAt 0.28 0.22)
     = InterceptAt
         (positionAt (eastbound 0.06)
            (selectedRoot (eastbound 0.06) (interceptorAt 0.28 0.22)
               (shotSpeedOf (interceptorAt 0.28 0.22)))).
Proof.
  assert (HV : shotSpeedOf (interceptorAt 0.28 0.22) = 0.22).
  { unfold shotSpeedOf. apply orElse_nonzero. cbn. lra. }
  assert (Ht : selectedRoot (eastbound 0.06) (interceptorAt 0.28 0.22)
                 (shotSpeedOf (interceptorAt 0.28 0.22)) = 1).
  { rewrite HV. unfold selectedRoot. rewrite eastbound_coefficients.
    replace (- (2 * 0.06 * 0.28) * - (2 * 0.06 * 0.28)
             - 4 * (0.06 * 0.06 - 0.22 * 0.22) * (0.28 * 0.28))
      with (0.1232 * 0.1232) by lra.
    rewrite sqrt_square by lra. lra. }
  split; [exact Ht|].
  destruct (calculateIntercept_solves (eastbound 0.06) (interceptorAt 0.28 0.22))
    as (_ & _ & _ & _ & _ & Hroot & _).
  apply Hroot.
  - rewrite HV. unfold leading. rewrite eastbound_coefficients. cbn [fst]. lra.
  - rewrite HV. unfold discriminant. rewrite eastbound_coefficients. lra.
  - rewrite Ht. lra.
Defined.

End InterceptExamples.

Section SimulationFacts.
Import AttackSimulator.
Local Open Scope nat_scope.

Variable distanceTo : LatLng -> LatLng -> R.

Lemma keeps_refl (t : Threat) : keeps t t.
Proof. repeat split; reflexivity. Qed.

Lemma keeps_trans (t1 t2 t3 : Threat) : keeps t1 t2 -> keeps t2 t3 -> keeps t1 t3.
Proof.
  intros (I1 & T1 & B1) (I2 & T2 & B2). repeat split.
  - congruence.
  - intro H. pose proof (T1 H) as E. subst t2. now apply T2.
  - intro H. pose proof (B1 H) as E. rewrite <- E. apply B2. now rewrite E.
Qed.

Lemma kills_app (e1 e2 : list Event) : kills (e1 ++ e2) = kills e1 + kills e2.
Proof. unfold kills. now rewrite filter_app, length_app. Qed.

Lemma hits_app (e1 e2 : list Event) : hits (e1 ++ e2) = hits e1 + hits e2.
Proof. unfold hits. now rewrite filter_app, length_app. Qed.

(** Detection and assignment leave the flight data alone, never touch a
    binding that is set, and report at most a lock. *)
Lemma detectAndAssign_inv (systems : list System) (nextPos : LatLng)
    (threat threat1 : Threat) (events : list Event) :
  detectAndAssign distanceTo systems nextPos threat = Some (threat1, events) ->
  id threat1 = id threat /\ status threat1 = status threat
  /\ current threat1 = current threat /\ target threat1 = target threat
  /\ start threat1 = start threat /\ speed threat1 = speed threat
  /\ (truthy (interceptorId threat) = true ->
      interceptorId threat1 = interceptorId threat
      /\ interceptorPos threat1 = interceptorPos threat
      /\ predictedInterceptPoint threat1 = predictedInterceptPoint threat)
  /\ kills events = 0 /\ hits events = 0.
Proof.
  unfold detectAndAssign.
  destruct (find _ _) as [radar|].
  2:{ intro H. injection H as <- <-. repeat split; reflexivity. }
  cbn [withDetectedBy interceptorId].
  destruct (truthy (interceptorId threat)) eqn:B; cbn [negb].
  { intro H. injection H as <- <-. repeat split; reflexivity. }
  destruct (firstFeasible _ _ _) as [[[interceptor predictedPos]|]|]; intro H;
    try discriminate; injection H as <- <-; repeat split; try reflexivity;
    discriminate.
Qed.

Lemma impactOrMove_inv (currentSpeed : R) (nextPos : LatLng) (threat threat' : Threat)
    (events : list Event) :
  isMoving (status threat) = true ->
  impactOrMove distanceTo currentSpeed nextPos threat = (threat', events) ->
  id threat' = id threat
  /\ interceptorId threat' = interceptorId threat
  /\ moving threat' + kills events + hits events = 1.
Proof.
  intro M. unfold impactOrMove. destruct (Rltb _ _); intro H; injection H as <- <-.
  - repeat split; reflexivity.
  - unfold moving, withCurrent. cbn. rewrite M. repeat split; reflexivity.
Qed.

Lemma resolve_inv (systems : list System) (dt currentSpeed : R) (nextPos : LatLng)
    (threat threat' : Threat) (events : list Event) :
  isMoving (status threat) = true ->
  resolve distanceTo systems dt currentSpeed nextPos threat = (threat', events) ->
  id threat' = id threat
  /\ interceptorId threat' = interceptorId threat
  /\ moving threat' + kills events + hits events = 1.
Proof.
  intro M. unfold resolve.
  destruct (if truthy (interceptorId threat) then interceptorPos threat else None)
    as [ipos|].
  - destruct (Rltb _ _).
    + intro H. injection H as <- <-. repeat split; reflexivity.
    + intro H. apply impactOrMove_inv in H; [|exact M]. exact H.
  - now apply impactOrMove_inv.
Qed.

Lemma stepThreat_inv (systems : list System) (dt currentSpeed : R)
    (threat threat' : Threat) (events : list Event) :
  stepThreat distanceTo systems dt currentSpeed threat = Some (threat', events) ->
  keeps threat threat'
  /\ moving threat' + kills events + hits events = moving threat.
Proof.
  unfold stepThreat. destruct (isMoving (status threat)) eqn:M; cbn [negb].
  2:{ intro H. injection H as <- <-. split; [apply keeps_refl|].
      unfold moving. rewrite M. reflexivity. }
  destruct (detectAndAssign _ _ _ _) as [[threat1 events1]|] eqn:D; [|discriminate].
  apply detectAndAssign_inv in D.
  destruct D as (I1 & S1 & _ & _ & _ & _ & B1 & K1 & H1).
  destruct (resolve _ _ _ _ _ threat1) as [threat2 events2] eqn:Rv.
  apply resolve_inv in Rv; [|now rewrite S1].
  destruct Rv as (I2 & B2 & C2).
  intro H. injection H as <- <-.
  split.
  - repeat split.
    + congruence.
    + intro N. congruence.
    + intro B. rewrite B2. now apply B1.
  - rewrite kills_app, hits_app, K1, H1. unfold moving at 2. rewrite M. cbn. lia.
Qed.

Lemma stepThreat_resolved (systems : list System) (dt currentSpeed : R) (threat : Threat) :
  isMoving (status threat) = false ->
  stepThreat distanceTo systems dt currentSpeed threat = Some (threat, []).
Proof. intro M. unfold stepThreat. now rewrite M. Qed.

Lemma movingCount_cons (t : Threat) (ts : list Threat) :
  movingCount (t :: ts) = moving t + movingCount ts.
Proof. unfold movingCount, moving. simpl. destruct (isMoving (status t)); reflexivity. Qed.

Lemma stepThreats_inv (systems : list System) (dt currentSpeed : R)
    (ts ts' : list Threat) (events : list Event) :
  stepThreats distanceTo systems dt currentSpeed ts = Some (ts', events) ->
  Forall2 keeps ts ts'
  /\ movingCount ts' + kills events + hits events = movingCount ts.
Proof.
  revert ts' events. induction ts as [|t ts IH]; intros ts' events; cbn [stepThreats].
  - intro H. injection H as <- <-. split; [constructor|reflexivity].
  - destruct (stepThreat _ _ _ _ t) as [[t' e1]|] eqn:S1; [|discriminate].
    destruct (stepThreats _ _ _ _ ts) as [[rest' e2]|] eqn:S2; [|discriminate].
    intro H. injection H as <- <-.
    apply stepThreat_inv in S1. destruct S1 as (K1 & C1).
    destruct (IH _ _ eq_refl) as (K2 & C2).
    split; [now constructor|].
    rewrite !movingCount_cons, kills_app, hits_app. lia.
Qed.

Lemma Forall2_keeps_trans (l1 l2 l3 : list Threat) :
  Forall2 keeps l1 l2 -> Forall2 keeps l2 l3 -> Forall2 keeps l1 l3.
Proof.
  intro H. revert l3. induction H as [|a b l1 l2 Hab _ IH]; intros l3 H3.
  - inversion H3. constructor.
  - inversion H3 as [|? c ? l3' Hbc Hrest]; subst.
    constructor; [eapply keeps_trans; eassumption | now apply IH].
Qed.

Lemma Forall2_keeps_refl (l : list Threat) : Forall2 keeps l l.
Proof. induction l; constructor; [apply keeps_refl | assumption]. Qed.

Lemma subSteps_inv (systems : list System) (dt currentSpeed : R) (n : nat)
    (ts ts' : list Threat) (events : list Event) :
  subSteps distanceTo systems dt currentSpeed n ts = Some (ts', events) ->
  Forall2 keeps ts ts'
  /\ movingCount ts' + kills events + hits events = movingCount ts.
Proof.
  revert ts ts' events. induction n as [|n IH]; intros ts ts' events; cbn [subSteps].
  - intro H. injection H as <- <-. split; [apply Forall2_keeps_refl|cbn; lia].
  - destruct (stepThreats _ _ _ _ ts) as [[ts1 e1]|] eqn:S1; [|discriminate].
    destruct (subSteps _ _ _ _ n ts1) as [[ts2 e2]|] eqn:S2; [|discriminate].
    intro H. injection H as <- <-.
    apply stepThreats_inv in S1. destruct S1 as (K1 & C1).
    apply IH in S2. destruct S2 as (K2 & C2).
    split; [eapply Forall2_keeps_trans; eassumption|].
    rewrite kills_app, hits_app. lia.
Qed.

Lemma applyEvents_stats (events : list Event) (sim : Sim) :
  let sim' := fold_left applyEvent events sim in
  launched (stats sim') = launched (stats sim)
  /\ intercepted (stats sim') = intercepted (stats sim) + kills events
  /\ impacted (stats sim') = impacted (stats sim) + hits events.
Proof.
  revert sim. induction events as [|e events IH]; intro sim; cbn [fold_left].
  - cbn. repeat split; lia.
  - destruct (IH (applyEvent sim e)) as (L1 & I1 & P1).
    cbv zeta. rewrite L1, I1, P1.
    change (e :: events) with ([e] ++ events). rewrite kills_app, hits_app.
    destruct e; cbn; repeat split; lia.
Qed.

Lemma updateSimulation_inv (systems : list System) (rawDeltaTime currentSpeed : R)
    (sim sim' : Sim) :
  updateSimulation distanceTo systems rawDeltaTime currentSpeed sim = Some sim' ->
  Forall2 keeps (threats sim) (threats sim')
  /\ (balanced sim -> balanced sim').
Proof.
  unfold updateSimulation.
  destruct (threats sim) as [|t ts] eqn:T.
  { intro H. injection H as <-. rewrite T. split; [constructor|tauto]. }
  destruct (subSteps _ _ _ _ _ _) as [[nextThreats events]|] eqn:S1; [|discriminate].
  intro H. injection H as <-.
  apply subSteps_inv in S1. destruct S1 as (K & C).
  split; [exact K|].
  unfold balanced. cbn [threats stats].
  destruct (applyEvents_stats events sim) as (L1 & I1 & P1).
  rewrite L1, I1, P1, T. lia.
Qed.

Lemma launchThreat_inv attackerType attackerSpeedScale newId start target (sim : Sim) :
  let sim' := launchThreat attackerType attackerSpeedScale newId start target sim in
  (exists new, threats sim' = threats sim ++ [new])
  /\ (balanced sim -> balanced sim').
Proof.
  cbv zeta. unfold launchThreat, balanced. cbn [threats stats launched intercepted impacted].
  split; [eexists; reflexivity|].
  unfold movingCount. rewrite filter_app, length_app. cbn. lia.
Qed.

(** A step keeps every threat where it is in the list, up to [keeps]. *)
Lemma step_keeps (sim sim' : Sim) (i : nat) (threat : Threat) :
  step distanceTo sim sim' ->
  nth_error (threats sim) i = Some threat ->
  exists threat', nth_error (threats sim') i = Some threat' /\ keeps threat threat'.
Proof.
  intros Hs Hn. destruct Hs as [ty sc nid st tg sim|systems raw cs sim sim' Hu].
  - destruct (launchThreat_inv ty sc nid st tg sim) as ((new & E) & _).
    exists threat. rewrite E. split; [|apply keeps_refl].
    rewrite nth_error_app1; [exact Hn|]. apply nth_error_Some. congruence.
  - apply updateSimulation_inv in Hu. destruct Hu as (K & _).
    revert i Hn. induction K as [|a b l l' Hab _ IH]; intros i Hn.
    + destruct i; discriminate.
    + destruct i as [|i]; cbn in *.
      * injection Hn as <-. eauto.
      * now apply IH.
Qed.

Lemma step_balanced (sim sim' : Sim) :
  step distanceTo sim sim' -> balanced sim -> balanced sim'.
Proof.
  intros Hs. destruct Hs as [ty sc nid st tg sim|systems raw cs sim sim' Hu].
  - apply launchThreat_inv.
  - now apply updateSimulation_inv in Hu.
Qed.

End SimulationFacts.

Section SimulationTheorems.
Import AttackSimulator.
Local Open Scope nat_scope.

Variable distanceTo : LatLng -> LatLng -> R.

(** The kill check comes first: a bound threat whose shot comes within the
    kill radius is intercepted at [nextPos], whatever its distance to the
    target. *)
Lemma stepThreat_kill (systems : list System) (dt currentSpeed : R)
    (threat threat1 : Threat) (events : list Event) (ipos : LatLng) :
  isMoving (status threat) = true ->
  detectAndAssign distanceTo systems (nextPosition dt threat) threat
    = Some (threat1, events) ->
  truthy (interceptorId threat1) = true ->
  interceptorPos threat1 = Some ipos ->
  (distanceTo
     (nextInterceptorPosition systems dt (nextPosition dt threat) threat1 ipos)
     (nextPosition dt threat)
   < killRadius currentSpeed threat1)%R ->
  stepThreat distanceTo systems dt currentSpeed threat
  = Some (withStatus threat1 INTERCEPTED (nextPosition dt threat),
          events ++ [Killed (id threat1) (nextPosition dt threat)]).
Proof.
  intros M D B P K. unfold stepThreat. rewrite M. cbn [negb]. rewrite D.
  unfold resolve. rewrite B, P. now rewrite (Rltb_true K).
Qed.

Lemma stepThreat_unbound_impact (systems : list System) (dt currentSpeed : R)
    (threat threat1 : Threat) (events : list Event) :
  isMoving (status threat) = true ->
  detectAndAssign distanceTo systems (nextPosition dt threat) threat
    = Some (threat1, events) ->
  truthy (interceptorId threat1) = false ->
  (distanceTo (nextPosition dt threat) (target threat1) < impactThreshold currentSpeed)%R ->
  stepThreat distanceTo systems dt currentSpeed threat
  = Some (withStatus threat1 IMPACTED (target threat1),
          events ++ [Hit (id threat1) (target threat1)]).
Proof.
  intros M D B K. unfold stepThreat. rewrite M. cbn [negb]. rewrite D.
  unfold resolve. rewrite B. unfold impactOrMove. now rewrite (Rltb_true K).
Qed.

(** C10: within a sub-step the kill check comes before the impact check.  A
    MOVING threat that is bound after detection and assignment and whose
    shot's next position is within the kill radius of the threat's next
    position is marked INTERCEPTED at that position; exactly one kill is
    reported and no impact, whether or not the threat is within the impact
    threshold of its target. *)
Theorem kill_check_before_impact_check (systems : list System) (dt currentSpeed : R)
    (threat threat1 : Threat) (events : list Event) (ipos : LatLng) :
  isMoving (status threat) = true ->
  detectAndAssign distanceTo systems (nextPosition dt threat) threat
    = Some (threat1, events) ->
  truthy (interceptorId threat1) = true ->
  interceptorPos threat1 = Some ipos ->
  (distanceTo
     (nextInterceptorPosition systems dt (nextPosition dt threat) threat1 ipos)
     (nextPosition dt threat)
   < killRadius currentSpeed threat1)%R ->
  exists threat' events',
    stepThreat distanceTo systems dt currentSpeed threat = Some (threat', events')
    /\ status threat' = INTERCEPTED
    /\ current threat' = nextPosition dt threat
    /\ kills events' = 1 /\ hits events' = 0.
Proof.
  intros M D B P K.
  rewrite (stepThreat_kill M D B P K).
  eexists; eexists. split; [reflexivity|].
  apply detectAndAssign_inv in D. destruct D as (_ & _ & _ & _ & _ & _ & _ & K1 & H1).
  rewrite kills_app, hits_app, K1, H1. repeat split; reflexivity.
Qed.

(** X23: once the [interceptorId] of a threat is set to an id that is not
    the empty string, no later launch or frame of the run changes it,
    whatever the systems of the later frames are; the threat keeps its place
    in the list and its id. *)
Theorem interceptor_binding_sticky (sim sim' : Sim) (i : nat) (threat : Threat) :
  run distanceTo sim sim' ->
  nth_error (threats sim) i = Some threat ->
  truthy (interceptorId threat) = true ->
  exists threat',
    nth_error (threats sim') i = Some threat'
    /\ id threat' = id threat
    /\ interceptorId threat' = interceptorId threat.
Proof.
  intros Hrun Hn B. induction Hrun as [sim|sim sim' sim'' _ IH Hs].
  - exists threat. repeat split; assumption.
  - destruct (IH Hn) as (t1 & N1 & I1 & B1).
    destruct (step_keeps i Hs N1) as (t2 & N2 & (I2 & _ & B2)).
    exists t2. split; [exact N2|]. split; [congruence|].
    rewrite B2; [exact B1|]. now rewrite B1.
Qed.

(** C5: in every state of the component the launched counter is the sum of
    the intercepted counter, the impacted counter and the number of MOVING
    threats; a threat that is not MOVING is left as it is by every launch and
    every frame, and by every sub-step, which reports nothing for it. *)
Theorem threat_lifecycle (sim : Sim) :
  reachable distanceTo sim ->
  balanced sim
  /\ (forall sim' i threat,
        step distanceTo sim sim' ->
        nth_error (threats sim) i = Some threat ->
        isMoving (status threat) = false ->
        nth_error (threats sim') i = Some threat)
  /\ (forall systems dt currentSpeed threat,
        In threat (threats sim) ->
        isMoving (status threat) = false ->
        stepThreat distanceTo systems dt currentSpeed threat = Some (threat, [])).
Proof.
  intro Hr. split; [|split].
  - induction Hr as [|sim sim' _ IH Hs|sim _ _].
    + reflexivity.
    + eapply step_balanced; eassumption.
    + reflexivity.
  - intros sim' i threat Hs Hn M.
    destruct (step_keeps i Hs Hn) as (t' & N' & (_ & T & _)).
    now rewrite N', (T M).
  - intros systems dt currentSpeed threat _ M. now apply stepThreat_resolved.
Qed.

End SimulationTheorems.

(** ** Inactive units *)

Lemma filter_active_role {num} (r : Types.SystemRole) (systems : list (Types.DefenseSystem num)) :
  filter (Types.activeWithRole r) (filter (@Types.active num) systems)
  = filter (Types.activeWithRole r) systems.
Proof.
  induction systems as [|s l IH]; simpl; [reflexivity|].
  unfold Types.activeWithRole at 2.
  destruct (Types.active s) eqn:A; simpl.
  - unfold Types.activeWithRole at 1. rewrite A, IH. reflexivity.
  - rewrite andb_false_r. exact IH.
Qed.

(** The shot speed of the unit a threat is bound to depends on the ids and
    the shot speeds of the units alone. *)
Lemma find_shotSpeed (f : string -> bool) (d : R) (g : R -> R)
    (systems systems' : list AttackSimulator.System) :
  map (@Types.id R) systems' = map (@Types.id R) systems ->
  map (@Types.shotSpeed R) systems' = map (@Types.shotSpeed R) systems ->
  match find (fun sys => f (Types.id sys)) systems' with
  | Some i => g (Types.shotSpeed i)
  | None => d
  end
  = match find (fun sys => f (Types.id sys)) systems with
    | Some i => g (Types.shotSpeed i)
    | None => d
    end.
Proof.
  revert systems'. induction systems as [|s l IH]; intros [|s' l'] Hi Hs;
    try discriminate; [reflexivity|].
  cbn [map] in Hi, Hs. injection Hi as Hi1 Hi2. injection Hs as Hs1 Hs2.
  cbn [find]. rewrite Hi1. destruct (f (Types.id s)); [now rewrite Hs1|].
  now apply IH.
Qed.

Lemma nextInterceptorPosition_ids (systems systems' : list AttackSimulator.System)
    (dt : R) (nextPos : AttackSimulator.LatLng) (threat : AttackSimulator.Threat)
    (ipos : AttackSimulator.LatLng) :
  map (@Types.id R) systems' = map (@Types.id R) systems ->
  map (@Types.shotSpeed R) systems' = map (@Types.shotSpeed R) systems ->
  AttackSimulator.nextInterceptorPosition systems' dt nextPos threat ipos
  = AttackSimulator.nextInterceptorPosition systems dt nextPos threat ipos.
Proof.
  intros Hi Hs. unfold AttackSimulator.nextInterceptorPosition. cbv zeta.
  f_equal.
  exact (@find_shotSpeed
           (fun i => match AttackSimulator.interceptorId threat with
                     | Some j => String.eqb i j
                     | None => false
                     end)
           0.22%R (fun v => AttackSimulator.orElse v 0.22%R) systems systems' Hi Hs).
Qed.

(** C3, as the code has it.  Coverage scoring, the batch evaluation and, in a
    sub-step of the simulation, detection and the assignment of an
    interceptor give the same result when the units whose active flag is
    false are removed from the unit list.  The rest of the sub-step (pursuit,
    kill check, impact check and move) reads of the units their ids and shot
    speeds only: it gives the same result for two unit lists that differ in
    the active flags alone.  The shot of a bound threat moves with the shot
    speed [shotSpeed || 0.22] of the first unit that has the bound id, active
    or not, and with 0.22 when no unit has it. *)
Theorem inactive_units_excluded :
  (forall (distanceTo : Scores.Point -> Scores.Point -> Q)
          (defenseSystems : list Scores.System) (geoData : Geo.GeoData),
      Scores.calculateScores distanceTo defenseSystems geoData
      = Scores.calculateScores distanceTo (filter (@Types.active Q) defenseSystems) geoData)
  /\ (forall (pointToSegmentDistance : Q * Q -> Q * Q -> Q * Q -> Q)
             (systems : list StressTest.System) (rounds missilesPerRound : nat)
             (selectedMissile : StressTest.MissileType) (draws : nat -> Q) (k : nat),
         StressTest.runBatchTest pointToSegmentDistance systems rounds missilesPerRound
           selectedMissile draws k
         = StressTest.runBatchTest pointToSegmentDistance (filter (@Types.active Q) systems)
             rounds missilesPerRound selectedMissile draws k)
  /\ (forall (distanceTo : AttackSimulator.LatLng -> AttackSimulator.LatLng -> R)
             (systems : list AttackSimulator.System) (nextPos : AttackSimulator.LatLng)
             (threat : AttackSimulator.Threat),
         AttackSimulator.detectAndAssign distanceTo systems nextPos threat
         = AttackSimulator.detectAndAssign distanceTo (filter (@Types.active R) systems)
             nextPos threat)
  /\ (forall (distanceTo : AttackSimulator.LatLng -> AttackSimulator.LatLng -> R)
             (systems systems' : list AttackSimulator.System) (dt currentSpeed : R)
             (nextPos : AttackSimulator.LatLng) (threat : AttackSimulator.Threat),
         map (@Types.id R) systems' = map (@Types.id R) systems ->
         map (@Types.shotSpeed R) systems' = map (@Types.shotSpeed R) systems ->
         AttackSimulator.resolve distanceTo systems' dt currentSpeed nextPos threat
         = AttackSimulator.resolve distanceTo systems dt currentSpeed nextPos threat)
  /\ (forall (systems : list AttackSimulator.System) (dt : R)
             (nextPos ipos : AttackSimulator.LatLng) (threat : AttackSimulator.Threat)
             (unitId : string),
         AttackSimulator.interceptorId threat = Some unitId ->
         let targetGoal :=
           match AttackSimulator.predictedInterceptPoint threat with
           | Some p => p
           | None => nextPos
           end in
         AttackSimulator.nextInterceptorPosition systems dt nextPos threat ipos
         = AttackSimulator.advance ipos
             (L.lat targetGoal - L.lat ipos)%R (L.lng targetGoal - L.lng ipos)%R
             match find (fun sys => String.eqb (Types.id sys) unitId) systems with
             | Some unit => AttackSimulator.orElse (Types.shotSpeed unit) 0.22%R
             | None => 0.22%R
             end
             dt).
Proof.
  split; [|split; [|split; [|split]]].
  - intros. unfold Scores.calculateScores, Scores.activeRadars, Scores.activeInterceptors.
    now rewrite !filter_active_role.
  - intros. unfold StressTest.runBatchTest. now rewrite !filter_active_role.
  - intros. unfold AttackSimulator.detectAndAssign. now rewrite !filter_active_role.
  - intros distanceTo systems systems' dt currentSpeed nextPos threat Hi Hs.
    unfold AttackSimulator.resolve.
    destruct (if AttackSimulator.truthy (AttackSimulator.interceptorId threat)
              then AttackSimulator.interceptorPos threat else None) as [ipos|];
      [|reflexivity].
    now rewrite (@nextInterceptorPosition_ids systems systems' dt nextPos threat ipos Hi Hs).
  - intros systems dt nextPos ipos threat unitId B. cbv zeta.
    unfold AttackSimulator.nextInterceptorPosition. now rewrite B.
Qed.

Section SimulationExamples.
Import AttackSimulator SimulatorExamples.
Local Open Scope R_scope.

Lemma advance_east (from : LatLng) (dLat dLng v dt : R) :
  dLat = 0 -> 0 < dLng ->
  advance from dLat dLng v dt = L.latLng (L.lat from) (L.lng from + v * dt).
Proof.
  intros -> H. unfold advance. rewrite atan2_0_pos by exact H.
  rewrite sin_0, cos_0. f_equal; ring.
Qed.

Lemma earthDistance_same (p q : LatLng) :
  L.lat p = L.lat q -> L.lng p = L.lng q -> earthDistance p q = 0.
Proof.
  intros Hlat Hlng. unfold earthDistance. rewrite Hlat, Hlng.
  replace ((L.lat q - L.lat q) * (PI / 180) / 2) with 0 by (unfold Rdiv; ring).
  replace ((L.lng q - L.lng q) * (PI / 180) / 2) with 0 by (unfold Rdiv; ring).
  rewrite sin_0.
  replace (0 * 0 + cos (L.lat q * (PI / 180)) * cos (L.lat q * (PI / 180)) * 0 * 0)
    with 0 by ring.
  rewrite Rminus_0_r, sqrt_0, sqrt_1, atan2_0_pos by lra. ring.
Qed.

Lemma pursued_nextPosition (cur ipos dt : R) :
  nextPosition dt (pursued cur ipos) = L.latLng 0 (cur + 0.0075 * dt).
Proof.
  unfold nextPosition. cbn [pursued target start current speed L.lat L.lng].
  rewrite advance_east by lra. reflexivity.
Qed.

(** The next position of the shot, for a unit list in which the first unit
    with the id "i1" has the shot speed [shot]. *)
Lemma pursued_nextInterceptorPosition (on : bool) (cur ipos dt : R) (nextPos : LatLng) :
  ipos < 1 ->
  nextInterceptorPosition [barak on] dt nextPos (pursued cur ipos) (L.latLng 0 ipos)
  = L.latLng 0 (ipos + 0.25 * dt).
Proof.
  intro H. unfold nextInterceptorPosition.
  cbn [pursued predictedInterceptPoint interceptorId find barak Types.id String.eqb
       Ascii.eqb Bool.eqb Types.shotSpeed L.lat L.lng].
  rewrite orElse_nonzero by lra.
  rewrite advance_east by lra. reflexivity.
Qed.

Lemma pursued_detectAndAssign (on : bool) (distanceTo : LatLng -> LatLng -> R)
    (nextPos : LatLng) (threat : Threat) :
  detectAndAssign distanceTo [barak on] nextPos threat = Some (threat, []).
Proof. reflexivity. Qed.

Lemma killRadius_pursued (cur ipos : R) : 0 < killRadius 1 (pursued cur ipos).
Proof.
  unfold killRadius. rewrite Rltb_false by lra.
  cbn [pursued speed]. lra.
Qed.

Lemma substepCount_1 : substepCount 1 = 3%nat.
Proof.
  unfold substepCount, ceil.
  rewrite <- (Int_part_spec (- (1 * 2.5)) (-3)); [reflexivity|].
  split; lra.
Qed.

Lemma impactThreshold_1 : impactThreshold 1 = 600.
Proof. unfold impactThreshold. rewrite Rltb_false by lra. ring. Qed.

(** A frame of 30 ms at speed 1 without any unit: the threat of [shortHop]
    reaches its target in the first sub-step. *)
Lemma shortHop_frame :
  updateSimulation earthDistance [] 0.03 1 shortHop
  = Some (mkSim
            [shortHopThreat IMPACTED (L.latLng 0 0.000075)]
            [mkExplosion (L.latLng 0 0.000075) impact]
            [ImpactLog "t1"]
            (mkStats 1 0 1)).
Proof.
  unfold updateSimulation. rewrite substepCount_1.
  replace (0.03 * 1 / INR 3) with 0.01 by (simpl; lra).
  cbn [shortHop launchThreat initial threats app subSteps stepThreats].
  change (mkThreat "t1" (L.latLng 0 0) (L.latLng 0 0.000075) (L.latLng 0 0) MOVING
            (BASE_THREAT_SPEED * speedMod StressTest.cruise * 1)
            (typeId StressTest.cruise) None None None None)
    with (shortHopThreat MOVING (L.latLng 0 0)).
  rewrite (@stepThreat_unbound_impact earthDistance [] 0.01 1
             (shortHopThreat MOVING (L.latLng 0 0))
             (shortHopThreat MOVING (L.latLng 0 0)) []); try reflexivity.
  unfold nextPosition, shortHopThreat.
  cbn [current target start speed L.lat L.lng].
  rewrite advance_east by lra.
  rewrite earthDistance_same, impactThreshold_1;
    [lra|reflexivity|unfold BASE_THREAT_SPEED; cbn; lra].
Qed.

(** The hypotheses of [kill_check_before_impact_check] hold, together with
    the impact condition: the threat's next position is its target, and the
    threat is marked INTERCEPTED. *)
Lemma kill_check_before_impact_check_witness :
  Rltb (earthDistance (nextPosition 1 (pursued 0.9925 0.75))
          (target (pursued 0.9925 0.75)))
       (impactThreshold 1) = true
  /\ exists threat' events',
       stepThreat earthDistance [barak true] 1 1 (pursued 0.9925 0.75)
       = Some (threat', events')
       /\ status threat' = INTERCEPTED
       /\ current threat' = nextPosition 1 (pursued 0.9925 0.75)
       /\ kills events' = 1%nat /\ hits events' = 0%nat.
Proof.
  split.
  - rewrite pursued_nextPosition, impactThreshold_1.
    rewrite earthDistance_same by (cbn; lra).
    apply Rltb_true. lra.
  - apply (@kill_check_before_impact_check earthDistance [barak true] 1 1
              (pursued 0.9925 0.75) (pursued 0.9925 0.75) [] (L.latLng 0 0.75));
      try reflexivity.
    rewrite pursued_nextInterceptorPosition by lra.
    rewrite pursued_nextPosition.
    rewrite earthDistance_same by (cbn; lra).
    apply killRadius_pursued.
Defined.

(** The hypothesis of [threat_lifecycle] holds of the state after a launch
    and a frame in which the threat reaches its target. *)
Lemma threat_lifecycle_witness :
  balanced
    (mkSim
       [shortHopThreat IMPACTED (L.latLng 0 0.000075)]
       [mkExplosion (L.latLng 0 0.000075) impact]
       [ImpactLog "t1"]
       (mkStats 1 0 1)).
Proof.
  refine (proj1 (@threat_lifecycle earthDistance _ _)).
  eapply reachable_step.
  - eapply reachable_step; [apply reachable_initial|].
    apply (step_launch earthDistance StressTest.cruise 1 "t1" (L.latLng 0 0)
             (L.latLng 0 0.000075) initial).
  - eapply step_frame. exact shortHop_frame.
Defined.

End SimulationExamples.

(** * Further properties *)

(** ** The ray-casting test *)

Lemma Qltb_compat (a b c : Q) : (b == c)%Q -> Qltb a b = Qltb a c.
Proof.
  intro E. destruct (Qltb a b) eqn:B, (Qltb a c) eqn:C; try reflexivity.
  - apply Qltb_lt in B. rewrite E in B. apply Qltb_lt in B. congruence.
  - apply Qltb_lt in C. rewrite <- E in C. apply Qltb_lt in C. congruence.
Qed.

Lemma Qltb_ge (a b : Q) : Qltb a b = false <-> (b <= a)%Q.
Proof.
  unfold Qltb. rewrite negb_false_iff. apply Qle_bool_iff.
Qed.

(** An edge between two vertices of one latitude is never crossed. *)
Lemma intersect_level (x y xi xj yy : Q) : Geo.intersect x y (xi, yy) (xj, yy) = false.
Proof.
  unfold Geo.intersect. destruct (Qgtb yy y); reflexivity.
Qed.

(** A vertical edge at [xe] is crossed by the ray of the points left of it
    between its ends (the lower end included, the upper one not). *)
Lemma intersect_vertical (x y xe ya yb : Q) :
  Geo.intersect x y (xe, ya) (xe, yb)
  = negb (Bool.eqb (Qgtb ya y) (Qgtb yb y)) && Qltb x xe.
Proof.
  unfold Geo.intersect.
  destruct (negb (Bool.eqb (Qgtb ya y) (Qgtb yb y))); [|reflexivity].
  cbn [andb]. apply Qltb_compat.
  unfold Qminus. setoid_replace (xe + - xe)%Q with 0%Q by ring.
  unfold Qdiv. ring.
Qed.

(** X1: the test on an axis-parallel rectangle.  A point is inside iff it is
    in the rectangle with the left and the bottom edge included and the right
    and the top edge excluded. *)
Theorem checkPolygon_rectangle (x y x0 y0 x1 y1 : Q) :
  (x0 < x1)%Q -> (y0 < y1)%Q ->
  (Geo.checkPolygon x y (GeoShapes.rectangle x0 y0 x1 y1) = true
   <-> (x0 <= x /\ x < x1 /\ y0 <= y /\ y < y1)%Q).
Proof.
  intros Hx Hy. unfold Geo.checkPolygon, GeoShapes.rectangle.
  cbn [last Geo.checkPolygonLoop].
  rewrite !intersect_level, !intersect_vertical.
  destruct (Qgtb y1 y) eqn:A1, (Qgtb y0 y) eqn:A0;
    destruct (Qltb x x1) eqn:B1, (Qltb x x0) eqn:B0; cbn;
    unfold Qgtb in *;
    repeat match goal with
      | H : Qltb _ _ = true |- _ => apply Qltb_lt in H
      | H : Qltb _ _ = false |- _ => apply Qltb_ge in H
      end;
    split; intro H; try discriminate; try reflexivity;
    try (repeat split; lra); try (exfalso; lra).
Qed.

(** The hypotheses hold of the 10 x 10 square and its centre. *)
Lemma checkPolygon_rectangle_witness :
  Geo.checkPolygon 5 5 (GeoShapes.rectangle 0 0 10 10) = true.
Proof.
  apply (proj2 (@checkPolygon_rectangle 5 5 0 0 10 10 eq_refl eq_refl)).
  repeat split; unfold Qle, Qlt; simpl; lia.
Defined.

(** ** Coverage scoring *)

Lemma gridPoints_length : List.length Scores.gridPoints = 3600%nat.
Proof. vm_compute. reflexivity. Qed.

Lemma countIf_split (f : Scores.Point -> bool) (ps : list Scores.Point) :
  (Scores.countIf f ps + Scores.countIf (fun p => negb (f p)) ps = List.length ps)%nat.
Proof.
  unfold Scores.countIf. induction ps as [|p ps IH]; simpl; [reflexivity|].
  destruct (f p); simpl; lia.
Qed.

(** X2: every one of the 60 x 60 sample points is counted once, as land or
    as sea, whatever the units and the region are. *)
Theorem gridCounts_total (distanceTo : Scores.Point -> Scores.Point -> Q)
    (radars interceptors : list Scores.System) (geoData : Geo.GeoData) :
  (Scores.landPointsTotal (Scores.gridCounts distanceTo radars interceptors geoData)
   + Scores.seaPointsTotal (Scores.gridCounts distanceTo radars interceptors geoData)
   = 3600)%nat.
Proof.
  rewrite gridCounts_points.
  destruct (fold_pointStep_counts distanceTo radars interceptors geoData
              Scores.gridPoints (Scores.mkCounts 0 0 0 0 0 0))
    as (_ & _ & _ & H4 & H5 & _).
  rewrite H4, H5. cbn [Scores.landPointsTotal Scores.seaPointsTotal plus].
  rewrite countIf_split. apply gridPoints_length.
Qed.

(** X3: the loop with [break] that counts the hits at a point finds a hit iff
    some unit of the list has the point within its range; an empty list never
    covers a point, and the counter never exceeds 1. *)
Theorem hitsAtPoint_iff (distanceTo : Scores.Point -> Scores.Point -> Q)
    (p : Scores.Point) (systems : list Scores.System) :
  ((0 < Scores.hitsAtPoint distanceTo p systems)%nat
   <-> exists sys, In sys systems
                   /\ (distanceTo p (L.latLng (Types.lat sys) (Types.lng sys)) / 1000
                       <= Types.range sys)%Q)
  /\ (Scores.hitsAtPoint distanceTo p systems <= 1)%nat
  /\ Scores.hitsAtPoint distanceTo p [] = 0%nat.
Proof.
  split; [|split; [|reflexivity]].
  - rewrite <- Nat.ltb_lt, hitsAtPoint_covered. unfold Scores.covered.
    rewrite existsb_exists. unfold Scores.inRange.
    split; intros (sys & Hin & H); exists sys; (split; [exact Hin|]);
      now apply Qle_bool_iff.
  - induction systems as [|s l IH]; simpl; [lia|].
    destruct (Scores.inRange distanceTo p s); [lia|exact IH].
Qed.

Lemma percent_mono (c1 c2 total : nat) :
  (c1 <= c2)%nat -> (Scores.percent c1 total <= Scores.percent c2 total)%Q.
Proof.
  intro H. unfold Scores.percent. destruct (0 <? total)%nat eqn:E; [|lra].
  apply Nat.ltb_lt in E. pose proof (ofNat_pos E) as Hp.
  pose proof (ofNat_le H) as Hle.
  apply Qmult_le_compat_r; [|lra].
  unfold Qdiv. apply Qmult_le_compat_r; [exact Hle|].
  apply Qlt_le_weak, Qinv_lt_0_compat, Hp.
Qed.

Lemma percentQ_mono (s1 s2 total : Q) :
  (s1 <= s2)%Q -> (Scores.percentQ s1 total <= Scores.percentQ s2 total)%Q.
Proof.
  intro H. unfold Scores.percentQ. destruct (Qgtb total 0) eqn:E; [|lra].
  apply Qltb_lt in E.
  apply Qmult_le_compat_r; [|lra].
  unfold Qdiv. apply Qmult_le_compat_r; [exact H|].
  apply Qlt_le_weak, Qinv_lt_0_compat, E.
Qed.

Lemma countIf_mono (f g : Scores.Point -> bool) (ps : list Scores.Point) :
  (forall p, f p = true -> g p = true) ->
  (Scores.countIf f ps <= Scores.countIf g ps)%nat.
Proof.
  intro H. unfold Scores.countIf. induction ps as [|p ps IH]; simpl; [lia|].
  destruct (f p) eqn:F.
  - rewrite (H p F). simpl. lia.
  - destruct (g p); simpl; lia.
Qed.

Section ScoresMore.
Import Scores.

Variable distanceTo : Point -> Point -> Q.

(** The result for a region, in terms of the sample points. *)
Lemma calculateScores_counts (defenseSystems : list System) (features : list Geo.Feature) :
  let geo := Some features in
  let radars := activeRadars defenseSystems in
  let interceptors := activeInterceptors defenseSystems in
  let land := countIf (isLandPoint geo) gridPoints in
  let sea := countIf (fun p => negb (isLandPoint geo p)) gridPoints in
  let ct := cityTotals distanceTo radars interceptors Constants.CITIES in
  calculateScores distanceTo defenseSystems geo
  = mkResult
      (percent (countIf (landAnd geo (both distanceTo radars interceptors)) gridPoints) land)
      (percentQ (fst ct) (snd ct))
      (percent (countIf (seaAnd geo (both distanceTo radars interceptors)) gridPoints) sea)
      (percent (countIf (landAnd geo (covered distanceTo radars)) gridPoints) land)
      (percent (countIf (landAnd geo (covered distanceTo interceptors)) gridPoints) land).
Proof.
  cbv zeta. unfold calculateScores.
  destruct (cityTotals _ _ _ _) as [score total]. cbn [fst snd].
  rewrite gridCounts_points.
  destruct (fold_pointStep_counts distanceTo (activeRadars defenseSystems)
              (activeInterceptors defenseSystems) (Some features)
              gridPoints (mkCounts 0 0 0 0 0 0))
    as (H1 & H2 & H3 & H4 & H5 & H6).
  rewrite H1, H2, H3, H4, H5, H6. reflexivity.
Qed.

(** The total weight of the city loop does not depend on the units. *)
Lemma cityTotals_snd (radars interceptors radars' interceptors' : list System)
    (cities : list Constants.City) :
  snd (cityTotals distanceTo radars interceptors cities)
  = snd (cityTotals distanceTo radars' interceptors' cities).
Proof.
  unfold cityTotals.
  assert (G : forall acc acc' : Q * Q, snd acc = snd acc' ->
            snd (fold_left (cityStep distanceTo radars interceptors) cities acc)
            = snd (fold_left (cityStep distanceTo radars' interceptors') cities acc')).
  { induction cities as [|c cs IH]; intros acc acc' E; simpl; [exact E|].
    apply IH. destruct acc as [s t], acc' as [s' t']. simpl in *. now rewrite E. }
  now apply G.
Qed.

(** The covered weight grows with the sets of covered points. *)
Lemma cityTotals_fst_mono (radars interceptors radars' interceptors' : list System)
    (cities : list Constants.City) :
  Forall (fun c => (0 <= Constants.weight c)%Q) cities ->
  (forall p, covered distanceTo radars p = true -> covered distanceTo radars' p = true) ->
  (forall p, covered distanceTo interceptors p = true ->
             covered distanceTo interceptors' p = true) ->
  (fst (cityTotals distanceTo radars interceptors cities)
   <= fst (cityTotals distanceTo radars' interceptors' cities))%Q.
Proof.
  intros Hw HR HI. unfold cityTotals.
  assert (G : forall acc acc' : Q * Q, (fst acc <= fst acc')%Q ->
            (fst (fold_left (cityStep distanceTo radars interceptors) cities acc)
             <= fst (fold_left (cityStep distanceTo radars' interceptors') cities acc'))%Q).
  { induction Hw as [|c cs Hc _ IH]; intros acc acc' E; simpl; [exact E|].
    apply IH. destruct acc as [s t], acc' as [s' t']. simpl in *.
    fold (covered distanceTo radars {| L.lat := Constants.lat c; L.lng := Constants.lng c |}).
    fold (covered distanceTo interceptors
            {| L.lat := Constants.lat c; L.lng := Constants.lng c |}).
    fold (covered distanceTo radars' {| L.lat := Constants.lat c; L.lng := Constants.lng c |}).
    fold (covered distanceTo interceptors'
            {| L.lat := Constants.lat c; L.lng := Constants.lng c |}).
    destruct (covered distanceTo radars _) eqn:A; cbn [andb].
    - destruct (covered distanceTo interceptors _) eqn:B.
      + rewrite (HR _ A), (HI _ B). simpl. lra.
      + destruct (covered distanceTo radars' _ && covered distanceTo interceptors' _);
          simpl; lra.
    - destruct (covered distanceTo radars' _ && covered distanceTo interceptors' _);
        simpl; lra. }
  apply G. simpl. lra.
Qed.

Lemma covered_incl (l l' : list System) (p : Point) :
  incl l l' -> covered distanceTo l p = true -> covered distanceTo l' p = true.
Proof.
  intros Hi H. unfold covered in *. apply existsb_exists in H.
  destruct H as (s & Hs & Hr). apply existsb_exists. exists s. split; [now apply Hi|exact Hr].
Qed.

Lemma filter_incl (f : System -> bool) (l l' : list System) :
  incl l l' -> incl (filter f l) (filter f l').
Proof.
  intros Hi s Hs. apply filter_In in Hs. apply filter_In. split; [apply Hi|]; tauto.
Qed.

End ScoresMore.

(** X4: the combined land coverage never exceeds the radar coverage or the
    interceptor coverage of the land. *)
Theorem combinedLand_le (distanceTo : Scores.Point -> Scores.Point -> Q)
    (defenseSystems : list Scores.System) (geoData : Geo.GeoData) :
  (Scores.combinedLand (Scores.calculateScores distanceTo defenseSystems geoData)
   <= Scores.radarLand (Scores.calculateScores distanceTo defenseSystems geoData))%Q
  /\ (Scores.combinedLand (Scores.calculateScores distanceTo defenseSystems geoData)
      <= Scores.attackLand (Scores.calculateScores distanceTo defenseSystems geoData))%Q.
Proof.
  destruct geoData as [features|]; [|split; apply Qle_refl].
  rewrite calculateScores_counts.
  cbn [Scores.combinedLand Scores.radarLand Scores.attackLand].
  split; apply percent_mono, countIf_mono; intro p;
    unfold Scores.landAnd, Scores.both; rewrite !andb_true_iff; tauto.
Qed.

(** X5: a combined shield needs both kinds of unit.  Without an active radar
    or without an active interceptor the three combined metrics are 0. *)
Theorem combined_needs_both (distanceTo : Scores.Point -> Scores.Point -> Q)
    (defenseSystems : list Scores.System) (geoData : Geo.GeoData) :
  Scores.activeRadars defenseSystems = [] \/ Scores.activeInterceptors defenseSystems = [] ->
  (Scores.combinedLand (Scores.calculateScores distanceTo defenseSystems geoData) == 0
   /\ Scores.combinedCities (Scores.calculateScores distanceTo defenseSystems geoData) == 0
   /\ Scores.combinedSea (Scores.calculateScores distanceTo defenseSystems geoData) == 0)%Q.
Proof.
  intro H. destruct geoData as [features|]; [|repeat split; reflexivity].
  rewrite calculateScores_counts.
  cbn [Scores.combinedLand Scores.combinedCities Scores.combinedSea].
  assert (Hb : forall p, Scores.both distanceTo (Scores.activeRadars defenseSystems)
                           (Scores.activeInterceptors defenseSystems) p = false).
  { intro p. unfold Scores.both. destruct H as [-> | ->]; simpl;
      [reflexivity | apply andb_false_r]. }
  assert (Hz : forall t, (Scores.percent 0 t == 0)%Q).
  { intro t. unfold Scores.percent. destruct (0 <? t)%nat; [|reflexivity].
    unfold Scores.ofNat. simpl. unfold Qdiv. ring. }
  split; [|split].
  - rewrite countIf_none; [apply Hz|].
    intro p. unfold Scores.landAnd. rewrite Hb. apply andb_false_r.
  - assert (Hs : fst (Scores.cityTotals distanceTo (Scores.activeRadars defenseSystems)
                        (Scores.activeInterceptors defenseSystems) Constants.CITIES) = 0%Q).
    { unfold Scores.cityTotals.
      assert (G : forall cities t,
                fst (fold_left (Scores.cityStep distanceTo
                                  (Scores.activeRadars defenseSystems)
                                  (Scores.activeInterceptors defenseSystems))
                       cities (0%Q, t)) = 0%Q).
      { induction cities as [|c cs IH]; intro t; cbn [fold_left]; [reflexivity|].
        assert (Hstep : Scores.cityStep distanceTo (Scores.activeRadars defenseSystems)
                          (Scores.activeInterceptors defenseSystems) (0%Q, t) c
                        = (0%Q, (t + Constants.weight c)%Q)).
        { unfold Scores.cityStep.
          pose proof (Hb {| L.lat := Constants.lat c; L.lng := Constants.lng c |}) as Hq.
          unfold Scores.both, Scores.covered in Hq. now rewrite Hq. }
        rewrite Hstep. apply IH. }
      apply G. }
    rewrite Hs. unfold Scores.percentQ. destruct (Qgtb _ 0); [|reflexivity].
    unfold Qdiv. ring.
  - rewrite countIf_none; [apply Hz|].
    intro p. unfold Scores.seaAnd. rewrite Hb. apply andb_false_r.
Qed.

(** The hypothesis holds of a layout with radars only. *)
Lemma combined_needs_both_witness :
  (Scores.combinedLand
     (Scores.calculateScores ScoresExamples.flatDistance
        [Types.mkSystem "r1" 7.9 80.7 500 Types.RADAR 0 None "JY-27"]
        (Some ScoresExamples.wholeBox)) == 0
   /\ Scores.combinedCities
        (Scores.calculateScores ScoresExamples.flatDistance
           [Types.mkSystem "r1" 7.9 80.7 500 Types.RADAR 0 None "JY-27"]
           (Some ScoresExamples.wholeBox)) == 0
   /\ Scores.combinedSea
        (Scores.calculateScores ScoresExamples.flatDistance
           [Types.mkSystem "r1" 7.9 80.7 500 Types.RADAR 0 None "JY-27"]
           (Some ScoresExamples.wholeBox)) == 0)%Q.
Proof.
  apply (@combined_needs_both ScoresExamples.flatDistance
           [Types.mkSystem "r1" 7.9 80.7 500 Types.RADAR 0 None "JY-27"]
           (Some ScoresExamples.wholeBox)).
  right. reflexivity.
Defined.

(** X6: units only add coverage.  When every unit of a layout is also in a
    second layout, none of the five metrics is lower for the second. *)
Theorem calculateScores_monotone (distanceTo : Scores.Point -> Scores.Point -> Q)
    (systems systems' : list Scores.System) (geoData : Geo.GeoData) :
  incl systems systems' ->
  (Scores.combinedLand (Scores.calculateScores distanceTo systems geoData)
   <= Scores.combinedLand (Scores.calculateScores distanceTo systems' geoData)
   /\ Scores.combinedCities (Scores.calculateScores distanceTo systems geoData)
      <= Scores.combinedCities (Scores.calculateScores distanceTo systems' geoData)
   /\ Scores.combinedSea (Scores.calculateScores distanceTo systems geoData)
      <= Scores.combinedSea (Scores.calculateScores distanceTo systems' geoData)
   /\ Scores.radarLand (Scores.calculateScores distanceTo systems geoData)
      <= Scores.radarLand (Scores.calculateScores distanceTo systems' geoData)
   /\ Scores.attackLand (Scores.calculateScores distanceTo systems geoData)
      <= Scores.attackLand (Scores.calculateScores distanceTo systems' geoData))%Q.
Proof.
  intro Hi. destruct geoData as [features|]; [|repeat split; apply Qle_refl].
  rewrite !calculateScores_counts.
  cbn [Scores.combinedLand Scores.combinedCities Scores.combinedSea
       Scores.radarLand Scores.attackLand].
  assert (HR : forall p, Scores.covered distanceTo (Scores.activeRadars systems) p = true ->
                         Scores.covered distanceTo (Scores.activeRadars systems') p = true).
  { intro p. apply covered_incl. now apply filter_incl. }
  assert (HI : forall p, Scores.covered distanceTo (Scores.activeInterceptors systems) p = true ->
                         Scores.covered distanceTo (Scores.activeInterceptors systems') p = true).
  { intro p. apply covered_incl. now apply filter_incl. }
  repeat split.
  - apply percent_mono, countIf_mono. intro p.
    unfold Scores.landAnd, Scores.both. rewrite !andb_true_iff.
    intros (A & B & C). auto.
  - rewrite (cityTotals_snd distanceTo (Scores.activeRadars systems)
               (Scores.activeInterceptors systems) (Scores.activeRadars systems')
               (Scores.activeInterceptors systems') Constants.CITIES).
    apply percentQ_mono, cityTotals_fst_mono; [apply CITIES_weights|exact HR|exact HI].
  - apply percent_mono, countIf_mono. intro p.
    unfold Scores.seaAnd, Scores.both. rewrite !andb_true_iff.
    intros (A & B & C). auto.
  - apply percent_mono, countIf_mono. intro p.
    unfold Scores.landAnd. rewrite !andb_true_iff. intros (A & B). auto.
  - apply percent_mono, countIf_mono. intro p.
    unfold Scores.landAnd. rewrite !andb_true_iff. intros (A & B). auto.
Qed.

(** The hypothesis holds of a radar and the layout [fullShield] that
    contains it. *)
Lemma calculateScores_monotone_witness :
  (Scores.radarLand
     (Scores.calculateScores ScoresExamples.flatDistance
        [Types.mkSystem "r1" 7.9 80.7 25000 Types.RADAR 0 None "JY-27"]
        (Some ScoresExamples.wholeBox))
   <= Scores.radarLand
        (Scores.calculateScores ScoresExamples.flatDistance ScoresExamples.fullShield
           (Some ScoresExamples.wholeBox)))%Q.
Proof.
  refine (proj1 (proj2 (proj2 (proj2
    (@calculateScores_monotone ScoresExamples.flatDistance
       [Types.mkSystem "r1" 7.9 80.7 25000 Types.RADAR 0 None "JY-27"]
       ScoresExamples.fullShield (Some ScoresExamples.wholeBox) _))))).
  intros s [<-|[]]. left. reflexivity.
Defined.

(** ** Deployment mutation *)

(** X7: with [radarSecured] set and low entropy, every radar of the layout is
    returned as it is. *)
Theorem mutateDeployment_secured_radars (baseSystems : list Mutation.System)
    (geoData : Geo.GeoData) (placementStrategy : string) (draws : nat -> Q) (k : nat) :
  Forall2 (fun sys sys' => Types.role sys = Types.RADAR -> sys' = sys)
    baseSystems
    (fst (Mutation.mutateDeployment baseSystems true geoData placementStrategy false
            draws k)).
Proof.
  unfold Mutation.mutateDeployment. revert k.
  induction baseSystems as [|sys rest IH]; intro k; [constructor|].
  rewrite mapM_cons.
  destruct (Mutation.mutateSystem true false sys draws k) as [sys' k'] eqn:E.
  specialize (IH k').
  destruct (Random.mapM _ rest draws k') as [out k'']. cbn [fst] in *.
  constructor; [|exact IH].
  intro Hr. unfold Mutation.mutateSystem in E. rewrite Hr in E. cbn in E.
  now injection E as <- _.
Qed.

(** X8: when every draw is above the mutation chance of the mode (0.25, or
    0.45 with forced high entropy), the layout is returned unchanged. *)
Theorem mutateDeployment_no_mutation (baseSystems : list Mutation.System)
    (radarSecured : bool) (geoData : Geo.GeoData) (placementStrategy : string)
    (forceHighEntropy : bool) (draws : nat -> Q) (k : nat) :
  (forall j, (MutationBounds.mutationChance forceHighEntropy < draws j)%Q) ->
  fst (Mutation.mutateDeployment baseSystems radarSecured geoData placementStrategy
         forceHighEntropy draws k)
  = baseSystems.
Proof.
  intro H. unfold Mutation.mutateDeployment. revert k.
  induction baseSystems as [|sys rest IH]; intro k; [reflexivity|].
  rewrite mapM_cons.
  assert (E : fst (Mutation.mutateSystem radarSecured forceHighEntropy sys draws k) = sys).
  { unfold Mutation.mutateSystem.
    destruct (negb forceHighEntropy && radarSecured && _); [reflexivity|].
    unfold Random.bind at 1. unfold Random.random at 1.
    specialize (H k). unfold MutationBounds.mutationChance in H.
    unfold Qgtb. apply Qltb_lt in H. rewrite H. reflexivity. }
  destruct (Mutation.mutateSystem radarSecured forceHighEntropy sys draws k) as [sys' k'].
  specialize (IH k').
  destruct (Random.mapM _ rest draws k') as [out k'']. cbn [fst] in *.
  now rewrite E, IH.
Qed.

(** The hypothesis holds of the draws 0.9. *)
Lemma mutateDeployment_no_mutation_witness :
  fst (Mutation.mutateDeployment
         [MutationExamples.eastOfBox; MutationExamples.insideBox]
         false None "any" true (MutationExamples.always 0.9) 0%nat)
  = [MutationExamples.eastOfBox; MutationExamples.insideBox].
Proof.
  apply (@mutateDeployment_no_mutation
           [MutationExamples.eastOfBox; MutationExamples.insideBox]
           false None "any" true (MutationExamples.always 0.9) 0%nat).
  intro j. reflexivity.
Defined.

Lemma clamp_closer (lo hi v c h : Q) :
  (lo <= c)%Q -> (c <= hi)%Q -> (- h <= v - c)%Q -> (v - c <= h)%Q ->
  (Qabs (Qmax lo (Qmin hi v) - c) <= h)%Q.
Proof.
  intros H1 H2 H3 H4. apply Qabs_Qle_condition.
  destruct (Q.min_spec hi v) as [[A E]|[A E]];
    destruct (Q.max_spec lo (Qmin hi v)) as [[B F]|[B F]];
    rewrite F; try rewrite E; rewrite ?E in B; split; lra.
Qed.

Lemma perturb_near (sys : Mutation.System) (draws : nat -> Q) (k : nat) :
  Random.unitInterval draws -> Mutation.inBounds sys ->
  MutationBounds.near sys (fst (Mutation.perturb false sys draws k)).
Proof.
  intros H (B1 & B2 & B3 & B4).
  destruct (H k) as [H1 H2]. destruct (H (S k)) as [H3 H4].
  unfold Mutation.perturb, Random.bind, Random.random, Random.ret, MutationBounds.near,
    MutationBounds.maxStep.
  cbn [fst Types.withPosition Types.lat Types.lng].
  destruct (Types.role_eqb (Types.role sys) Types.RADAR);
    split; apply clamp_closer; try assumption; lra.
Qed.

Lemma near_refl (sys : Mutation.System) : MutationBounds.near sys sys.
Proof.
  unfold MutationBounds.near, MutationBounds.maxStep.
  assert (E : forall x : Q, (Qabs (x - x) == 0)%Q).
  { intro x. setoid_replace (x - x)%Q with 0%Q by ring. reflexivity. }
  rewrite !E. destruct (Types.role_eqb _ _); split; unfold Qle; simpl; lia.
Qed.

(** X9: in low-entropy mode a unit inside the bounding box moves by at most
    half its move amount in each coordinate: 0.75 degrees for a radar, 0.225
    degrees for an interceptor. *)
Theorem mutateDeployment_small_steps (baseSystems : list Mutation.System)
    (radarSecured : bool) (geoData : Geo.GeoData) (placementStrategy : string)
    (draws : nat -> Q) (k : nat) :
  Random.unitInterval draws ->
  Forall2 (fun sys sys' => Mutation.inBounds sys -> MutationBounds.near sys sys')
    baseSystems
    (fst (Mutation.mutateDeployment baseSystems radarSecured geoData placementStrategy
            false draws k)).
Proof.
  intro H. unfold Mutation.mutateDeployment. revert k.
  induction baseSystems as [|sys rest IH]; intro k; [constructor|].
  rewrite mapM_cons.
  assert (E : Mutation.inBounds sys ->
              MutationBounds.near sys
                (fst (Mutation.mutateSystem radarSecured false sys draws k))).
  { intro Hb. unfold Mutation.mutateSystem.
    destruct (negb false && radarSecured && _); [apply near_refl|].
    unfold Random.bind at 1. unfold Random.random at 1.
    destruct (Qgtb (draws k) _); [apply near_refl|].
    now apply perturb_near. }
  destruct (Mutation.mutateSystem radarSecured false sys draws k) as [sys' k'].
  specialize (IH k').
  destruct (Random.mapM _ rest draws k') as [out k'']. cbn [fst] in *.
  constructor; assumption.
Qed.

(** The hypothesis holds of the draws 0.05, which move the radar [insideBox]
    by 0.675 degrees. *)
Lemma mutateDeployment_small_steps_witness :
  Forall2 (fun sys sys' => Mutation.inBounds sys -> MutationBounds.near sys sys')
    [MutationExamples.insideBox]
    (fst (Mutation.mutateDeployment [MutationExamples.insideBox] false None "any" false
            (MutationExamples.always 0.05) 0%nat)).
Proof.
  apply (@mutateDeployment_small_steps [MutationExamples.insideBox] false None "any"
           (MutationExamples.always 0.05) 0%nat).
  intro j. unfold MutationExamples.always. split; unfold Qle, Qlt; simpl; lia.
Defined.

(** ** The stress test *)

Section StressTestMore.
Import StressTest.

Variable pointToSegmentDistance : Q * Q -> Q * Q -> Q * Q -> Q.
Variable selectedMissile : MissileType.
Variables activeRadars activeInterceptors : list System.
Variable draws : nat -> Q.
Hypothesis draws_unit : Random.unitInterval draws.

Lemma randomStart_draws (k : nat) : snd (randomStart draws k) = S (S k).
Proof. reflexivity. Qed.

(** One trial: three draws, one launch, and one of three outcomes. *)
Lemma missileStep_cases (r : nat) (t : Tally) (k : nat) :
  exists t',
    missileStep pointToSegmentDistance selectedMissile activeRadars activeInterceptors
      r t draws k = (Some t', S (S (S k)))
    /\ totalLaunched t' = S (totalLaunched t)
    /\ ((interceptedCount t' = S (interceptedCount t)
         /\ impactedCount t' = impactedCount t
         /\ detectedCount t' = S (detectedCount t)
         /\ activeRadars <> [] /\ activeInterceptors <> [])
        \/ (interceptedCount t' = interceptedCount t
            /\ impactedCount t' = S (impactedCount t)
            /\ (detectedCount t' = S (detectedCount t) \/ detectedCount t' = detectedCount t))).
Proof.
  unfold missileStep.
  unfold Random.bind at 1.
  pose proof (randomStart_draws k) as Hs.
  destruct (randomStart draws k) as [start k1]. cbn [snd] in Hs. subst k1.
  unfold Random.bind at 1.
  pose proof (randomIndex_range 11 (S (S k)) draws_unit) as [Hi Hk].
  change (inject_Z (Z.of_nat (List.length Constants.CITIES))) with (inject_Z 11).
  destruct (randomIndex (inject_Z 11) draws (S (S k))) as [cityIndex k2].
  cbn [fst snd] in Hi, Hk. subst k2.
  destruct (@at_in_range _ Constants.CITIES cityIndex) as [city Hc].
  { change (Z.of_nat (List.length Constants.CITIES)) with 11%Z. exact Hi. }
  rewrite Hc.
  destruct (detects _ activeRadars _ _) eqn:D.
  - destruct (hits _ _ activeInterceptors _ _) eqn:Hh.
    + eexists. split; [reflexivity|]. split; [reflexivity|]. left.
      repeat split; try reflexivity.
      * intros ->. discriminate.
      * intros ->. discriminate.
    + eexists. split; [reflexivity|]. split; [reflexivity|]. right.
      repeat split; try reflexivity. left. reflexivity.
  - eexists. split; [reflexivity|]. split; [reflexivity|]. right.
    repeat split; try reflexivity. right. reflexivity.
Qed.

(** An invariant of the trial is an invariant of the two loops. *)
Lemma repeatM_invariant (Inv : Tally -> nat -> Prop) (r n : nat) (t : Tally) (k : nat) :
  (forall r t k t' k',
      missileStep pointToSegmentDistance selectedMissile activeRadars activeInterceptors
        r t draws k = (Some t', k') -> Inv t k -> Inv t' k') ->
  Inv t k ->
  forall t' k',
    repeatM (missileStep pointToSegmentDistance selectedMissile activeRadars
               activeInterceptors r) n t draws k = (Some t', k') ->
    Inv t' k'.
Proof.
  intros Hstep. revert t k. induction n as [|n IH]; intros t k Hi t' k'.
  - cbn. intro E. injection E as <- <-. exact Hi.
  - cbn [repeatM]. unfold Random.bind.
    destruct (missileStep _ _ _ _ r t draws k) as [[t1|] k1] eqn:E1.
    + intro E. eapply IH; [|exact E]. eapply Hstep; eassumption.
    + cbn. discriminate.
Qed.

Lemma roundLoop_invariant (Inv : Tally -> nat -> Prop) (missilesPerRound r n : nat)
    (t : Tally) (k : nat) :
  (forall r t k t' k',
      missileStep pointToSegmentDistance selectedMissile activeRadars activeInterceptors
        r t draws k = (Some t', k') -> Inv t k -> Inv t' k') ->
  Inv t k ->
  forall t' k',
    roundLoop pointToSegmentDistance selectedMissile activeRadars activeInterceptors
      missilesPerRound r n t draws k = (Some t', k') ->
    Inv t' k'.
Proof.
  intros Hstep. revert r t k. induction n as [|n IH]; intros r t k Hi t' k'.
  - cbn. intro E. injection E as <- <-. exact Hi.
  - cbn [roundLoop]. unfold Random.bind.
    destruct (repeatM _ missilesPerRound t draws k) as [[t1|] k1] eqn:E1.
    + intro E. eapply IH; [|exact E].
      eapply repeatM_invariant; [exact Hstep|exact Hi|exact E1].
    + cbn. discriminate.
Qed.

Lemma missileStep_consistent (k0 r : nat) (t : Tally) (k : nat) (t' : Tally) (k' : nat) :
  missileStep pointToSegmentDistance selectedMissile activeRadars activeInterceptors
    r t draws k = (Some t', k') ->
  StressTestBounds.consistent k0 t k -> StressTestBounds.consistent k0 t' k'.
Proof.
  intros E (A & B & C).
  destruct (missileStep_cases r t k) as (t1 & E1 & L & Hc).
  rewrite E1 in E. injection E as <- <-.
  unfold StressTestBounds.consistent.
  destruct Hc as [(I & _ & D & _)|(I & _ & [D|D])]; rewrite I, D, L; repeat split; lia.
Qed.

Lemma missileStep_no_intercept (r : nat) (t : Tally) (k : nat) (t' : Tally) (k' : nat) :
  activeRadars = [] \/ activeInterceptors = [] ->
  missileStep pointToSegmentDistance selectedMissile activeRadars activeInterceptors
    r t draws k = (Some t', k') ->
  interceptedCount t = 0%nat -> interceptedCount t' = 0%nat.
Proof.
  intros Hn E Hz.
  destruct (missileStep_cases r t k) as (t1 & E1 & L & Hc).
  rewrite E1 in E. injection E as <- <-.
  destruct Hc as [(_ & _ & _ & NR & NI)|(I & _)]; [|congruence].
  destruct Hn; contradiction.
Qed.

End StressTestMore.

(** X10: for draws in [0, 1) a batch run reads exactly three draws per
    missile and keeps at most 20 log lines.  When a missile is launched, the
    detection rate is a number of [0, 100] and the intercept rate does not
    exceed it; with no launch (0 rounds or 0 missiles per round) the detection
    rate is 0 / 0, not a number. *)
Theorem runBatchTest_rates
    (pointToSegmentDistance : Q * Q -> Q * Q -> Q * Q -> Q)
    (systems : list StressTest.System) (rounds missilesPerRound : nat)
    (selectedMissile : StressTest.MissileType) (draws : nat -> Q) (k : nat) :
  Random.unitInterval draws ->
  exists results,
    StressTest.runBatchTest pointToSegmentDistance systems rounds missilesPerRound
      selectedMissile draws k
    = (Some results, (k + 3 * (rounds * missilesPerRound))%nat)
    /\ (List.length (StressTest.logs results) <= 20)%nat
    /\ ((0 < rounds * missilesPerRound)%nat ->
        exists rate,
          StressTest.detectionRate results = Some rate
          /\ (0 <= rate /\ rate <= 100
              /\ StressTestBounds.interceptRate results <= rate)%Q)
    /\ ((rounds * missilesPerRound = 0)%nat -> StressTest.detectionRate results = None).
Proof.
  intro H. unfold StressTest.runBatchTest, Random.bind.
  set (radars := filter (Types.activeWithRole Types.RADAR) systems).
  set (interceptors := filter (Types.activeWithRole Types.INTERCEPTOR) systems).
  destruct (roundLoop_ok pointToSegmentDistance selectedMissile radars interceptors
              H missilesPerRound 0 rounds (StressTest.mkTally 0 0 0 0 []) k)
    as (t & k' & E & L & _).
  assert (C : StressTestBounds.consistent k t k').
  { eapply (@roundLoop_invariant _ _ _ _ _ (StressTestBounds.consistent k));
      [| |exact E].
    - intros r0 t0 k0 t1 k1. apply missileStep_consistent. exact H.
    - unfold StressTestBounds.consistent. cbn. repeat split; lia. }
  destruct C as (A & B & ->).
  cbn [StressTest.totalLaunched] in L. rewrite Nat.add_0_l in L. rewrite L in *.
  rewrite E. unfold Random.ret.
  eexists. split; [reflexivity|].
  cbn [StressTest.logs StressTest.detectionRate]. rewrite L.
  split; [apply firstn_le_length|]. split.
  - intro Hpos.
    destruct (rounds * missilesPerRound =? 0)%nat eqn:Z; [apply Nat.eqb_eq in Z; lia|].
    eexists. split; [reflexivity|].
    pose proof (ofNat_pos Hpos) as Hp.
    destruct (ratio_bounds (ofNat_nonneg (StressTest.detectedCount t)) (ofNat_le B) Hp)
      as [R0 R1].
    split; [exact R0|]. split; [exact R1|].
    unfold StressTestBounds.interceptRate.
    cbn [StressTest.intercepted StressTest.r_totalLaunched]. rewrite ?L.
    apply Qmult_le_compat_r; [|lra].
    unfold Qdiv. apply Qmult_le_compat_r; [now apply ofNat_le|].
    apply Qlt_le_weak, Qinv_lt_0_compat, Hp.
  - intros ->. reflexivity.
Qed.

(** The hypothesis holds of the draws [cycle]. *)
Lemma runBatchTest_rates_witness :
  exists results,
    StressTest.runBatchTest StressTestExamples.flatSegmentDistance
      ScoresExamples.fullShield 2 3 StressTest.cruise StressTestExamples.cycle 0%nat
    = (Some results, (0 + 3 * (2 * 3))%nat)
    /\ (List.length (StressTest.logs results) <= 20)%nat
    /\ ((0 < 2 * 3)%nat ->
        exists rate,
          StressTest.detectionRate results = Some rate
          /\ (0 <= rate /\ rate <= 100
              /\ StressTestBounds.interceptRate results <= rate)%Q)
    /\ ((2 * 3 = 0)%nat -> StressTest.detectionRate results = None).
Proof.
  exact (@runBatchTest_rates StressTestExamples.flatSegmentDistance
           ScoresExamples.fullShield 2 3 StressTest.cruise StressTestExamples.cycle 0%nat
           cycle_unitInterval).
Defined.

(** X11: without an active radar, or without an active interceptor, a batch
    run intercepts nothing: every missile is counted as impacted. *)
Theorem runBatchTest_undefended
    (pointToSegmentDistance : Q * Q -> Q * Q -> Q * Q -> Q)
    (systems : list StressTest.System) (rounds missilesPerRound : nat)
    (selectedMissile : StressTest.MissileType) (draws : nat -> Q) (k : nat) :
  Random.unitInterval draws ->
  filter (Types.activeWithRole Types.RADAR) systems = []
  \/ filter (Types.activeWithRole Types.INTERCEPTOR) systems = [] ->
  exists results k',
    StressTest.runBatchTest pointToSegmentDistance systems rounds missilesPerRound
      selectedMissile draws k = (Some results, k')
    /\ StressTest.intercepted results = 0%nat
    /\ StressTest.impacted results = (rounds * missilesPerRound)%nat.
Proof.
  intros H Hn. unfold StressTest.runBatchTest, Random.bind.
  set (radars := filter (Types.activeWithRole Types.RADAR) systems) in *.
  set (interceptors := filter (Types.activeWithRole Types.INTERCEPTOR) systems) in *.
  destruct (roundLoop_ok pointToSegmentDistance selectedMissile radars interceptors
              H missilesPerRound 0 rounds (StressTest.mkTally 0 0 0 0 []) k)
    as (t & k' & E & L & R).
  assert (Z : StressTest.interceptedCount t = 0%nat).
  { eapply (@roundLoop_invariant _ _ _ _ _
              (fun t _ => StressTest.interceptedCount t = 0%nat));
      [| |exact E].
    - intros r0 t0 k0 t1 k1. now apply missileStep_no_intercept.
    - reflexivity. }
  rewrite E. unfold Random.ret. eexists; eexists. split; [reflexivity|].
  cbn [StressTest.intercepted StressTest.impacted].
  split; [exact Z|].
  specialize (R eq_refl). unfold StressTest.resolved in R.
  cbn [StressTest.totalLaunched] in L. lia.
Qed.

(** The hypotheses hold of the draws [cycle] and a layout with one radar. *)
Lemma runBatchTest_undefended_witness :
  exists results k',
    StressTest.runBatchTest StressTestExamples.flatSegmentDistance
      [Types.mkSystem "r1" 7.9 80.7 500 Types.RADAR 0 None "JY-27"]
      2 3 StressTest.cruise StressTestExamples.cycle 0%nat = (Some results, k')
    /\ StressTest.intercepted results = 0%nat
    /\ StressTest.impacted results = (2 * 3)%nat.
Proof.
  apply (@runBatchTest_undefended StressTestExamples.flatSegmentDistance
           [Types.mkSystem "r1" 7.9 80.7 500 Types.RADAR 0 None "JY-27"]
           2 3 StressTest.cruise StressTestExamples.cycle 0%nat cycle_unitInterval).
  right. reflexivity.
Defined.

(** ** Random origins and targets *)

Lemma at_In {A} (xs : list A) (i : Z) (x : A) : StressTest.at_ xs i = Some x -> In x xs.
Proof.
  unfold StressTest.at_. destruct (i <? 0)%Z; [discriminate|]. apply nth_error_In.
Qed.

Lemma CITIES_inBox :
  Forall (fun c => Strike.inBox (Constants.lat c, Constants.lng c)) Constants.CITIES.
Proof.
  repeat constructor; unfold Strike.inBox; cbn; unfold Qle; simpl; lia.
Qed.

Lemma randomIndex_some {A} (xs : list A) (n : positive) (draws : nat -> Q) (k : nat) :
  Random.unitInterval draws -> List.length xs = Pos.to_nat n ->
  exists i x,
    StressTest.randomIndex (inject_Z (Zpos n)) draws k = (i, S k)
    /\ StressTest.at_ xs i = Some x /\ In x xs.
Proof.
  intros H Hl. pose proof (randomIndex_range n k H) as [Hi Hk].
  destruct (StressTest.randomIndex (inject_Z (Zpos n)) draws k) as [i k1].
  cbn [fst snd] in *. subst k1.
  destruct (@at_in_range _ xs i) as [x Hx]; [rewrite Hl; lia|].
  exists i, x. split; [reflexivity|]. split; [exact Hx|]. eapply at_In; eassumption.
Qed.

(** X12: for draws in [0, 1) a random strike launches from a point on one of
    the four lines 2.5 degrees off the sides of the bounding box, between the
    ends of that side, at a target inside the bounding box. *)
Theorem randomPath_ok (draws : nat -> Q) (k : nat) :
  Random.unitInterval draws ->
  exists origin target k',
    Strike.randomPath draws k = (Some (origin, target), k')
    /\ Strike.onApproach origin /\ Strike.inBox target.
Proof.
  intro H. unfold Strike.randomPath.
  unfold Random.bind at 1.
  assert (Ho : Strike.onApproach (fst (Strike.randomOrigin draws k))
               /\ snd (Strike.randomOrigin draws k) = S (S k)).
  { split; [|reflexivity].
    destruct (H (S k)) as [H0 H1].
    unfold Strike.onApproach, Strike.margin.
    cbv beta iota zeta delta
      [Strike.randomOrigin Random.bind StressTest.randomIndex Random.random Random.ret
       fst snd Constants.SL_BOUNDS Constants.minLat Constants.maxLat
       Constants.minLng Constants.maxLng Strike.margin].
    generalize (Qfloor (draws k * 4)). intro side.
    destruct (side =? 0)%Z; [|destruct (side =? 1)%Z; [|destruct (side =? 2)%Z]];
      [left|left|right|right]; (split; [|split; lra]);
      [left|right|left|right]; reflexivity. }
  destruct (Strike.randomOrigin draws k) as [origin k1]. cbn [fst snd] in Ho.
  destruct Ho as [Ho ->].
  unfold Random.bind at 1.
  assert (Ht : exists target k', Strike.randomTarget draws (S (S k)) = (Some target, k')
                                 /\ Strike.inBox target).
  { unfold Strike.randomTarget. unfold Random.bind at 1. unfold Random.random at 1.
    destruct (Qgtb (draws (S (S k))) 0.3).
    - unfold Random.bind at 1.
      destruct (@randomIndex_some _ Constants.CITIES 11 draws (S (S (S k))) H eq_refl)
        as (i & city & E & Hc & Hin).
      change (inject_Z (Z.of_nat (List.length Constants.CITIES))) with (inject_Z 11).
      rewrite E, Hc. unfold Random.ret. eexists; eexists. split; [reflexivity|].
      pose proof CITIES_inBox as Hall. rewrite Forall_forall in Hall. now apply Hall.
    - unfold Random.bind, Random.random, Random.ret.
      eexists; eexists. split; [reflexivity|].
      destruct (H (S (S (S k)))) as [A0 A1]. destruct (H (S (S (S (S k))))) as [B0 B1].
      unfold Strike.inBox.
      cbn [fst snd Constants.SL_BOUNDS Constants.minLat Constants.maxLat
           Constants.minLng Constants.maxLng].
      repeat split; lra. }
  destruct Ht as (target & k' & Et & Hb). rewrite Et. unfold Random.ret.
  exists origin, target, k'. split; [reflexivity|]. split; assumption.
Qed.

(** The hypothesis holds of the draws [cycle]. *)
Lemma randomPath_ok_witness :
  exists origin target k',
    Strike.randomPath StressTestExamples.cycle 0%nat = (Some (origin, target), k')
    /\ Strike.onApproach origin /\ Strike.inBox target.
Proof. exact (@randomPath_ok StressTestExamples.cycle 0%nat cycle_unitInterval). Defined.

(** ** Random deployments *)

Lemma STRATEGIC_inBox : Forall Strike.inBox Deployment.STRATEGIC_LOCATIONS.
Proof. repeat constructor; unfold Strike.inBox; cbn; unfold Qle; simpl; lia. Qed.

Lemma nearBox_weaken (p : Q * Q) : Deployment.nearBox 0 p -> Deployment.nearBox 0.3 p.
Proof.
  unfold Deployment.nearBox.
  cbn [Constants.SL_BOUNDS Constants.minLat Constants.maxLat Constants.minLng Constants.maxLng].
  intros (A & B & C & D). repeat split; lra.
Qed.

Section DeploymentFacts.
Import Deployment.

Variable draws : nat -> Q.
Hypothesis draws_unit : Random.unitInterval draws.

Lemma around_nearBox (base : Q * Q) (k : nat) :
  Strike.inBox base ->
  nearBox 0.3 (fst (around base 0.4 draws k))
  /\ nearBox 0.3 (fst (around base 0.6 draws k))
  /\ snd (around base 0.4 draws k) = S (S k)
  /\ snd (around base 0.6 draws k) = S (S k).
Proof.
  intros (A & B & C & D).
  destruct (draws_unit k) as [H0 H1]. destruct (draws_unit (S k)) as [H2 H3].
  unfold nearBox in *.
  cbv beta iota zeta delta [around Random.bind Random.random Random.ret fst snd
    Constants.SL_BOUNDS Constants.minLat Constants.maxLat Constants.minLng
    Constants.maxLng] in *.
  repeat split; lra.
Qed.

(** An attempt tries a position near the box, inside the box for the
    strategy "outside", and reads between 3 and 4 draws. *)
Lemma candidate_ok (placementStrategy : string) (k : nat) :
  exists p k',
    candidate placementStrategy draws k = (Some p, k')
    /\ nearBox 0.3 p
    /\ (isOutside placementStrategy = true -> nearBox 0 p)
    /\ (k < k')%nat.
Proof.
  unfold candidate. unfold Random.bind at 1. unfold Random.random at 1.
  assert (U : exists p k',
             (r1 <- Random.random ;;
              r2 <- Random.random ;;
              Random.ret (Some
                (r1 * (Constants.maxLat Constants.SL_BOUNDS
                       - Constants.minLat Constants.SL_BOUNDS)
                 + Constants.minLat Constants.SL_BOUNDS,
                 r2 * (Constants.maxLng Constants.SL_BOUNDS
                       - Constants.minLng Constants.SL_BOUNDS)
                 + Constants.minLng Constants.SL_BOUNDS))) draws (S k) = (Some p, k')
             /\ nearBox 0 p /\ (k < k')%nat).
  { eexists; eexists. split; [reflexivity|].
    destruct (draws_unit (S k)) as [H0 H1]. destruct (draws_unit (S (S k))) as [H2 H3].
    split; [|lia]. unfold nearBox.
    cbv beta iota zeta delta [fst snd Constants.SL_BOUNDS Constants.minLat
      Constants.maxLat Constants.minLng Constants.maxLng].
    repeat split; lra. }
  destruct (isOutside placementStrategy) eqn:O; cbn [negb andb].
  - rewrite !andb_false_r.
    destruct U as (p & k' & E & N & L). exists p, k'.
    split; [exact E|]. split; [now apply nearBox_weaken|]. split; [auto|exact L].
  - rewrite !andb_true_r.
    destruct (Qgtb (draws k) 0.7).
    + unfold Random.bind at 1.
      destruct (@randomIndex_some _ STRATEGIC_LOCATIONS 5 draws (S k) draws_unit eq_refl)
        as (i & target & E & Hc & Hin).
      change (inject_Z (Z.of_nat (List.length STRATEGIC_LOCATIONS))) with (inject_Z 5).
      rewrite E, Hc. unfold Random.bind at 1.
      pose proof STRATEGIC_inBox as Hall. rewrite Forall_forall in Hall.
      destruct (around_nearBox (S (S k)) (Hall _ Hin)) as (N & _ & S1 & _).
      destruct (around target 0.4 draws (S (S k))) as [p k']. cbn [fst snd] in *.
      unfold Random.ret. exists p, k'. split; [reflexivity|].
      split; [exact N|]. split; [discriminate|lia].
    + destruct (Qgtb (draws k) 0.4).
      * unfold Random.bind at 1.
        destruct (@randomIndex_some _ Constants.CITIES 11 draws (S k) draws_unit eq_refl)
          as (i & city & E & Hc & Hin).
        change (inject_Z (Z.of_nat (List.length Constants.CITIES))) with (inject_Z 11).
        rewrite E, Hc. unfold Random.bind at 1.
        pose proof CITIES_inBox as Hall. rewrite Forall_forall in Hall.
        destruct (around_nearBox (S (S k)) (Hall _ Hin)) as (_ & N & _ & S1).
        destruct (around (Constants.lat city, Constants.lng city) 0.6 draws (S (S k)))
          as [p k']. cbn [fst snd] in *.
        unfold Random.ret. exists p, k'. split; [reflexivity|].
        split; [exact N|]. split; [discriminate|lia].
      * destruct U as (p & k' & E & N & L). exists p, k'.
        split; [exact E|]. split; [now apply nearBox_weaken|]. split; [discriminate|exact L].
Qed.

End DeploymentFacts.

Section PlacementFacts.
Import Deployment.

Variable draws : nat -> Q.
Hypothesis draws_unit : Random.unitInterval draws.
Variable placementStrategy : string.
Variable geoData : Geo.GeoData.

Lemma placeLoop_ok (fuel : nat) (st : Placement) (k : nat) :
  exists st' k',
    placeLoop placementStrategy geoData fuel st draws k = (Some st', k')
    /\ (DeploymentFacts.tried placementStrategy geoData st ->
        DeploymentFacts.tried placementStrategy geoData st')
    /\ (valid st = false -> (attempts st < 50)%nat -> (0 < fuel)%nat ->
        DeploymentFacts.tried placementStrategy geoData st')
    /\ ((50 <= attempts st + fuel)%nat -> valid st' = true \/ (50 <= attempts st')%nat)
    /\ ((attempts st <= 50)%nat -> (attempts st' <= 50)%nat)
    /\ ((forall p, accepts placementStrategy geoData p = true) ->
        valid st = false -> (attempts st < 50)%nat -> (0 < fuel)%nat ->
        attempts st' = S (attempts st) /\ valid st' = true).
Proof.
  revert st k. induction fuel as [|fuel IH]; intros st k.
  - exists st, k. cbn [placeLoop]. unfold Random.ret.
    split; [reflexivity|]. split; [auto|].
    split; [intros; lia|]. split; [intros; right; lia|].
    split; [auto|intros; lia].
  - cbn [placeLoop].
    destruct (valid st) eqn:V; cbn [negb andb].
    { exists st, k. unfold Random.ret.
      split; [reflexivity|]. split; [auto|].
      split; [intros; discriminate|]. split; [intros; left; exact V|].
      split; [auto|intros; discriminate]. }
    destruct (attempts st <? 50)%nat eqn:A.
    2:{ apply Nat.ltb_ge in A. exists st, k. unfold Random.ret.
        split; [reflexivity|]. split; [auto|].
        split; [intros; lia|]. split; [intros; right; lia|].
        split; [auto|intros; lia]. }
    apply Nat.ltb_lt in A.
    unfold Random.bind.
    destruct (candidate_ok draws_unit placementStrategy k) as (p & k1 & E & N & O & _).
    rewrite E.
    set (st1 := mkPlacement (accepts placementStrategy geoData p) (fst p) (snd p)
                  (S (attempts st))).
    assert (T1 : DeploymentFacts.tried placementStrategy geoData st1).
    { unfold DeploymentFacts.tried, st1. cbn [lat lng valid attempts].
      rewrite <- surjective_pairing.
      split; [exact N|]. split; [exact O|]. split; [reflexivity|lia]. }
    destruct (IH st1 k1) as (st' & k' & E' & K & _ & X & B & _).
    exists st', k'. split; [exact E'|].
    split; [auto|]. split; [auto|].
    split; [intro H; apply X; unfold st1; cbn [attempts]; lia|].
    split; [intro H; apply B; unfold st1; cbn [attempts]; lia|].
    intros Hacc _ _ _.
    assert (V1 : valid st1 = true) by (unfold st1; cbn [valid]; apply Hacc).
    destruct fuel as [|fuel'].
    + cbn in E'. injection E' as <- <-. split; [reflexivity|exact V1].
    + cbn [placeLoop] in E'. rewrite V1 in E'. cbn in E'.
      injection E' as <- <-. split; [reflexivity|exact V1].
Qed.

End PlacementFacts.

Lemma place_ok_parts (draws : nat -> Q) (H : Random.unitInterval draws)
    (placementStrategy : string) (geoData : Geo.GeoData) (k : nat) :
  exists st k',
    Deployment.place placementStrategy geoData draws k = (Some st, k')
    /\ Deployment.nearBox 0.3 (Deployment.lat st, Deployment.lng st)
    /\ (placementStrategy = "outside"%string ->
        Deployment.nearBox 0 (Deployment.lat st, Deployment.lng st)).
Proof.
  unfold Deployment.place.
  destruct (placeLoop_ok H placementStrategy geoData 50
              (Deployment.mkPlacement false 0 0 0) k)
    as (st & k' & E & _ & T & _).
  cbn [Deployment.valid Deployment.attempts] in *.
  destruct (T eq_refl) as (N & NO & _); [lia|lia|].
  exists st, k'. split; [exact E|]. split; [exact N|].
  intros ->. apply NO. reflexivity.
Qed.

(** X13: the placement loop of a generated unit, for draws in [0, 1).  It
    makes between 1 and 50 attempts and ends at the position of its last
    attempt, which is within 0.3 degrees of the bounding box (inside the box
    for the strategy "outside"); [valid] tells whether that position meets
    the strategy, and a position that does not meet it is used only after 50
    attempts.  When the strategy accepts every position (it is neither
    "inside" nor "outside"), one attempt is made. *)
Theorem place_ok (placementStrategy : string) (geoData : Geo.GeoData)
    (draws : nat -> Q) (k : nat) :
  Random.unitInterval draws ->
  exists st k',
    Deployment.place placementStrategy geoData draws k = (Some st, k')
    /\ (1 <= Deployment.attempts st <= 50)%nat
    /\ Deployment.nearBox 0.3 (Deployment.lat st, Deployment.lng st)
    /\ (placementStrategy = "outside"%string ->
        Deployment.nearBox 0 (Deployment.lat st, Deployment.lng st))
    /\ Deployment.valid st
       = Deployment.accepts placementStrategy geoData
           (Deployment.lat st, Deployment.lng st)
    /\ (Deployment.valid st = false -> Deployment.attempts st = 50%nat)
    /\ (placementStrategy <> "inside"%string -> placementStrategy <> "outside"%string ->
        Deployment.attempts st = 1%nat /\ Deployment.valid st = true).
Proof.
  intro H. unfold Deployment.place.
  destruct (placeLoop_ok H placementStrategy geoData 50
              (Deployment.mkPlacement false 0 0 0) k)
    as (st & k' & E & _ & T & X & B & O).
  cbn [Deployment.valid Deployment.attempts] in *.
  destruct (T eq_refl) as (N & NO & V & A1); [lia|lia|].
  exists st, k'. split; [exact E|].
  split; [split; [exact A1|apply B; lia]|].
  split; [exact N|].
  split; [intros ->; apply NO; reflexivity|].
  split; [exact V|].
  split.
  - intro Vf. destruct X as [X|X]; [lia|congruence|]. specialize (B ltac:(lia)). lia.
  - intros Hi Ho. apply O; try lia; try reflexivity.
    intro p. unfold Deployment.accepts.
    destruct (String.eqb_spec placementStrategy "inside"); [contradiction|].
    destruct (String.eqb_spec placementStrategy "outside"); [contradiction|reflexivity].
Qed.

(** The hypothesis holds of the draws [cycle]; with the strategy "inside"
    and a region without features no position is accepted. *)
Lemma place_ok_witness :
  exists st k',
    Deployment.place "inside" (Some []) StressTestExamples.cycle 0%nat = (Some st, k')
    /\ Deployment.valid st = false /\ Deployment.attempts st = 50%nat.
Proof.
  destruct (@place_ok "inside" (Some []) StressTestExamples.cycle 0%nat cycle_unitInterval)
    as (st & k' & E & _ & _ & _ & V & X & _).
  exists st, k'. split; [exact E|].
  assert (Vf : Deployment.valid st = false) by (rewrite V; reflexivity).
  split; [exact Vf|exact (X Vf)].
Defined.

Section GenerateFacts.
Import Deployment.

Variable toId : Q -> string.
Variable draws : nat -> Q.
Hypothesis draws_unit : Random.unitInterval draws.
Variable placementStrategy : string.
Variable geoData : Geo.GeoData.

Lemma nearBox_0_inBounds (u : Types.DefenseSystem Q) :
  nearBox 0 (Types.lat u, Types.lng u) -> Mutation.inBounds u.
Proof.
  unfold nearBox, Mutation.inBounds. cbn [fst snd]. intros (A & B & C & D).
  repeat split; lra.
Qed.

Lemma makeUnit_ok (template : SystemTemplate) (s : nat) (k : nat) :
  exists u k',
    makeUnit toId placementStrategy geoData template s draws k = (Some u, k')
    /\ DeploymentUnits.madeFrom placementStrategy template u.
Proof.
  unfold makeUnit, Random.bind.
  destruct (place_ok_parts draws_unit placementStrategy geoData k)
    as (st & k1 & E & N & O).
  rewrite E. unfold generateId, Random.bind, Random.random, Random.ret.
  eexists; eexists. split; [reflexivity|].
  unfold DeploymentUnits.madeFrom.
  cbn [Types.isActive Types.role Types.range Types.shotSpeed Types.lat Types.lng].
  split; [reflexivity|]. split; [reflexivity|]. split; [reflexivity|].
  split; [reflexivity|]. split; [exact N|].
  intro Hs. apply nearBox_0_inBounds. now apply O.
Qed.

Lemma makeUnits_ok (template : SystemTemplate) (s n : nat) (k : nat) :
  exists us k',
    makeUnits toId placementStrategy geoData template s n draws k = (Some us, k')
    /\ List.length us = n
    /\ Forall (DeploymentUnits.madeFrom placementStrategy template) us.
Proof.
  revert s k. induction n as [|n IH]; intros s k.
  - exists [], k. cbn. repeat split. constructor.
  - cbn [makeUnits]. unfold Random.bind at 1.
    destruct (makeUnit_ok template s k) as (u & k1 & E & M). rewrite E.
    unfold Random.bind at 1.
    destruct (IH (S s) k1) as (us & k2 & E2 & L & F). rewrite E2.
    unfold Random.ret. exists (u :: us), k2.
    split; [reflexivity|]. split; [cbn; now rewrite L|now constructor].
Qed.

(** X14: for draws in [0, 1) the deployment generator returns as many units
    as the entries whose key has a template ask for together, and skips the
    entries whose key has none.
    Every unit is active, has the role, range and shot speed of its template
    and lies within 0.3 degrees of the bounding box, and inside the box for
    the strategy "outside" (for "inside" and for other strategies a unit
    can lie outside the box). *)
Theorem generateRandomDeploymentWithCounts_ok (unitCounts : list (string * nat))
    (templates : string -> option SystemTemplate) (k : nat) :
  exists us k',
    generateRandomDeploymentWithCounts toId unitCounts placementStrategy geoData
      templates draws k = (Some us, k')
    /\ List.length us = requested unitCounts templates
    /\ Forall (DeploymentUnits.generated placementStrategy unitCounts templates) us.
Proof.
  revert k. induction unitCounts as [|[key count] rest IH]; intro k.
  - exists [], k. cbn. repeat split. constructor.
  - cbn [generateRandomDeploymentWithCounts requested].
    assert (W : forall us,
               Forall (DeploymentUnits.generated placementStrategy rest templates) us ->
               Forall (DeploymentUnits.generated placementStrategy ((key, count) :: rest)
                         templates) us).
    { intros us F. eapply Forall_impl; [|exact F].
      intros u (key' & count' & t' & Hin & Ht & M).
      exists key', count', t'. split; [right; exact Hin|]. split; assumption. }
    destruct (templates key) as [template|] eqn:T.
    + unfold Random.bind at 1.
      destruct (makeUnits_ok template 0 count k) as (us & k1 & E & L & F). rewrite E.
      unfold Random.bind at 1.
      destruct (IH k1) as (more & k2 & E2 & L2 & F2). rewrite E2.
      unfold Random.ret. exists (us ++ more), k2.
      split; [reflexivity|]. split; [rewrite length_app; lia|].
      apply Forall_app. split; [|now apply W].
      eapply Forall_impl; [|exact F]. intros u M.
      exists key, count, template. split; [left; reflexivity|]. split; assumption.
    + destruct (IH k) as (more & k2 & E2 & L2 & F2).
      exists more, k2. split; [exact E2|]. split; [exact L2|now apply W].
Qed.

End GenerateFacts.

(** The hypothesis holds of the draws [cycle]: two units of a known template,
    and an entry with an unknown key. *)
Lemma generateRandomDeploymentWithCounts_ok_witness :
  exists us k',
    Deployment.generateRandomDeploymentWithCounts (fun _ => "id"%string)
      [("Barak-8"%string, 2%nat); ("none"%string, 3%nat)] "outside" (Some [])
      (fun key => if String.eqb key "Barak-8"
                  then Some (Deployment.mkTemplate "Barak-8" Types.INTERCEPTOR 150 0.25 None)
                  else None)
      StressTestExamples.cycle 0%nat = (Some us, k')
    /\ List.length us
       = Deployment.requested [("Barak-8"%string, 2%nat); ("none"%string, 3%nat)]
           (fun key => if String.eqb key "Barak-8"
                       then Some (Deployment.mkTemplate "Barak-8" Types.INTERCEPTOR 150 0.25 None)
                       else None)
    /\ Forall
         (DeploymentUnits.generated "outside"
            [("Barak-8"%string, 2%nat); ("none"%string, 3%nat)]
            (fun key => if String.eqb key "Barak-8"
                        then Some (Deployment.mkTemplate "Barak-8" Types.INTERCEPTOR 150 0.25 None)
                        else None))
         us.
Proof.
  exact (@generateRandomDeploymentWithCounts_ok (fun _ => "id"%string)
           StressTestExamples.cycle cycle_unitInterval "outside" (Some [])
           [("Barak-8"%string, 2%nat); ("none"%string, 3%nat)]
           (fun key => if String.eqb key "Barak-8"
                       then Some (Deployment.mkTemplate "Barak-8" Types.INTERCEPTOR 150 0.25 None)
                       else None)
           0%nat).
Defined.

(** ** The intercept point *)

Section InterceptMore.
Import AttackSimulator.
Local Open Scope R_scope.

(** What [calculateIntercept] has checked when it returns a point. *)
Lemma calculateIntercept_point (threat : Threat) (interceptor : System) (p : LatLng) :
  calculateIntercept threat interceptor = InterceptAt p ->
  let Vi := shotSpeedOf interceptor in
  let t := selectedRoot threat interceptor Vi in
  leading threat interceptor Vi <> 0
  /\ 0 <= discriminant threat interceptor Vi
  /\ 0 <= t
  /\ p = positionAt threat t.
Proof.
  cbv zeta. unfold calculateIntercept, interceptTime, leading, discriminant, selectedRoot.
  destruct (coefficients threat interceptor (shotSpeedOf interceptor)) as [[a b] c].
  cbn [fst snd].
  destruct (Rlt_dec (b * b - 4 * a * c) 0) as [|Hd]; [discriminate|].
  unfold divide.
  destruct (Req_dec_T (2 * a) 0) as [|Ha].
  { destruct (Rlt_dec _ 0); discriminate. }
  destruct (Rlt_dec ((- b - sqrt (b * b - 4 * a * c)) / (2 * a)) 0) as [|Ht];
    [discriminate|].
  intro E. injection E as <-.
  repeat split; lra.
Qed.

(** X15: the point [calculateIntercept] returns is one the shot can reach in
    time.  It is the threat's position after some time [t >= 0], and its
    distance (in degrees, in the plane) to the interceptor is [Vi * t] for the
    shot speed [Vi = shotSpeed || 0.22]. *)
Theorem calculateIntercept_meets (threat : Threat) (interceptor : System) (p : LatLng) :
  calculateIntercept threat interceptor = InterceptAt p ->
  exists t,
    0 <= t
    /\ p = positionAt threat t
    /\ (L.lng p - Types.lng interceptor) * (L.lng p - Types.lng interceptor)
       + (L.lat p - Types.lat interceptor) * (L.lat p - Types.lat interceptor)
       = (shotSpeedOf interceptor * t) * (shotSpeedOf interceptor * t).
Proof.
  intro E. apply calculateIntercept_point in E. cbv zeta in E.
  destruct E as (Ha & Hd & Ht & Hp).
  exists (selectedRoot threat interceptor (shotSpeedOf interceptor)).
  split; [exact Ht|]. split; [exact Hp|].
  rewrite Hp. clear Hp p.
  unfold leading, discriminant, selectedRoot, positionAt in *.
  destruct (velocity threat) as [vx vy] eqn:Ev.
  rewrite (coefficients_eq interceptor (shotSpeedOf interceptor) Ev) in *.
  cbn [fst snd L.lat L.lng] in *.
  set (Vi := shotSpeedOf interceptor) in *.
  set (dx := L.lng (current threat) - Types.lng interceptor) in *.
  set (dy := L.lat (current threat) - Types.lat interceptor) in *.
  set (a := vx * vx + vy * vy - Vi * Vi) in *.
  set (b := 2 * (vx * dx + vy * dy)) in *.
  set (t := (- b - sqrt (b * b - 4 * a * (dx * dx + dy * dy))) / (2 * a)) in *.
  destruct (selected_root_least (a := a) (b := b) (dx := dx) (dy := dy)
              (s := sqrt (b * b - 4 * a * (dx * dx + dy * dy))) (t := t)
              (vx := vx) (vy := vy) Ha eq_refl (sqrt_pos _) (sqrt_sqrt _ Hd) eq_refl Ht)
    as [Hroot _].
  replace (L.lng (current threat) + vx * t - Types.lng interceptor) with (dx + vx * t)
    by (unfold dx; ring).
  replace (L.lat (current threat) + vy * t - Types.lat interceptor) with (dy + vy * t)
    by (unfold dy; ring).
  unfold a, b in Hroot. nra.
Qed.

Lemma velocity_norm (threat : Threat) (vx vy : R) :
  velocity threat = (vx, vy) -> vx * vx + vy * vy = speed threat * speed threat.
Proof.
  unfold velocity. intro E. injection E as <- <-.
  set (angle := atan2 _ _).
  pose proof (sin2_cos2 angle) as H. unfold Rsqr in H. nra.
Qed.

(** X16: a shot that is faster than the threat always has an intercept
    point: [calculateIntercept] returns a point, never [null], whatever the
    positions are. *)
Theorem calculateIntercept_faster_shot (threat : Threat) (interceptor : System) :
  0 <= speed threat -> speed threat < shotSpeedOf interceptor ->
  exists p, calculateIntercept threat interceptor = InterceptAt p.
Proof.
  intros H0 H1.
  unfold calculateIntercept, interceptTime.
  destruct (velocity threat) as [vx vy] eqn:Ev.
  rewrite (coefficients_eq interceptor (shotSpeedOf interceptor) Ev).
  pose proof (velocity_norm Ev) as Hn.
  set (Vi := shotSpeedOf interceptor) in *.
  set (dx := L.lng (current threat) - Types.lng interceptor).
  set (dy := L.lat (current threat) - Types.lat interceptor).
  set (a := vx * vx + vy * vy - Vi * Vi).
  set (b := 2 * (vx * dx + vy * dy)).
  set (c := dx * dx + dy * dy).
  assert (Ha : a < 0) by (unfold a; nra).
  assert (Hc : 0 <= c) by (unfold c; nra).
  assert (Hd : b * b <= b * b - 4 * a * c) by nra.
  assert (Hd0 : 0 <= b * b - 4 * a * c) by nra.
  destruct (Rlt_dec (b * b - 4 * a * c) 0); [lra|].
  unfold divide. destruct (Req_dec_T (2 * a) 0); [lra|].
  set (s := sqrt (b * b - 4 * a * c)).
  assert (Hs : 0 <= s) by apply sqrt_pos.
  assert (Hss : s * s = b * b - 4 * a * c) by (apply sqrt_sqrt; exact Hd0).
  assert (Hsb : - b <= s).
  { destruct (Rle_dec (- b) s); [assumption|]. exfalso. nra. }
  assert (Ht : 0 <= (- b - s) / (2 * a)).
  { unfold Rdiv. replace ((- b - s) * / (2 * a)) with ((s + b) * / (- (2 * a))).
    - apply Rmult_le_pos; [lra|]. apply Rlt_le, Rinv_0_lt_compat. lra.
    - field. lra. }
  destruct (Rlt_dec ((- b - s) / (2 * a)) 0); [lra|].
  eexists. reflexivity.
Qed.

End InterceptMore.

Section InterceptMoreExamples.
Import AttackSimulator SimulatorExamples.
Local Open Scope R_scope.

Lemma interceptorAt_shotSpeed (d shot : R) :
  shot <> 0 -> shotSpeedOf (interceptorAt d shot) = shot.
Proof. intro H. unfold shotSpeedOf. now apply orElse_nonzero. Qed.

Lemma eastbound_intercept :
  calculateIntercept (eastbound 0.06) (interceptorAt 0.28 0.22)
  = InterceptAt (L.latLng 0 0.06).
Proof.
  unfold calculateIntercept, interceptTime.
  rewrite interceptorAt_shotSpeed by lra.
  rewrite eastbound_coefficients.
  replace (- (2 * 0.06 * 0.28) * - (2 * 0.06 * 0.28)
           - 4 * (0.06 * 0.06 - 0.22 * 0.22) * (0.28 * 0.28))
    with (0.1232 * 0.1232) by lra.
  rewrite sqrt_square by lra.
  destruct (Rlt_dec (0.1232 * 0.1232) 0); [lra|].
  unfold divide.
  destruct (Req_dec_T (2 * (0.06 * 0.06 - 0.22 * 0.22)) 0); [lra|].
  replace ((- - (2 * 0.06 * 0.28) - 0.1232) / (2 * (0.06 * 0.06 - 0.22 * 0.22)))
    with 1 by lra.
  destruct (Rlt_dec 1 0); [lra|].
  rewrite eastbound_positionAt. f_equal. f_equal. ring.
Qed.

(** The hypothesis of [calculateIntercept_meets] holds of a hypersonic threat
    and an interceptor 0.28 degrees ahead. *)
Lemma calculateIntercept_meets_witness :
  exists t,
    0 <= t
    /\ L.latLng 0 0.06 = positionAt (eastbound 0.06) t
    /\ (L.lng (L.latLng 0 0.06) - Types.lng (interceptorAt 0.28 0.22))
       * (L.lng (L.latLng 0 0.06) - Types.lng (interceptorAt 0.28 0.22))
       + (L.lat (L.latLng 0 0.06) - Types.lat (interceptorAt 0.28 0.22))
         * (L.lat (L.latLng 0 0.06) - Types.lat (interceptorAt 0.28 0.22))
       = (shotSpeedOf (interceptorAt 0.28 0.22) * t)
         * (shotSpeedOf (interceptorAt 0.28 0.22) * t).
Proof.
  exact (@calculateIntercept_meets (eastbound 0.06) (interceptorAt 0.28 0.22)
           (L.latLng 0 0.06) eastbound_intercept).
Defined.

(** The hypotheses of [calculateIntercept_faster_shot] hold of the same pair. *)
Lemma calculateIntercept_faster_shot_witness :
  exists p, calculateIntercept (eastbound 0.06) (interceptorAt 0.28 0.22) = InterceptAt p.
Proof.
  apply calculateIntercept_faster_shot.
  - cbn. lra.
  - rewrite interceptorAt_shotSpeed by lra. cbn. lra.
Defined.

End InterceptMoreExamples.

(** ** Interceptor assignment *)

Section AssignmentFacts.
Import AttackSimulator.
Local Open Scope R_scope.

Variable distanceTo : LatLng -> LatLng -> R.

Lemma insertBySpeed_In (x y : System) (l : list System) :
  In y (insertBySpeed x l) <-> y = x \/ In y l.
Proof.
  induction l as [|z l IH]; cbn [insertBySpeed].
  - cbn. intuition.
  - destruct (Rltb _ _); cbn [In]; [rewrite IH|]; intuition.
Qed.

Lemma sortBySpeed_In (y : System) (l : list System) : In y (sortBySpeed l) <-> In y l.
Proof.
  unfold sortBySpeed. induction l as [|x l IH]; cbn [fold_right]; [reflexivity|].
  rewrite insertBySpeed_In, IH. cbn. intuition.
Qed.

Lemma insertBySpeed_descending (x : System) (l : list System) :
  Assignment.descending l -> Assignment.descending (insertBySpeed x l).
Proof.
  unfold Assignment.descending.
  induction l as [|z l IH]; intro H; cbn [insertBySpeed].
  - repeat constructor.
  - inversion H as [|? ? Hl Hz]; subst.
    unfold Rltb. fold (Assignment.speedKey x). fold (Assignment.speedKey z).
    destruct (Rlt_dec (Assignment.speedKey x) (Assignment.speedKey z)) as [Lt|Ge].
    + constructor; [now apply IH|].
      apply Forall_forall. intros y Hy. apply insertBySpeed_In in Hy.
      destruct Hy as [->|Hy]; [lra|]. rewrite Forall_forall in Hz. now apply Hz.
    + constructor; [exact H|].
      constructor; [lra|].
      eapply Forall_impl; [|exact Hz]. cbn. intros a Ha. lra.
Qed.

Lemma sortBySpeed_descending (l : list System) : Assignment.descending (sortBySpeed l).
Proof.
  unfold sortBySpeed. induction l as [|x l IH]; cbn [fold_right].
  - constructor.
  - now apply insertBySpeed_descending.
Qed.

(** The loop over the candidates stops at the first feasible one. *)
Lemma firstFeasible_split (threat : Threat) (l : list System) (i : System) (p : LatLng) :
  firstFeasible distanceTo threat l = Some (Some (i, p)) ->
  exists l1 l2,
    l = l1 ++ i :: l2
    /\ Forall (fun j => ~ Assignment.feasible distanceTo threat j) l1
    /\ calculateIntercept threat i = InterceptAt p
    /\ inRange distanceTo p i = true.
Proof.
  induction l as [|j l IH]; cbn [firstFeasible]; [discriminate|].
  destruct (calculateIntercept threat j) as [|q|] eqn:C; [| |discriminate].
  - intro E. destruct (IH E) as (l1 & l2 & -> & F & Ci & Ri).
    exists (j :: l1), l2. split; [reflexivity|]. split; [|tauto].
    constructor; [|exact F]. intros (q & Cq & _). congruence.
  - destruct (inRange distanceTo q j) eqn:Rq.
    + intro E. injection E as <- <-.
      exists [], l. split; [reflexivity|]. split; [constructor|tauto].
    + intro E. destruct (IH E) as (l1 & l2 & -> & F & Ci & Ri).
      exists (j :: l1), l2. split; [reflexivity|]. split; [|tauto].
      constructor; [|exact F]. intros (q' & Cq & Rq'). congruence.
Qed.

Lemma descending_after (l1 l2 : list System) (i j : System) :
  Assignment.descending (l1 ++ i :: l2) -> In j l2 ->
  Assignment.speedKey j <= Assignment.speedKey i.
Proof.
  unfold Assignment.descending. induction l1 as [|x l1 IH]; cbn [app]; intros H Hj.
  - inversion H as [|? ? _ Hall]; subst. rewrite Forall_forall in Hall. now apply Hall.
  - inversion H; subst. now apply IH.
Qed.

(** X17: the interceptor a sub-step binds.  When detection and assignment
    log a lock, the threat is bound to an active interceptor of the unit list
    whose predicted intercept point is within its range, the shot starts at
    the interceptor's position, and no active interceptor with a greater shot
    speed is feasible for the threat. *)
Theorem detectAndAssign_fastest_feasible (systems : list System) (nextPos : LatLng)
    (threat threat1 : Threat) (threatId : string) :
  detectAndAssign distanceTo systems nextPos threat = Some (threat1, [Locked threatId]) ->
  exists i p,
    In i systems
    /\ Types.activeWithRole Types.INTERCEPTOR i = true
    /\ interceptorId threat1 = Some (Types.id i)
    /\ interceptorPos threat1 = Some (position i)
    /\ predictedInterceptPoint threat1 = Some p
    /\ calculateIntercept threat i = InterceptAt p
    /\ inRange distanceTo p i = true
    /\ forall j, In j systems -> Types.activeWithRole Types.INTERCEPTOR j = true ->
                 Assignment.speedKey i < Assignment.speedKey j ->
                 ~ Assignment.feasible distanceTo threat j.
Proof.
  unfold detectAndAssign.
  destruct (find _ _) as [radar|]; [|discriminate].
  set (threatD := withDetectedBy threat (Types.id radar)).
  change (interceptorId threatD) with (interceptorId threat).
  destruct (truthy (interceptorId threat)); cbn [negb]; [discriminate|].
  set (cands := filter (Types.activeWithRole Types.INTERCEPTOR) systems).
  destruct (firstFeasible distanceTo threatD (sortBySpeed cands))
    as [[[i p]|]|] eqn:F; [|discriminate|discriminate].
  intro E. injection E as <- _.
  assert (HF : forall j, Assignment.feasible distanceTo threatD j
                         <-> Assignment.feasible distanceTo threat j) by reflexivity.
  destruct (firstFeasible_split _ _ F) as (l1 & l2 & Hl & Hinf & Ci & Ri).
  change (calculateIntercept threatD i) with (calculateIntercept threat i) in Ci.
  assert (Hin : In i cands).
  { apply sortBySpeed_In. rewrite Hl. apply in_or_app. right. left. reflexivity. }
  apply filter_In in Hin. destruct Hin as [Hin Hact].
  exists i, p. repeat split; try assumption; try reflexivity.
  intros j Hj Hja Hlt (q & Cq & Rq).
  assert (Hjs : In j (sortBySpeed cands)).
  { apply sortBySpeed_In. apply filter_In. split; assumption. }
  rewrite Hl in Hjs. apply in_app_or in Hjs. destruct Hjs as [H1|[->|H2]].
  - rewrite Forall_forall in Hinf. apply (Hinf j H1). apply HF.
    exists q. split; assumption.
  - lra.
  - pose proof (sortBySpeed_descending cands) as Hd. rewrite Hl in Hd.
    pose proof (@descending_after l1 l2 i j Hd H2). lra.
Qed.

End AssignmentFacts.

Section AssignmentExamples.
Import AttackSimulator SimulatorExamples AssignmentExamples.
Local Open Scope R_scope.

Lemma inRange_same (p : LatLng) (sys : System) :
  L.lat p = Types.lat sys -> L.lng p = Types.lng sys -> 0 <= Types.range sys ->
  inRange earthDistance p sys = true.
Proof.
  intros Hlat Hlng Hr. unfold inRange. apply Rleb_true.
  rewrite earthDistance_same by assumption. lra.
Qed.

Lemma launcher_intercept :
  calculateIntercept (eastbound 0.06) launcher = InterceptAt (L.latLng 0 (0.06 * 0)).
Proof.
  unfold calculateIntercept, interceptTime, launcher.
  rewrite interceptorAt_shotSpeed by lra.
  rewrite eastbound_coefficients.
  replace (- (2 * 0.06 * 0) * - (2 * 0.06 * 0)
           - 4 * (0.06 * 0.06 - 0.25 * 0.25) * (0 * 0))
    with 0 by lra.
  rewrite sqrt_0.
  destruct (Rlt_dec 0 0); [lra|].
  unfold divide.
  destruct (Req_dec_T (2 * (0.06 * 0.06 - 0.25 * 0.25)) 0); [lra|].
  replace ((- - (2 * 0.06 * 0) - 0) / (2 * (0.06 * 0.06 - 0.25 * 0.25)))
    with 0 by lra.
  destruct (Rlt_dec 0 0); [lra|].
  now rewrite eastbound_positionAt.
Qed.

(** Detection by [radarAhead] and the lock of [launcher], 10 ms after the
    threat [eastbound 0.06] is at the launcher's position. *)
Lemma launcher_lock :
  detectAndAssign earthDistance [radarAhead; launcher]
    (nextPosition 0.01 (eastbound 0.06)) (eastbound 0.06)
  = Some (withInterceptor (withDetectedBy (eastbound 0.06) "r1") launcher
            (L.latLng 0 (0.06 * 0)),
          [Locked "t1"]).
Proof.
  unfold detectAndAssign.
  change (filter (Types.activeWithRole Types.RADAR) [radarAhead; launcher])
    with [radarAhead].
  change (filter (Types.activeWithRole Types.INTERCEPTOR) [radarAhead; launcher])
    with [launcher].
  cbn [find].
  rewrite inRange_same.
  - set (threatD := withDetectedBy (eastbound 0.06) (Types.id radarAhead)).
    change (truthy (interceptorId threatD)) with false. cbn [negb].
    change (sortBySpeed [launcher]) with [launcher].
    cbn [firstFeasible].
    change (calculateIntercept threatD launcher)
      with (calculateIntercept (eastbound 0.06) launcher).
    rewrite launcher_intercept.
    rewrite inRange_same; [reflexivity|cbn; lra|cbn; lra|cbn; lra].
  - unfold nextPosition. cbn [eastbound current target start speed L.lat L.lng].
    rewrite advance_east by lra. reflexivity.
  - unfold nextPosition. cbn [eastbound current target start speed L.lat L.lng].
    rewrite advance_east by lra. cbn. lra.
  - cbn. lra.
Qed.

(** The hypothesis of [detectAndAssign_fastest_feasible] holds of
    [launcher_lock]. *)
Lemma detectAndAssign_fastest_feasible_witness :
  exists i p,
    In i [radarAhead; launcher]
    /\ Types.activeWithRole Types.INTERCEPTOR i = true
    /\ interceptorId
         (withInterceptor (withDetectedBy (eastbound 0.06) "r1") launcher
            (L.latLng 0 (0.06 * 0))) = Some (Types.id i)
    /\ interceptorPos
         (withInterceptor (withDetectedBy (eastbound 0.06) "r1") launcher
            (L.latLng 0 (0.06 * 0))) = Some (position i)
    /\ predictedInterceptPoint
         (withInterceptor (withDetectedBy (eastbound 0.06) "r1") launcher
            (L.latLng 0 (0.06 * 0))) = Some p
    /\ calculateIntercept (eastbound 0.06) i = InterceptAt p
    /\ inRange earthDistance p i = true
    /\ forall j, In j [radarAhead; launcher] ->
                 Types.activeWithRole Types.INTERCEPTOR j = true ->
                 Assignment.speedKey i < Assignment.speedKey j ->
                 ~ Assignment.feasible earthDistance (eastbound 0.06) j.
Proof.
  exact (@detectAndAssign_fastest_feasible earthDistance [radarAhead; launcher]
           (nextPosition 0.01 (eastbound 0.06)) (eastbound 0.06) _ "t1" launcher_lock).
Defined.

End AssignmentExamples.

(** ** Frames *)

Section FrameFacts.
Import AttackSimulator.
Local Open Scope R_scope.

Lemma ceil_pos (x : R) : 0 < x -> (1 <= ceil x)%Z.
Proof.
  intro H. unfold ceil.
  destruct (base_Int_part (- x)) as [A _].
  assert (B : IZR (Int_part (- x)) < 0) by lra.
  apply lt_IZR in B. lia.
Qed.

Lemma ceil_nonpos (x : R) : x <= 0 -> (ceil x <= 0)%Z.
Proof.
  intro H. unfold ceil.
  destruct (base_Int_part (- x)) as [_ A].
  assert (B : -1 < IZR (Int_part (- x))) by lra.
  apply lt_IZR in B. lia.
Qed.

Variable distanceTo : LatLng -> LatLng -> R.

(** X18: the number of sub-steps of a frame is at most 1000, and at least 1
    when the time acceleration is positive; with an acceleration that is not
    positive there is no sub-step and the frame leaves the state as it is. *)
Theorem substepCount_bounds (currentSpeed : R) :
  (substepCount currentSpeed <= 1000)%nat
  /\ (0 < currentSpeed -> (1 <= substepCount currentSpeed)%nat)
  /\ (currentSpeed <= 0 ->
      forall systems rawDeltaTime sim,
        updateSimulation distanceTo systems rawDeltaTime currentSpeed sim = Some sim).
Proof.
  unfold substepCount. split; [lia|]. split.
  - intro H. pose proof (ceil_pos (x := currentSpeed * 2.5)) as P.
    specialize (P ltac:(lra)). lia.
  - intros H systems raw sim. unfold updateSimulation, substepCount.
    pose proof (ceil_nonpos (x := currentSpeed * 2.5)) as P.
    specialize (P ltac:(lra)).
    replace (Z.to_nat (Z.min 1000 (ceil (currentSpeed * 2.5)))) with 0%nat by lia.
    destruct sim as [ts ex lg st]. cbn. destruct ts; reflexivity.
Qed.

(** The two halves of a sub-step, case by case. *)
Lemma detectAndAssign_shape (systems : list System) (nextPos : LatLng)
    (threat threat1 : Threat) (events : list Event) :
  detectAndAssign distanceTo systems nextPos threat = Some (threat1, events) ->
  (find (inRange distanceTo nextPos) (filter (Types.activeWithRole Types.RADAR) systems) = None
   /\ threat1 = threat /\ events = [])
  \/ (exists radarId, threat1 = withDetectedBy threat radarId /\ events = [])
  \/ (exists radarId interceptor predictedPos,
        truthy (interceptorId threat) = false
        /\ threat1 = withInterceptor (withDetectedBy threat radarId) interceptor predictedPos
        /\ events = [Locked (id threat)]).
Proof.
  unfold detectAndAssign.
  destruct (find _ _) as [radar|].
  2:{ intro H. injection H as <- <-. now left. }
  cbn [withDetectedBy interceptorId].
  destruct (truthy (interceptorId threat)) eqn:B; cbn [negb].
  { intro H. injection H as <- <-. right. left. now exists (Types.id radar). }
  destruct (firstFeasible _ _ _) as [[[interceptor predictedPos]|]|]; [| |discriminate].
  - intro H. injection H as <- <-. right. right.
    exists (Types.id radar), interceptor, predictedPos. now repeat split.
  - intro H. injection H as <- <-. right. left. now exists (Types.id radar).
Qed.

Lemma impactOrMove_shape (currentSpeed : R) (nextPos : LatLng)
    (threat threat' : Threat) (events : list Event) :
  impactOrMove distanceTo currentSpeed nextPos threat = (threat', events) ->
  (threat' = withStatus threat IMPACTED (target threat)
   /\ events = [Hit (id threat) (target threat)])
  \/ (threat' = withCurrent threat nextPos /\ events = []).
Proof.
  unfold impactOrMove. destruct (Rltb _ _); intro H; injection H as <- <-; auto.
Qed.

Lemma resolve_shape (systems : list System) (dt currentSpeed : R) (nextPos : LatLng)
    (threat threat' : Threat) (events : list Event) :
  resolve distanceTo systems dt currentSpeed nextPos threat = (threat', events) ->
  (truthy (interceptorId threat) = true /\ interceptorPos threat <> None
   /\ threat' = withStatus threat INTERCEPTED nextPos
   /\ events = [Killed (id threat) nextPos])
  \/ (exists threat2,
        (threat2 = threat \/ exists p, threat2 = withInterceptorPos threat p)
        /\ ((threat' = withStatus threat2 IMPACTED (target threat2)
             /\ events = [Hit (id threat2) (target threat2)])
            \/ (threat' = withCurrent threat2 nextPos /\ events = []))).
Proof.
  unfold resolve.
  destruct (truthy (interceptorId threat)) eqn:B.
  2:{ intro H. apply impactOrMove_shape in H. right. exists threat. auto. }
  destruct (interceptorPos threat) as [ipos|] eqn:P.
  2:{ intro H. apply impactOrMove_shape in H. right. exists threat. auto. }
  destruct (Rltb _ _).
  - intro H. injection H as <- <-. left. repeat split; congruence.
  - intro H. apply impactOrMove_shape in H. right.
    eexists. split; [right; eexists; reflexivity|exact H].
Qed.

(** One sub-step of one threat, case by case: the threat is left alone when
    it is not MOVING; otherwise it goes through detection, then through
    pursuit, kill check, impact check and move. *)
Lemma stepThreat_shape (systems : list System) (dt currentSpeed : R)
    (threat threat' : Threat) (events : list Event) :
  stepThreat distanceTo systems dt currentSpeed threat = Some (threat', events) ->
  (isMoving (status threat) = false /\ threat' = threat /\ events = [])
  \/ (status threat = MOVING
      /\ exists threat1 events1 events2,
           detectAndAssign distanceTo systems (nextPosition dt threat) threat
             = Some (threat1, events1)
           /\ resolve distanceTo systems dt currentSpeed (nextPosition dt threat) threat1
              = (threat', events2)
           /\ events = events1 ++ events2).
Proof.
  unfold stepThreat. destruct (isMoving (status threat)) eqn:M; cbn [negb].
  2:{ intro H. injection H as <- <-. left. now repeat split. }
  destruct (detectAndAssign _ _ _ _) as [[threat1 events1]|] eqn:D; [|discriminate].
  destruct (resolve _ _ _ _ _ threat1) as [threat2 events2] eqn:Rv.
  intro H. injection H as <- <-. right.
  split; [destruct (status threat); [reflexivity|discriminate|discriminate]|].
  exists threat1, events1, events2. now repeat split.
Qed.

(** A relation between a threat, its successor and the events holds of every
    threat of a pass when it holds of every sub-step of one threat. *)
Lemma stepThreats_Forall2 (P : Threat -> Threat -> Prop) (systems : list System)
    (dt currentSpeed : R) :
  (forall t t' ev, stepThreat distanceTo systems dt currentSpeed t = Some (t', ev) -> P t t') ->
  forall ts ts' events,
    stepThreats distanceTo systems dt currentSpeed ts = Some (ts', events) ->
    Forall2 P ts ts'.
Proof.
  intros HP ts. induction ts as [|t ts IH]; intros ts' events; cbn [stepThreats].
  - intro H. injection H as <- <-. constructor.
  - destruct (stepThreat _ _ _ _ t) as [[t' e1]|] eqn:S1; [|discriminate].
    destruct (stepThreats _ _ _ _ ts) as [[rest' e2]|] eqn:S2; [|discriminate].
    intro H. injection H as <- <-. constructor; [eapply HP; eassumption|].
    eapply IH. reflexivity.
Qed.

Lemma Forall2_compose {A} (P Q S : A -> A -> Prop) :
  (forall a b c, P a b -> Q b c -> S a c) ->
  forall l1 l2 l3, Forall2 P l1 l2 -> Forall2 Q l2 l3 -> Forall2 S l1 l3.
Proof.
  intros HT l1 l2 l3 H. revert l3. induction H as [|a b l l' Hab _ IH]; intros l3 H2.
  - inversion H2. constructor.
  - inversion H2 as [|b' c l2' l3' Hbc Hrest]; subst.
    constructor; [eapply HT; eassumption|now apply IH].
Qed.

Lemma Forall2_same {A} (P : A -> A -> Prop) :
  (forall a, P a a) -> forall l, Forall2 P l l.
Proof. intros HR l. induction l; constructor; auto. Qed.

(** *** The flight of a threat *)

Lemma nextPosition_0 (t : Threat) : nextPosition 0 t = current t.
Proof.
  unfold nextPosition, advance. destruct (current t) as [la lo].
  cbn [L.lat L.lng]. f_equal; ring.
Qed.

Lemma flown_0 (t : Threat) : Flight.flown 0 t t.
Proof.
  split; [now repeat split|]. intro M. split; [exact M|].
  now rewrite nextPosition_0.
Qed.

Lemma flown_add (d1 d2 : R) (t1 t2 t3 : Threat) :
  Flight.flown d1 t1 t2 -> Flight.flown d2 t2 t3 -> Flight.flown (d1 + d2) t1 t3.
Proof.
  intros ((I1 & S1 & T1 & V1 & Y1) & M1) ((I2 & S2 & T2 & V2 & Y2) & M2).
  split; [repeat split; congruence|].
  intro M. destruct (M2 M) as (M' & C2). destruct (M1 M') as (M'' & C1).
  split; [exact M''|].
  rewrite C2. unfold nextPosition. rewrite C1, S1, T1, V1.
  unfold nextPosition, advance. cbn [L.lat L.lng]. f_equal; ring.
Qed.

Lemma stepThreat_flown (systems : list System) (dt currentSpeed : R)
    (threat threat' : Threat) (events : list Event) :
  stepThreat distanceTo systems dt currentSpeed threat = Some (threat', events) ->
  Flight.flown dt threat threat'.
Proof.
  intro H. apply stepThreat_shape in H.
  destruct H as [(M & -> & _)|(M & t1 & e1 & e2 & D & Rv & _)].
  { split; [now repeat split|]. intro M'. congruence. }
  assert (P1 : Flight.samePlan threat t1 /\ current t1 = current threat).
  { apply detectAndAssign_shape in D.
    destruct D as [(_ & -> & _)|[(r & -> & _)|(r & i & p & _ & -> & _)]];
      now repeat split. }
  destruct P1 as ((I1 & S1 & T1 & V1 & Y1) & C1).
  apply resolve_shape in Rv.
  destruct Rv as [(_ & _ & -> & _)|(t2 & Ht2 & [(-> & _)|(-> & _)])].
  - split; [now repeat split|]. discriminate.
  - split; [|discriminate].
    destruct Ht2 as [->|(p & ->)]; now repeat split.
  - split.
    + destruct Ht2 as [->|(p & ->)]; now repeat split.
    + intros _. rewrite M. split; [reflexivity|].
      destruct Ht2 as [->|(p & ->)]; reflexivity.
Qed.

Lemma subSteps_flown (systems : list System) (dt currentSpeed : R) (n : nat)
    (ts ts' : list Threat) (events : list Event) :
  subSteps distanceTo systems dt currentSpeed n ts = Some (ts', events) ->
  Forall2 (Flight.flown (INR n * dt)) ts ts'.
Proof.
  revert ts ts' events. induction n as [|n IH]; intros ts ts' events.
  - cbn [subSteps]. intro H. injection H as <- <-.
    replace (INR 0 * dt) with 0 by (simpl; ring).
    apply Forall2_same. apply flown_0.
  - cbn [subSteps].
    destruct (stepThreats _ _ _ _ ts) as [[ts1 e1]|] eqn:S1; [|discriminate].
    destruct (subSteps _ _ _ _ n ts1) as [[ts2 e2]|] eqn:S2; [|discriminate].
    intro H. injection H as <- <-.
    rewrite S_INR. replace ((INR n + 1) * dt) with (dt + INR n * dt) by ring.
    eapply Forall2_compose; [apply flown_add| |eapply IH; eassumption].
    eapply stepThreats_Forall2; [|eassumption].
    intros t t' ev. apply stepThreat_flown.
Qed.

(** X19: a frame with a positive time acceleration keeps the number and the
    order of the threats and the launch data of each one (id, start, target,
    speed, type), and a threat that is still MOVING after the frame has moved
    on its bearing by speed * rawDeltaTime * currentSpeed, whatever the number
    of sub-steps. *)
Theorem updateSimulation_flight (systems : list System) (rawDeltaTime currentSpeed : R)
    (sim sim' : Sim) :
  0 < currentSpeed ->
  updateSimulation distanceTo systems rawDeltaTime currentSpeed sim = Some sim' ->
  Forall2 (Flight.flown (rawDeltaTime * currentSpeed)) (threats sim) (threats sim').
Proof.
  intros Hs. unfold updateSimulation.
  destruct (threats sim) as [|t ts] eqn:T.
  { intro H. injection H as <-. rewrite T. constructor. }
  destruct (subSteps _ _ _ _ _ _) as [[nextThreats events]|] eqn:S1; [|discriminate].
  intro H. injection H as <-. cbn [threats].
  apply subSteps_flown in S1.
  assert (N : (1 <= substepCount currentSpeed)%nat).
  { unfold substepCount. pose proof (ceil_pos (x := currentSpeed * 2.5)) as P.
    specialize (P ltac:(lra)). lia. }
  assert (N' : 0 < INR (substepCount currentSpeed)) by (apply lt_0_INR; lia).
  replace (INR (substepCount currentSpeed)
           * (rawDeltaTime * currentSpeed / INR (substepCount currentSpeed)))
    with (rawDeltaTime * currentSpeed) in S1 by (field; lra).
  exact S1.
Qed.

(** *** The bookkeeping of a threat *)

Lemma stepThreat_wellFormed (systems : list System) (dt currentSpeed : R)
    (threat threat' : Threat) (events : list Event) :
  stepThreat distanceTo systems dt currentSpeed threat = Some (threat', events) ->
  Flight.wellFormed threat -> Flight.wellFormed threat'.
Proof.
  intros H W. apply stepThreat_shape in H.
  destruct H as [(M & -> & _)|(M & t1 & e1 & e2 & D & Rv & _)]; [exact W|].
  destruct W as (_ & _ & W3).
  assert (P1 : status t1 = MOVING
               /\ (interceptorId t1 <> None ->
                   interceptorPos t1 <> None /\ predictedInterceptPoint t1 <> None
                   /\ detectedByRadarId t1 <> None)).
  { apply detectAndAssign_shape in D.
    destruct D as [(_ & -> & _)|[(r & -> & _)|(r & i & p & _ & -> & _)]].
    - now split.
    - split; [exact M|]. cbn. intro B. destruct (W3 B) as (A1 & A2 & _).
      repeat split; [exact A1|exact A2|discriminate].
    - split; [exact M|]. cbn. intros _. repeat split; discriminate. }
  destruct P1 as (M1 & W1).
  apply resolve_shape in Rv.
  destruct Rv as [(B & P & -> & _)|(t2 & Ht2 & Hr)].
  - repeat split; cbn; try discriminate; try assumption; now apply W1.
  - assert (W2 : interceptorId t2 <> None ->
                 interceptorPos t2 <> None /\ predictedInterceptPoint t2 <> None
                 /\ detectedByRadarId t2 <> None).
    { destruct Ht2 as [->|(p & ->)]; [exact W1|].
      cbn. intro B. destruct (W1 B) as (_ & A2 & A3).
      repeat split; [discriminate|exact A2|exact A3]. }
    assert (M2 : status t2 = MOVING) by (destruct Ht2 as [->|(p & ->)]; exact M1).
    destruct Hr as [(-> & _)|(-> & _)].
    + split; [reflexivity|]. split; [discriminate|exact W2].
    + unfold withCurrent. split; [cbn; congruence|]. split; [cbn; congruence|exact W2].
Qed.

Lemma subSteps_wellFormed (systems : list System) (dt currentSpeed : R) (n : nat)
    (ts ts' : list Threat) (events : list Event) :
  subSteps distanceTo systems dt currentSpeed n ts = Some (ts', events) ->
  Forall Flight.wellFormed ts -> Forall Flight.wellFormed ts'.
Proof.
  revert ts ts' events. induction n as [|n IH]; intros ts ts' events; cbn [subSteps].
  - intro H. now injection H as <- <-.
  - destruct (stepThreats _ _ _ _ ts) as [[ts1 e1]|] eqn:S1; [|discriminate].
    destruct (subSteps _ _ _ _ n ts1) as [[ts2 e2]|] eqn:S2; [|discriminate].
    intro H. injection H as <- <-. intro W.
    eapply IH; [eassumption|].
    apply (@stepThreats_Forall2
             (fun t t' => Flight.wellFormed t -> Flight.wellFormed t')
             systems dt currentSpeed) in S1.
    2:{ intros t t' ev. apply stepThreat_wellFormed. }
    clear S2 IH. induction S1 as [|a b l l' Hab _ IHl]; [constructor|].
    inversion W; subst. constructor; auto.
Qed.

Lemma step_wellFormed (sim sim' : Sim) :
  step distanceTo sim sim' ->
  Forall Flight.wellFormed (threats sim) -> Forall Flight.wellFormed (threats sim').
Proof.
  intros Hs W. destruct Hs as [ty sc nid st tg sim|systems raw cs sim sim' Hu].
  - cbn [launchThreat threats]. apply Forall_app. split; [exact W|].
    constructor; [|constructor].
    split; [discriminate|]. split; [discriminate|]. cbn. intro B. now elim B.
  - revert Hu. unfold updateSimulation.
    destruct (threats sim) as [|t ts] eqn:T.
    { intro H. injection H as <-. now rewrite T. }
    destruct (subSteps _ _ _ _ _ _) as [[nextThreats events]|] eqn:S1; [|discriminate].
    intro H. injection H as <-. cbn [threats].
    eapply subSteps_wellFormed; eassumption.
Qed.

(** X20: in every state the component reaches from its initial one by
    launches, frames and resets, an IMPACTED threat lies at its target, an
    INTERCEPTED threat has a bound interceptor and an interceptor position,
    and every threat with an interceptor id has an interceptor position, a
    predicted intercept point and a detecting radar. *)
Theorem reachable_wellFormed (sim : Sim) :
  reachable distanceTo sim -> Forall Flight.wellFormed (threats sim).
Proof.
  intro H. induction H as [|sim sim' _ IH Hs|sim _ _].
  - constructor.
  - eapply step_wellFormed; eassumption.
  - constructor.
Qed.

(** *** Frames without radar *)

Lemma unseen_refl (t : Threat) : Flight.unseen t t.
Proof. now repeat split. Qed.

Lemma unseen_trans (t1 t2 t3 : Threat) :
  Flight.unseen t1 t2 -> Flight.unseen t2 t3 -> Flight.unseen t1 t3.
Proof.
  intros (D1 & B1 & K1) (D2 & B2 & K2). repeat split; try congruence.
  intros B K. apply K1; [exact B|]. apply K2; [|exact K]. now rewrite B1.
Qed.

Lemma no_radar_find (systems : list System) (p : LatLng) :
  (forall s, In s systems -> Types.activeWithRole Types.RADAR s = false) ->
  find (inRange distanceTo p) (filter (Types.activeWithRole Types.RADAR) systems) = None.
Proof.
  intro H. induction systems as [|s l IH]; [reflexivity|].
  cbn [filter]. rewrite (H s (or_introl eq_refl)). apply IH.
  intros s' Hs'. apply H. now right.
Qed.

Lemma stepThreat_unseen (systems : list System) (dt currentSpeed : R)
    (threat threat' : Threat) (events : list Event) :
  (forall s, In s systems -> Types.activeWithRole Types.RADAR s = false) ->
  stepThreat distanceTo systems dt currentSpeed threat = Some (threat', events) ->
  Flight.unseen threat threat'
  /\ (truthy (interceptorId threat) = false -> kills events = 0%nat).
Proof.
  intros NR H. apply stepThreat_shape in H.
  destruct H as [(M & -> & ->)|(M & t1 & e1 & e2 & D & Rv & ->)].
  { split; [apply unseen_refl|reflexivity]. }
  unfold detectAndAssign in D. rewrite (@no_radar_find systems (nextPosition dt threat) NR) in D.
  injection D as <- <-.
  apply resolve_shape in Rv.
  destruct Rv as [(B & P & -> & ->)|(t2 & Ht2 & [(-> & ->)|(-> & ->)])].
  - split; [|congruence]. repeat split. congruence.
  - split; [|reflexivity].
    destruct Ht2 as [->|(p & ->)]; repeat split; discriminate.
  - split; [|reflexivity].
    destruct Ht2 as [->|(p & ->)]; repeat split; cbn; congruence.
Qed.

Lemma stepThreats_unseen (systems : list System) (dt currentSpeed : R)
    (ts ts' : list Threat) (events : list Event) :
  (forall s, In s systems -> Types.activeWithRole Types.RADAR s = false) ->
  stepThreats distanceTo systems dt currentSpeed ts = Some (ts', events) ->
  Forall2 Flight.unseen ts ts'
  /\ (Forall (fun t => truthy (interceptorId t) = false) ts -> kills events = 0%nat).
Proof.
  intro NR. revert ts' events. induction ts as [|t ts IH]; intros ts' events; cbn [stepThreats].
  - intro H. injection H as <- <-. split; [constructor|reflexivity].
  - destruct (stepThreat _ _ _ _ t) as [[t' e1]|] eqn:S1; [|discriminate].
    destruct (stepThreats _ _ _ _ ts) as [[rest' e2]|] eqn:S2; [|discriminate].
    intro H. injection H as <- <-.
    apply (stepThreat_unseen _ _ _ _ NR) in S1. destruct S1 as (U1 & K1).
    destruct (IH _ _ eq_refl) as (U2 & K2).
    split; [now constructor|].
    intro F. inversion F; subst. rewrite kills_app, K1, K2 by assumption. reflexivity.
Qed.

Lemma subSteps_unseen (systems : list System) (dt currentSpeed : R) (n : nat)
    (ts ts' : list Threat) (events : list Event) :
  (forall s, In s systems -> Types.activeWithRole Types.RADAR s = false) ->
  subSteps distanceTo systems dt currentSpeed n ts = Some (ts', events) ->
  Forall2 Flight.unseen ts ts'
  /\ (Forall (fun t => truthy (interceptorId t) = false) ts -> kills events = 0%nat).
Proof.
  intro NR. revert ts ts' events.
  induction n as [|n IH]; intros ts ts' events; cbn [subSteps].
  - intro H. injection H as <- <-.
    split; [apply Forall2_same, unseen_refl|reflexivity].
  - destruct (stepThreats _ _ _ _ ts) as [[ts1 e1]|] eqn:S1; [|discriminate].
    destruct (subSteps _ _ _ _ n ts1) as [[ts2 e2]|] eqn:S2; [|discriminate].
    intro H. injection H as <- <-.
    apply (stepThreats_unseen _ _ _ _ NR) in S1. destruct S1 as (U1 & K1).
    apply IH in S2. destruct S2 as (U2 & K2).
    split; [eapply Forall2_compose; [apply unseen_trans|eassumption|eassumption]|].
    intro F. rewrite kills_app, K1 by exact F. rewrite K2; [reflexivity|].
    clear K1 K2 U2. induction U1 as [|a b l l' Hab _ IHl]; [constructor|].
    inversion F; subst. constructor; [|now apply IHl].
    destruct Hab as (_ & B & _). now rewrite B.
Qed.

(** X21: when no unit is an active radar, a frame detects nothing and binds
    no interceptor (the radar id and the interceptor id of every threat stay
    as they are), a threat without a bound interceptor is not intercepted, and
    when no threat has a bound interceptor the intercepted count stays as it
    is, whatever interceptors are deployed. *)
Theorem updateSimulation_no_radar (systems : list System) (rawDeltaTime currentSpeed : R)
    (sim sim' : Sim) :
  (forall s, In s systems -> Types.activeWithRole Types.RADAR s = false) ->
  updateSimulation distanceTo systems rawDeltaTime currentSpeed sim = Some sim' ->
  Forall2 Flight.unseen (threats sim) (threats sim')
  /\ (Forall (fun t => truthy (interceptorId t) = false) (threats sim) ->
      intercepted (stats sim') = intercepted (stats sim)).
Proof.
  intro NR. unfold updateSimulation.
  destruct (threats sim) as [|t ts] eqn:T.
  { intro H. injection H as <-. rewrite T. split; [constructor|reflexivity]. }
  destruct (subSteps _ _ _ _ _ _) as [[nextThreats events]|] eqn:S1; [|discriminate].
  intro H. injection H as <-. cbn [threats stats].
  apply (subSteps_unseen _ _ _ _ _ NR) in S1. destruct S1 as (U & K).
  split; [exact U|]. intro F.
  destruct (applyEvents_stats events sim) as (_ & I1 & _).
  rewrite I1, (K F). lia.
Qed.

(** *** Logs and explosions *)

Lemma addLog_length (entry : LogEntry) (logs : list LogEntry) :
  (List.length (addLog entry logs) <= 100)%nat.
Proof. unfold addLog. apply firstn_le_length. Qed.

Lemma applyEvents_logs (events : list Event) (sim : Sim) :
  let sim' := fold_left applyEvent events sim in
  ((List.length (logs sim) <= 100)%nat -> (List.length (logs sim') <= 100)%nat)
  /\ List.length (explosions sim') = (List.length (explosions sim) + kills events + hits events)%nat.
Proof.
  revert sim. induction events as [|e events IH]; intro sim; cbn [fold_left].
  - cbn. split; [tauto|lia].
  - destruct (IH (applyEvent sim e)) as (L1 & E1).
    cbv zeta. split.
    + intros _. apply L1. destruct e; cbn [applyEvent logs]; apply addLog_length.
    + rewrite E1. change (e :: events) with ([e] ++ events).
      rewrite kills_app, hits_app.
      destruct e; cbn [applyEvent explosions]; rewrite ?length_app; cbn; lia.
Qed.

(** X22: a frame keeps the log at no more than 100 entries, and it adds one
    explosion for each threat it resolves: the explosions grow by as much as
    the intercepted and impacted counts together. *)
Theorem updateSimulation_logs (systems : list System) (rawDeltaTime currentSpeed : R)
    (sim sim' : Sim) :
  (List.length (logs sim) <= 100)%nat ->
  updateSimulation distanceTo systems rawDeltaTime currentSpeed sim = Some sim' ->
  (List.length (logs sim') <= 100)%nat
  /\ (List.length (explosions sim') + intercepted (stats sim) + impacted (stats sim)
      = List.length (explosions sim) + intercepted (stats sim') + impacted (stats sim'))%nat.
Proof.
  intro HL. unfold updateSimulation.
  destruct (threats sim) as [|t ts] eqn:T.
  { intro H. injection H as <-. split; [exact HL|lia]. }
  destruct (subSteps _ _ _ _ _ _) as [[nextThreats events]|] eqn:S1; [|discriminate].
  intro H. injection H as <-. cbn [logs explosions stats].
  destruct (applyEvents_logs events sim) as (L1 & E1).
  destruct (applyEvents_stats events sim) as (_ & I1 & P1).
  split; [now apply L1|]. rewrite E1, I1, P1. lia.
Qed.

End FrameFacts.

Section FrameExamples.
Import AttackSimulator SimulatorExamples FrameExamples.
Local Open Scope R_scope.

(** Leaflet's distance between two points of the equator is the arc between
    them. *)
Lemma earthDistance_equator (a b : R) :
  a <= b < a + 180 ->
  earthDistance (L.latLng 0 a) (L.latLng 0 b) = 6371000 * ((b - a) * (PI / 180)).
Proof.
  intros [Hab Hba]. unfold earthDistance. cbn [L.lat L.lng].
  pose proof PI2_1 as P1. pose proof PI_4 as P4.
  set (th := (b - a) * (PI / 180) / 2).
  assert (T0 : 0 <= th) by (unfold th; nra).
  assert (T1 : th < PI / 2) by (unfold th; nra).
  replace ((0 - 0) * (PI / 180) / 2) with 0 by (unfold Rdiv; ring).
  replace (0 * (PI / 180)) with 0 by ring.
  rewrite sin_0, cos_0.
  assert (S0 : 0 <= sin th) by (apply sin_ge_0; lra).
  assert (C0 : 0 < cos th) by (apply cos_gt_0; lra).
  replace (0 * 0 + 1 * 1 * sin th * sin th) with (sin th * sin th) by ring.
  replace (1 - sin th * sin th) with (cos th * cos th)
    by (pose proof (sin2_cos2 th) as E; unfold Rsqr in E; lra).
  rewrite !sqrt_square by lra.
  unfold atan2. destruct (Rlt_dec 0 (cos th)) as [_|N]; [|contradiction].
  change (sin th / cos th) with (tan th).
  rewrite atan_tan by lra. unfold th. field.
Qed.

(** A sub-step of the cruising missile while it is more than a tenth of a
    degree from its target: with an interceptor but no radar deployed it
    flies on. *)
Lemma cruising_step (dt cur : R) :
  0 <= cur + 0.0075 * dt <= 0.9 ->
  stepThreat earthDistance [barak true] dt 1 (cruisingAt cur)
  = Some (cruisingAt (cur + 0.0075 * dt), []).
Proof.
  intro H. unfold stepThreat.
  change (isMoving (status (cruisingAt cur))) with true. cbn [negb].
  assert (N : nextPosition dt (cruisingAt cur) = L.latLng 0 (cur + 0.0075 * dt)).
  { unfold nextPosition.
    cbn [cruisingAt withCurrent withStatus eastbound target start current speed L.lat L.lng].
    rewrite advance_east by lra. reflexivity. }
  rewrite N.
  rewrite (pursued_detectAndAssign true earthDistance _ (cruisingAt cur)).
  unfold resolve. change (truthy (interceptorId (cruisingAt cur))) with false.
  cbv beta iota. unfold impactOrMove.
  change (target (cruisingAt cur)) with (L.latLng 0 1 : LatLng).
  rewrite Rltb_false; [reflexivity|].
  rewrite earthDistance_equator by lra. rewrite impactThreshold_1.
  pose proof PI2_1. nra.
Qed.

Lemma cruising_frame :
  updateSimulation earthDistance [barak true] 0.03 1 cruising = Some cruised.
Proof.
  unfold updateSimulation. rewrite substepCount_1.
  replace (0.03 * 1 / INR 3) with 0.01 by (simpl; lra).
  cbn [cruising threats subSteps stepThreats].
  rewrite cruising_step by lra. cbn [stepThreats].
  rewrite cruising_step by lra. cbn [stepThreats].
  rewrite cruising_step by lra. reflexivity.
Qed.

Lemma barak_no_radar (s : System) :
  In s [barak true] -> Types.activeWithRole Types.RADAR s = false.
Proof. intros [<-|[]]. reflexivity. Qed.

Lemma landed_reachable : reachable earthDistance landed.
Proof.
  apply (@reachable_step earthDistance shortHop landed).
  - apply (@reachable_step earthDistance initial shortHop); [constructor|].
    apply step_launch.
  - apply (@step_frame earthDistance [] 0.03 1 shortHop landed). exact shortHop_frame.
Qed.

Lemma updateSimulation_flight_witness :
  0 < 1
  /\ updateSimulation earthDistance [barak true] 0.03 1 cruising = Some cruised
  /\ Forall2 (Flight.flown (0.03 * 1)) (threats cruising) (threats cruised).
Proof.
  split; [lra|]. split; [exact cruising_frame|].
  apply (@updateSimulation_flight earthDistance [barak true] 0.03 1 cruising cruised);
    [lra|exact cruising_frame].
Defined.

Lemma reachable_wellFormed_witness :
  reachable earthDistance landed /\ Forall Flight.wellFormed (threats landed).
Proof.
  split; [exact landed_reachable|].
  apply (@reachable_wellFormed earthDistance landed). exact landed_reachable.
Defined.

Lemma updateSimulation_no_radar_witness :
  Types.activeWithRole Types.RADAR (barak true) = false
  /\ updateSimulation earthDistance [barak true] 0.03 1 cruising = Some cruised
  /\ Forall2 Flight.unseen (threats cruising) (threats cruised)
  /\ intercepted (stats cruised) = intercepted (stats cruising).
Proof.
  split; [reflexivity|]. split; [exact cruising_frame|].
  destruct (@updateSimulation_no_radar earthDistance [barak true] 0.03 1 cruising cruised
              barak_no_radar cruising_frame) as (U & K).
  split; [exact U|]. apply K. repeat constructor.
Defined.

Lemma updateSimulation_logs_witness :
  (List.length (logs shortHop) <= 100)%nat
  /\ updateSimulation earthDistance [] 0.03 1 shortHop = Some landed
  /\ (List.length (logs landed) <= 100)%nat
  /\ (List.length (explosions landed) + intercepted (stats shortHop)
      + impacted (stats shortHop)
      = List.length (explosions shortHop) + intercepted (stats landed)
        + impacted (stats landed))%nat.
Proof.
  assert (L0 : (List.length (logs shortHop) <= 100)%nat) by (cbn; lia).
  split; [exact L0|]. split; [exact shortHop_frame|].
  exact (@updateSimulation_logs earthDistance [] 0.03 1 shortHop landed L0 shortHop_frame).
Defined.

End FrameExamples.
(** * The engagement runs *)

Section EngagementFacts.
Import AttackSimulator SimulatorExamples EngagementExamples.
Local Open Scope string_scope.
Local Open Scope R_scope.

Lemma earthDistance_equator_west (a b : R) :
  b <= a < b + 180 ->
  earthDistance (L.latLng 0 a) (L.latLng 0 b) = 6371000 * ((a - b) * (PI / 180)).
Proof.
  intros [Hab Hba]. unfold earthDistance. cbn [L.lat L.lng].
  pose proof PI2_1 as P1. pose proof PI_4 as P4.
  set (th := (a - b) * (PI / 180) / 2).
  assert (T0 : 0 <= th) by (unfold th; nra).
  assert (T1 : th < PI / 2) by (unfold th; nra).
  replace ((0 - 0) * (PI / 180) / 2) with 0 by (unfold Rdiv; ring).
  replace (0 * (PI / 180)) with 0 by ring.
  replace ((b - a) * (PI / 180) / 2) with (- th) by (unfold th, Rdiv; ring).
  rewrite sin_0, cos_0, sin_neg.
  assert (S0 : 0 <= sin th) by (apply sin_ge_0; lra).
  assert (C0 : 0 < cos th) by (apply cos_gt_0; lra).
  replace (0 * 0 + 1 * 1 * - sin th * - sin th) with (sin th * sin th) by ring.
  replace (1 - sin th * sin th) with (cos th * cos th)
    by (pose proof (sin2_cos2 th) as E; unfold Rsqr in E; lra).
  rewrite !sqrt_square by lra.
  unfold atan2. destruct (Rlt_dec 0 (cos th)) as [_|N]; [|contradiction].
  change (sin th / cos th) with (tan th).
  rewrite atan_tan by lra. unfold th. field.
Qed.

(** Two points of the equator no more than 0.007 degrees apart are less than
    1050 m apart; two points at least 0.0099 degrees apart are not. *)
Lemma equator_near (a b : R) :
  Rabs (a - b) <= 0.007 -> earthDistance (L.latLng 0 a) (L.latLng 0 b) < 1050.
Proof.
  intro H. pose proof PI_4 as P4. pose proof PI2_1 as P1.
  unfold Rabs in H. destruct (Rcase_abs (a - b)) as [C|C].
  all: destruct (Rle_dec a b) as [Hab|Hab].
  all: try (rewrite earthDistance_equator by lra; nra).
  all: rewrite earthDistance_equator_west by lra; nra.
Qed.

Lemma equator_far (a b : R) :
  b + 0.0099 <= a <= b + 100 -> 1050 <= earthDistance (L.latLng 0 a) (L.latLng 0 b).
Proof.
  intro H. pose proof PI2_3_2 as P3.
  rewrite earthDistance_equator_west by lra. nra.
Qed.

Lemma advance_west (from : LatLng) (dLat dLng v dt : R) :
  dLat = 0 -> dLng < 0 ->
  advance from dLat dLng v dt = L.latLng (L.lat from) (L.lng from - v * dt).
Proof.
  intros -> H. unfold advance, atan2.
  destruct (Rlt_dec 0 dLng) as [N|_]; [lra|].
  destruct (Rlt_dec dLng 0) as [_|N]; [|contradiction].
  destruct (Rle_dec 0 0) as [_|N]; [|lra].
  unfold Rdiv. rewrite Rmult_0_l, atan_0, Rplus_0_l, sin_PI, cos_PI.
  f_equal; ring.
Qed.

(** A sub-step is detection and assignment, then the rest. *)
Lemma stepThreat_of (distanceTo : LatLng -> LatLng -> R) (systems : list System)
    (dt currentSpeed : R) (threat threat1 threat2 : Threat) (events1 events2 : list Event) :
  isMoving (status threat) = true ->
  detectAndAssign distanceTo systems (nextPosition dt threat) threat
    = Some (threat1, events1) ->
  resolve distanceTo systems dt currentSpeed (nextPosition dt threat) threat1
    = (threat2, events2) ->
  stepThreat distanceTo systems dt currentSpeed threat = Some (threat2, (events1 ++ events2)%list).
Proof.
  intros M D Rv. unfold stepThreat. rewrite M. cbn [negb]. now rewrite D, Rv.
Qed.

(** *** The missile of the examples *)

Lemma missile_nextPosition (s : Status) (cur : R) (u : option string)
    (i p : option LatLng) (r : option string) (dt : R) :
  nextPosition dt (missile s cur u i p r) = L.latLng 0 (cur + 0.0075 * dt).
Proof.
  unfold nextPosition. cbn [missile target start current speed L.lat L.lng].
  rewrite advance_east by lra.
  cbn [L.lat L.lng speedMod]. unfold BASE_THREAT_SPEED. f_equal. lra.
Qed.

Lemma missile_killRadius (s : Status) (cur : R) (u : option string)
    (i p : option LatLng) (r : option string) :
  killRadius 1 (missile s cur u i p r) = 1050.
Proof.
  unfold killRadius. rewrite Rltb_false by lra.
  cbn [missile speed speedMod]. unfold BASE_THREAT_SPEED. lra.
Qed.

Lemma missile_velocity (s : Status) (cur : R) (u : option string)
    (i p : option LatLng) (r : option string) :
  velocity (missile s cur u i p r) = (0.0075, 0).
Proof.
  rewrite velocity_east by (cbn; lra).
  cbn [missile speed speedMod]. unfold BASE_THREAT_SPEED. f_equal. lra.
Qed.

(** The intercept point of the missile for a faster unit ahead of it on the
    equator: where the shot and the missile meet. *)
Lemma missile_intercept (s : Status) (cur : R) (u : option string)
    (i p : option LatLng) (r : option string)
    (unitId : string) (d range : R) (role : Types.SystemRole) (Vi : R)
    (on : option bool) (descr : string) (pred : R) :
  0.0075 < Vi -> cur <= d ->
  (pred - cur) * (0.0075 + Vi) = 0.0075 * (d - cur) ->
  calculateIntercept (missile s cur u i p r)
    (Types.mkSystem unitId 0 d range role Vi on descr)
  = InterceptAt (L.latLng 0 pred).
Proof.
  intros HV Hd Hp.
  unfold calculateIntercept, interceptTime, shotSpeedOf.
  cbn [Types.shotSpeed]. rewrite orElse_nonzero by lra.
  rewrite (@coefficients_eq (missile s cur u i p r)
             (Types.mkSystem unitId 0 d range role Vi on descr) Vi 0.0075 0
             (missile_velocity s cur u i p r)).
  cbn [missile current L.lat L.lng Types.lat Types.lng].
  set (a := 0.0075 * 0.0075 + 0 * 0 - Vi * Vi).
  set (b := 2 * (0.0075 * (cur - d) + 0 * (0 - 0))).
  set (c := (cur - d) * (cur - d) + (0 - 0) * (0 - 0)).
  assert (Ha : a < 0) by (unfold a; nra).
  replace (b * b - 4 * a * c) with ((2 * Vi * (d - cur)) * (2 * Vi * (d - cur)))
    by (unfold a, b, c; ring).
  rewrite sqrt_square by nra.
  destruct (Rlt_dec (2 * Vi * (d - cur) * (2 * Vi * (d - cur))) 0) as [N|_].
  { pose proof (Rle_0_sqr (2 * Vi * (d - cur))) as Q. unfold Rsqr in Q. lra. }
  unfold divide. destruct (Req_dec_T (2 * a) 0) as [N|_]; [lra|].
  assert (Ht : (- b - 2 * Vi * (d - cur)) / (2 * a) = (d - cur) / (0.0075 + Vi)).
  { unfold a, b. field. split; nra. }
  rewrite Ht.
  assert (H0 : 0 <= (d - cur) / (0.0075 + Vi)).
  { apply Rmult_le_pos; [lra|]. apply Rlt_le, Rinv_0_lt_compat. lra. }
  destruct (Rlt_dec _ 0) as [N|_]; [lra|].
  unfold positionAt. rewrite missile_velocity.
  cbn [missile current L.lat L.lng]. f_equal. f_equal; [ring|].
  assert (E : pred - cur = 0.0075 * ((d - cur) / (0.0075 + Vi))).
  { unfold Rdiv. rewrite <- Rmult_assoc, <- Hp. field. lra. }
  lra.
Qed.

Lemma radarEast_inRange (x : R) :
  0 <= x <= 1 -> inRange earthDistance (L.latLng 0 x) radarEast = true.
Proof.
  intro H. unfold inRange. apply Rleb_true.
  change (position radarEast) with (L.latLng 0 1 : LatLng).
  change (Types.range radarEast) with 500.
  rewrite earthDistance_equator by lra.
  pose proof PI_4. pose proof PI2_1. nra.
Qed.

Lemma unit_inRange (pred : R) (unitId : string) (d : R) (role : Types.SystemRole)
    (Vi : R) (on : option bool) (descr : string) :
  pred <= d <= pred + 1 ->
  inRange earthDistance (L.latLng 0 pred) (Types.mkSystem unitId 0 d 150 role Vi on descr)
  = true.
Proof.
  intro H. unfold inRange. apply Rleb_true.
  change (position (Types.mkSystem unitId 0 d 150 role Vi on descr))
    with (L.latLng 0 d : LatLng).
  cbn [Types.range].
  rewrite earthDistance_equator by lra.
  pose proof PI_4. pose proof PI2_1. nra.
Qed.

End EngagementFacts.

Section EngagementSteps.
Import AttackSimulator SimulatorExamples EngagementExamples.
Local Open Scope string_scope.
Local Open Scope R_scope.

(** The units of a frame: [radarEast] is their one active radar. *)
Variable systems : list System.
Hypothesis radars : filter (Types.activeWithRole Types.RADAR) systems = [radarEast].

(** Detection of a threat that is bound already: the radar id is written,
    the binding is left alone. *)
Lemma missile_detect_bound (s : Status) (cur : R) (u : option string)
    (i p : option LatLng) (r : option string) (x : R) :
  0 <= x <= 1 -> truthy u = true ->
  detectAndAssign earthDistance systems (L.latLng 0 x) (missile s cur u i p r)
  = Some (missile s cur u i p (Some "r1"), []).
Proof.
  intros Hx B. unfold detectAndAssign. rewrite radars. cbn [find].
  rewrite radarEast_inRange by exact Hx.
  change (interceptorId (withDetectedBy (missile s cur u i p r) (Types.id radarEast)))
    with u.
  rewrite B. reflexivity.
Qed.

(** Detection and assignment of a threat whose [interceptorId] is not
    truthy: it is bound to the fastest active interceptor, a faster unit
    ahead of it on the equator. *)
Lemma missile_detect_bind (s : Status) (cur : R) (u : option string)
    (i p : option LatLng) (r : option string) (x : R)
    (unitId : string) (d Vi : R) (on : option bool) (descr : string)
    (rest : list System) (pred : R) :
  0 <= x <= 1 -> truthy u = false ->
  sortBySpeed (filter (Types.activeWithRole Types.INTERCEPTOR) systems)
  = Types.mkSystem unitId 0 d 150 Types.INTERCEPTOR Vi on descr :: rest ->
  0.0075 < Vi -> cur <= d ->
  (pred - cur) * (0.0075 + Vi) = 0.0075 * (d - cur) ->
  pred <= d <= pred + 1 ->
  detectAndAssign earthDistance systems (L.latLng 0 x) (missile s cur u i p r)
  = Some (missile s cur (Some unitId) (Some (L.latLng 0 d)) (Some (L.latLng 0 pred))
            (Some "r1"),
          [Locked "t1"]).
Proof.
  intros Hx B Hc HV Hd Hp Hr. unfold detectAndAssign. rewrite radars. cbn [find].
  rewrite radarEast_inRange by exact Hx.
  change (interceptorId (withDetectedBy (missile s cur u i p r) (Types.id radarEast)))
    with u.
  rewrite B. cbn [negb]. rewrite Hc. cbn [firstFeasible].
  change (withDetectedBy (missile s cur u i p r) (Types.id radarEast))
    with (missile s cur u i p (Some "r1")).
  rewrite (@missile_intercept s cur u i p (Some "r1") unitId d 150 Types.INTERCEPTOR Vi
             on descr pred HV Hd Hp).
  rewrite unit_inRange by exact Hr. reflexivity.
Qed.

(** The rest of the sub-step for a threat whose [interceptorId] is not
    truthy: no pursuit and no kill check; away from its target it moves on. *)
Lemma missile_resolve_move (cur : R) (u : option string)
    (i p : option LatLng) (r : option string) (dt x : R) :
  truthy u = false -> 0 <= x <= 0.9 ->
  resolve earthDistance systems dt 1 (L.latLng 0 x) (missile MOVING cur u i p r)
  = (missile MOVING x u i p r, []).
Proof.
  intros B Hx. unfold resolve.
  change (interceptorId (missile MOVING cur u i p r)) with u. rewrite B.
  unfold impactOrMove.
  change (target (missile MOVING cur u i p r)) with (L.latLng 0 1 : LatLng).
  rewrite Rltb_false; [reflexivity|].
  rewrite earthDistance_equator by lra. rewrite impactThreshold_1.
  pose proof PI2_1. nra.
Qed.

(** The next position of the shot of a bound missile, west of the point it
    flies to: the shot moves with the shot speed of the bound unit. *)
Lemma missile_nextInterceptorPosition (s : Status) (cur : R) (unitId : string)
    (ipos pred : R) (r : option string) (dt : R) (nextPos : LatLng)
    (unit : System) (Vi : R) :
  find (fun sys => String.eqb (Types.id sys) unitId) systems = Some unit ->
  Types.shotSpeed unit = Vi -> Vi <> 0 -> pred < ipos ->
  nextInterceptorPosition systems dt nextPos
    (missile s cur (Some unitId) (Some (L.latLng 0 ipos)) (Some (L.latLng 0 pred)) r)
    (L.latLng 0 ipos)
  = L.latLng 0 (ipos - Vi * dt).
Proof.
  intros Hf Hv Hn Hp. unfold nextInterceptorPosition.
  cbn [missile predictedInterceptPoint interceptorId].
  rewrite Hf, Hv, orElse_nonzero by exact Hn.
  cbn [L.lat L.lng]. rewrite advance_west by lra. reflexivity.
Qed.

(** The rest of the sub-step for a bound missile whose shot stays out of the
    kill radius: the shot and the missile move on. *)
Lemma missile_resolve_pursue (cur : R) (unitId : string) (ipos pred : R)
    (r : option string) (dt x : R) (unit : System) (Vi ipos' : R) :
  truthy (Some unitId) = true ->
  find (fun sys => String.eqb (Types.id sys) unitId) systems = Some unit ->
  Types.shotSpeed unit = Vi -> Vi <> 0 -> pred < ipos ->
  ipos' = ipos - Vi * dt -> x + 0.0099 <= ipos' <= x + 100 -> 0 <= x <= 0.9 ->
  resolve earthDistance systems dt 1 (L.latLng 0 x)
    (missile MOVING cur (Some unitId) (Some (L.latLng 0 ipos)) (Some (L.latLng 0 pred)) r)
  = (missile MOVING x (Some unitId) (Some (L.latLng 0 ipos')) (Some (L.latLng 0 pred)) r,
     []).
Proof.
  intros B Hf Hv Hn Hp Hi Hg Hx. unfold resolve.
  cbn [missile interceptorId interceptorPos]. rewrite B.
  change (mkThreat "t1" (L.latLng 0 0) (L.latLng 0 1) (L.latLng 0 cur) MOVING
            (BASE_THREAT_SPEED * speedMod StressTest.cruise * 1) "cruise"
            (Some unitId) (Some (L.latLng 0 ipos)) (Some (L.latLng 0 pred)) r)
    with (missile MOVING cur (Some unitId) (Some (L.latLng 0 ipos))
            (Some (L.latLng 0 pred)) r).
  rewrite (@missile_nextInterceptorPosition MOVING cur unitId ipos pred r dt
             (L.latLng 0 x) unit Vi Hf Hv Hn Hp).
  rewrite missile_killRadius, <- Hi.
  rewrite Rltb_false by (apply equator_far; lra).
  unfold impactOrMove.
  change (target (withInterceptorPos _ _)) with (L.latLng 0 1 : LatLng).
  rewrite Rltb_false; [reflexivity|].
  rewrite earthDistance_equator by lra. rewrite impactThreshold_1.
  pose proof PI2_1. nra.
Qed.

(** The rest of the sub-step for a bound missile whose shot comes within
    the kill radius: the missile is intercepted at its next position. *)
Lemma missile_resolve_kill (cur : R) (unitId : string) (ipos pred : R)
    (r : option string) (dt x : R) (unit : System) (Vi : R) :
  truthy (Some unitId) = true ->
  find (fun sys => String.eqb (Types.id sys) unitId) systems = Some unit ->
  Types.shotSpeed unit = Vi -> Vi <> 0 -> pred < ipos ->
  Rabs (ipos - Vi * dt - x) <= 0.007 ->
  resolve earthDistance systems dt 1 (L.latLng 0 x)
    (missile MOVING cur (Some unitId) (Some (L.latLng 0 ipos)) (Some (L.latLng 0 pred)) r)
  = (missile INTERCEPTED x (Some unitId) (Some (L.latLng 0 ipos))
       (Some (L.latLng 0 pred)) r,
     [Killed "t1" (L.latLng 0 x)]).
Proof.
  intros B Hf Hv Hn Hp Hg. unfold resolve.
  cbn [missile interceptorId interceptorPos]. rewrite B.
  change (mkThreat "t1" (L.latLng 0 0) (L.latLng 0 1) (L.latLng 0 cur) MOVING
            (BASE_THREAT_SPEED * speedMod StressTest.cruise * 1) "cruise"
            (Some unitId) (Some (L.latLng 0 ipos)) (Some (L.latLng 0 pred)) r)
    with (missile MOVING cur (Some unitId) (Some (L.latLng 0 ipos))
            (Some (L.latLng 0 pred)) r).
  rewrite (@missile_nextInterceptorPosition MOVING cur unitId ipos pred r dt
             (L.latLng 0 x) unit Vi Hf Hv Hn Hp).
  rewrite missile_killRadius.
  rewrite Rltb_true by (apply equator_near; exact Hg).
  reflexivity.
Qed.

(** *** Whole sub-steps *)

Lemma missile_step_pursue (cur : R) (unitId : string) (ipos pred : R)
    (r : option string) (dt : R) (unit : System) (Vi cur' ipos' : R) :
  truthy (Some unitId) = true ->
  find (fun sys => String.eqb (Types.id sys) unitId) systems = Some unit ->
  Types.shotSpeed unit = Vi -> Vi <> 0 -> pred < ipos ->
  cur' = cur + 0.0075 * dt -> ipos' = ipos - Vi * dt ->
  cur' + 0.0099 <= ipos' <= cur' + 100 -> 0 <= cur' <= 0.9 ->
  stepThreat earthDistance systems dt 1
    (missile MOVING cur (Some unitId) (Some (L.latLng 0 ipos)) (Some (L.latLng 0 pred)) r)
  = Some (missile MOVING cur' (Some unitId) (Some (L.latLng 0 ipos'))
            (Some (L.latLng 0 pred)) (Some "r1"),
          []).
Proof.
  intros B Hf Hv Hn Hp Hc Hi Hg Hx.
  apply (@stepThreat_of earthDistance systems dt 1 _
           (missile MOVING cur (Some unitId) (Some (L.latLng 0 ipos))
              (Some (L.latLng 0 pred)) (Some "r1")) _ [] []); [reflexivity| |].
  - rewrite missile_nextPosition, <- Hc. apply missile_detect_bound; [lra|exact B].
  - rewrite missile_nextPosition, <- Hc.
    now apply (@missile_resolve_pursue cur unitId ipos pred (Some "r1") dt cur' unit Vi ipos').
Qed.

Lemma missile_step_kill (cur : R) (unitId : string) (ipos pred : R)
    (r : option string) (dt : R) (unit : System) (Vi cur' : R) :
  truthy (Some unitId) = true ->
  find (fun sys => String.eqb (Types.id sys) unitId) systems = Some unit ->
  Types.shotSpeed unit = Vi -> Vi <> 0 -> pred < ipos ->
  cur' = cur + 0.0075 * dt -> 0 <= cur' <= 1 ->
  Rabs (ipos - Vi * dt - cur') <= 0.007 ->
  stepThreat earthDistance systems dt 1
    (missile MOVING cur (Some unitId) (Some (L.latLng 0 ipos)) (Some (L.latLng 0 pred)) r)
  = Some (missile INTERCEPTED cur' (Some unitId) (Some (L.latLng 0 ipos))
            (Some (L.latLng 0 pred)) (Some "r1"),
          [Killed "t1" (L.latLng 0 cur')]).
Proof.
  intros B Hf Hv Hn Hp Hc Hx Hg.
  apply (@stepThreat_of earthDistance systems dt 1 _
           (missile MOVING cur (Some unitId) (Some (L.latLng 0 ipos))
              (Some (L.latLng 0 pred)) (Some "r1")) _ [] [Killed "t1" (L.latLng 0 cur')]);
    [reflexivity| |].
  - rewrite missile_nextPosition, <- Hc. apply missile_detect_bound; [lra|exact B].
  - rewrite missile_nextPosition, <- Hc.
    now apply (@missile_resolve_kill cur unitId ipos pred (Some "r1") dt cur' unit Vi).
Qed.

(** A sub-step that binds the missile to a unit whose id is not truthy: the
    lock is logged, and neither pursuit nor kill check follows. *)
Lemma missile_step_bind_move (cur : R) (u : option string) (i p : option LatLng)
    (r : option string) (dt : R)
    (unitId : string) (d Vi : R) (on : option bool) (descr : string)
    (rest : list System) (pred cur' : R) :
  truthy u = false -> truthy (Some unitId) = false ->
  sortBySpeed (filter (Types.activeWithRole Types.INTERCEPTOR) systems)
  = Types.mkSystem unitId 0 d 150 Types.INTERCEPTOR Vi on descr :: rest ->
  0.0075 < Vi -> cur <= d ->
  (pred - cur) * (0.0075 + Vi) = 0.0075 * (d - cur) ->
  pred <= d <= pred + 1 ->
  cur' = cur + 0.0075 * dt -> 0 <= cur' <= 0.9 ->
  stepThreat earthDistance systems dt 1 (missile MOVING cur u i p r)
  = Some (missile MOVING cur' (Some unitId) (Some (L.latLng 0 d))
            (Some (L.latLng 0 pred)) (Some "r1"),
          [Locked "t1"]).
Proof.
  intros B B' Hs HV Hd Hp Hr Hc Hx.
  apply (@stepThreat_of earthDistance systems dt 1 _
           (missile MOVING cur (Some unitId) (Some (L.latLng 0 d))
              (Some (L.latLng 0 pred)) (Some "r1")) _ [Locked "t1"] []); [reflexivity| |].
  - rewrite missile_nextPosition, <- Hc.
    apply (@missile_detect_bind MOVING cur u i p r cur' unitId d Vi on descr rest pred);
      try assumption. lra.
  - rewrite missile_nextPosition, <- Hc. now apply missile_resolve_move.
Qed.

(** A sub-step that binds the missile and fires: the shot starts at the
    unit and stays out of the kill radius. *)
Lemma missile_step_bind_pursue (cur : R) (u : option string) (i p : option LatLng)
    (r : option string) (dt : R)
    (unitId : string) (d Vi : R) (on : option bool) (descr : string)
    (rest : list System) (pred cur' ipos' : R) (unit : System) :
  truthy u = false -> truthy (Some unitId) = true ->
  sortBySpeed (filter (Types.activeWithRole Types.INTERCEPTOR) systems)
  = Types.mkSystem unitId 0 d 150 Types.INTERCEPTOR Vi on descr :: rest ->
  find (fun sys => String.eqb (Types.id sys) unitId) systems = Some unit ->
  Types.shotSpeed unit = Vi ->
  0.0075 < Vi -> cur <= d ->
  (pred - cur) * (0.0075 + Vi) = 0.0075 * (d - cur) ->
  pred < d <= pred + 1 ->
  cur' = cur + 0.0075 * dt -> ipos' = d - Vi * dt ->
  cur' + 0.0099 <= ipos' <= cur' + 100 -> 0 <= cur' <= 0.9 ->
  stepThreat earthDistance systems dt 1 (missile MOVING cur u i p r)
  = Some (missile MOVING cur' (Some unitId) (Some (L.latLng 0 ipos'))
            (Some (L.latLng 0 pred)) (Some "r1"),
          [Locked "t1"]).
Proof.
  intros B B' Hs Hf Hv HV Hd Hp Hr Hc Hi Hg Hx.
  apply (@stepThreat_of earthDistance systems dt 1 _
           (missile MOVING cur (Some unitId) (Some (L.latLng 0 d))
              (Some (L.latLng 0 pred)) (Some "r1")) _ [Locked "t1"] []); [reflexivity| |].
  - rewrite missile_nextPosition, <- Hc.
    apply (@missile_detect_bind MOVING cur u i p r cur' unitId d Vi on descr rest pred);
      try assumption; lra.
  - rewrite missile_nextPosition, <- Hc.
    apply (@missile_resolve_pursue cur unitId d pred (Some "r1") dt cur' unit Vi ipos');
      try assumption; lra.
Qed.

(** A sub-step that binds the missile and kills it at once. *)
Lemma missile_step_bind_kill (cur : R) (u : option string) (i p : option LatLng)
    (r : option string) (dt : R)
    (unitId : string) (d Vi : R) (on : option bool) (descr : string)
    (rest : list System) (pred cur' : R) (unit : System) :
  truthy u = false -> truthy (Some unitId) = true ->
  sortBySpeed (filter (Types.activeWithRole Types.INTERCEPTOR) systems)
  = Types.mkSystem unitId 0 d 150 Types.INTERCEPTOR Vi on descr :: rest ->
  find (fun sys => String.eqb (Types.id sys) unitId) systems = Some unit ->
  Types.shotSpeed unit = Vi ->
  0.0075 < Vi -> cur <= d ->
  (pred - cur) * (0.0075 + Vi) = 0.0075 * (d - cur) ->
  pred < d <= pred + 1 ->
  cur' = cur + 0.0075 * dt -> 0 <= cur' <= 1 ->
  Rabs (d - Vi * dt - cur') <= 0.007 ->
  stepThreat earthDistance systems dt 1 (missile MOVING cur u i p r)
  = Some (missile INTERCEPTED cur' (Some unitId) (Some (L.latLng 0 d))
            (Some (L.latLng 0 pred)) (Some "r1"),
          [Locked "t1"; Killed "t1" (L.latLng 0 cur')]).
Proof.
  intros B B' Hs Hf Hv HV Hd Hp Hr Hc Hx Hg.
  apply (@stepThreat_of earthDistance systems dt 1 _
           (missile MOVING cur (Some unitId) (Some (L.latLng 0 d))
              (Some (L.latLng 0 pred)) (Some "r1")) _ [Locked "t1"]
           [Killed "t1" (L.latLng 0 cur')]); [reflexivity| |].
  - rewrite missile_nextPosition, <- Hc.
    apply (@missile_detect_bind MOVING cur u i p r cur' unitId d Vi on descr rest pred);
      try assumption; lra.
  - rewrite missile_nextPosition, <- Hc.
    apply (@missile_resolve_kill cur unitId d pred (Some "r1") dt cur' unit Vi);
      try assumption; lra.
Qed.

End EngagementSteps.

Section EngagementRuns.
Import AttackSimulator SimulatorExamples EngagementExamples.
Local Open Scope string_scope.
Local Open Scope R_scope.

Ltac side :=
  try lra; try reflexivity; try assumption;
  try (unfold Rabs; destruct (Rcase_abs _); lra).

Lemma launched_missile :
  launched = mkSim [missile MOVING 0 None None None None] [] [] (mkStats 1 0 0).
Proof. reflexivity. Qed.

Lemma launched_reachable : reachable earthDistance launched.
Proof.
  apply (@reachable_step earthDistance initial launched); [constructor|].
  apply step_launch.
Qed.

(** The frame after the launch, with the battery "i1" switched on: the first
    sub-step binds the missile and fires, the other two move the shot. *)
Lemma lock_frame :
  updateSimulation earthDistance [radarEast; battery "i1" 0.033475 true] 0.03 1 launched
  = Some locked.
Proof.
  unfold updateSimulation. rewrite substepCount_1.
  replace (0.03 * 1 / INR 3) with 0.01 by (simpl; lra).
  rewrite launched_missile. cbn [threats subSteps stepThreats].
  rewrite (@missile_step_bind_pursue [radarEast; battery "i1" 0.033475 true] eq_refl
             0 None None None None 0.01 "i1" 0.033475 0.25 (Some true) "Barak-8" []
             0.000975 0.000075 0.030975 (battery "i1" 0.033475 true));
    [|side ..].
  cbn [stepThreats].
  rewrite (@missile_step_pursue [radarEast; battery "i1" 0.033475 true] eq_refl
             0.000075 "i1" 0.030975 0.000975 (Some "r1") 0.01
             (battery "i1" 0.033475 true) 0.25 0.00015 0.028475);
    [|side ..].
  cbn [stepThreats].
  rewrite (@missile_step_pursue [radarEast; battery "i1" 0.033475 true] eq_refl
             0.00015 "i1" 0.028475 0.000975 (Some "r1") 0.01
             (battery "i1" 0.033475 true) 0.25 0.000225 0.025975);
    [|side ..].
  reflexivity.
Qed.

Lemma locked_reachable : reachable earthDistance locked.
Proof.
  apply (@reachable_step earthDistance launched locked); [exact launched_reachable|].
  exact (@step_frame earthDistance [radarEast; battery "i1" 0.033475 true] 0.03 1
           launched locked lock_frame).
Qed.

(** The next frame, of 300 ms, for any units among which [radarEast] is the
    one active radar and the first unit with the id "i1" has the shot speed
    0.25: the shot meets the missile in the first sub-step. *)
Lemma kill_frame (systems : list System) (unit : System) :
  filter (Types.activeWithRole Types.RADAR) systems = [radarEast] ->
  find (fun sys => String.eqb (Types.id sys) "i1") systems = Some unit ->
  Types.shotSpeed unit = 0.25 ->
  updateSimulation earthDistance systems 0.3 1 locked = Some neutralized.
Proof.
  intros Hr Hf Hv. unfold updateSimulation. rewrite substepCount_1.
  replace (0.3 * 1 / INR 3) with 0.1 by (simpl; lra).
  cbn [locked threats subSteps stepThreats].
  rewrite (@missile_step_kill systems Hr 0.000225 "i1" 0.025975 0.000975 (Some "r1") 0.1
             unit 0.25 0.000975);
    [|side ..].
  cbn [stepThreats]. rewrite !stepThreat_resolved by reflexivity. reflexivity.
Qed.

(** The frame after the launch, with a battery whose id is the empty
    string: every sub-step binds the missile to it again. *)
Lemma relock_frame :
  updateSimulation earthDistance [radarEast; battery EmptyString 0.0259 true] 0.03 1 launched
  = Some relocked.
Proof.
  unfold updateSimulation. rewrite substepCount_1.
  replace (0.03 * 1 / INR 3) with 0.01 by (simpl; lra).
  rewrite launched_missile. cbn [threats subSteps stepThreats].
  rewrite (@missile_step_bind_move [radarEast; battery EmptyString 0.0259 true] eq_refl
             0 None None None None 0.01 EmptyString 0.0259 0.25 (Some true) "Barak-8" []
             (0.0075 * 0.0259 / 0.2575) 0.000075);
    [|side ..].
  cbn [stepThreats].
  rewrite (@missile_step_bind_move [radarEast; battery EmptyString 0.0259 true] eq_refl
             0.000075 (Some EmptyString) (Some (L.latLng 0 0.0259))
             (Some (L.latLng 0 (0.0075 * 0.0259 / 0.2575))) (Some "r1") 0.01
             EmptyString 0.0259 0.25 (Some true) "Barak-8" []
             (0.000075 + 0.0075 * (0.0259 - 0.000075) / 0.2575) 0.00015);
    [|side ..].
  cbn [stepThreats].
  rewrite (@missile_step_bind_move [radarEast; battery EmptyString 0.0259 true] eq_refl
             0.00015 (Some EmptyString) (Some (L.latLng 0 0.0259))
             (Some (L.latLng 0 (0.000075 + 0.0075 * (0.0259 - 0.000075) / 0.2575)))
             (Some "r1") 0.01
             EmptyString 0.0259 0.25 (Some true) "Barak-8" []
             0.0009 0.000225);
    [|side ..].
  reflexivity.
Qed.

Lemma relocked_reachable : reachable earthDistance relocked.
Proof.
  apply (@reachable_step earthDistance launched relocked); [exact launched_reachable|].
  exact (@step_frame earthDistance [radarEast; battery EmptyString 0.0259 true] 0.03 1
           launched relocked relock_frame).
Qed.

Lemma fastest_first :
  sortBySpeed
    (filter (Types.activeWithRole Types.INTERCEPTOR)
       [radarEast; battery EmptyString 0.0259 true; fastBattery])
  = [fastBattery; battery EmptyString 0.0259 true].
Proof.
  change (filter (Types.activeWithRole Types.INTERCEPTOR)
            [radarEast; battery EmptyString 0.0259 true; fastBattery])
    with [battery EmptyString 0.0259 true; fastBattery].
  unfold sortBySpeed. cbn [fold_right insertBySpeed].
  cbn [battery fastBattery Types.shotSpeed].
  rewrite !orElse_nonzero by lra. rewrite Rltb_true by lra. reflexivity.
Qed.

(** The next frame, with [fastBattery] added to the units: the first
    sub-step binds the missile to "i2", whose shot kills it at once. *)
Lemma rebind_frame :
  updateSimulation earthDistance
    [radarEast; battery EmptyString 0.0259 true; fastBattery] 0.03 1 relocked
  = Some rebound.
Proof.
  unfold updateSimulation. rewrite substepCount_1.
  replace (0.03 * 1 / INR 3) with 0.01 by (simpl; lra).
  cbn [relocked threats subSteps stepThreats].
  rewrite (@missile_step_bind_kill
             [radarEast; battery EmptyString 0.0259 true; fastBattery] eq_refl
             0.000225 (Some EmptyString) (Some (L.latLng 0 0.0259))
             (Some (L.latLng 0 0.0009)) (Some "r1") 0.01
             "i2" 0.00124 0.5 (Some true) "Custom" [battery EmptyString 0.0259 true]
             0.00024 0.0003 fastBattery);
    [|side; exact fastest_first ..].
  cbn [stepThreats]. rewrite !stepThreat_resolved by reflexivity. reflexivity.
Qed.

(** C3, the claim as stated fails.  In a run of the component a missile is
    launched and, in the next frame, detected and bound to the battery
    "i1"; then the battery is switched off.  The next frame still moves the
    shot of "i1", with that unit's shot speed 0.25 (with the unit removed
    from the list the shot moves with 0.22), runs the kill check and marks
    the missile INTERCEPTED. *)
Lemma deactivated_interceptor_still_kills :
  reachable earthDistance locked
  /\ nth_error (threats locked) 0
     = Some (missile MOVING 0.000225 (Some "i1") (Some (L.latLng 0 0.025975))
               (Some (L.latLng 0 0.000975)) (Some "r1"))
  /\ Types.active (battery "i1" 0.033475 false) = false
  /\ nextInterceptorPosition [radarEast; battery "i1" 0.033475 false] 0.1
       (L.latLng 0 0.000975)
       (missile MOVING 0.000225 (Some "i1") (Some (L.latLng 0 0.025975))
          (Some (L.latLng 0 0.000975)) (Some "r1"))
       (L.latLng 0 0.025975)
     = L.latLng 0 (0.025975 - 0.25 * 0.1)
  /\ nextInterceptorPosition [radarEast] 0.1 (L.latLng 0 0.000975)
       (missile MOVING 0.000225 (Some "i1") (Some (L.latLng 0 0.025975))
          (Some (L.latLng 0 0.000975)) (Some "r1"))
       (L.latLng 0 0.025975)
     = L.latLng 0 (0.025975 - 0.22 * 0.1)
  /\ updateSimulation earthDistance [radarEast; battery "i1" 0.033475 false] 0.3 1 locked
     = Some neutralized
  /\ map status (threats neutralized) = [INTERCEPTED]
  /\ intercepted (stats neutralized) = 1%nat.
Proof.
  split; [exact locked_reachable|].
  split; [reflexivity|].
  split; [reflexivity|].
  split.
  { apply (@missile_nextInterceptorPosition [radarEast; battery "i1" 0.033475 false]
             MOVING 0.000225 "i1" 0.025975 0.000975 (Some "r1") 0.1 (L.latLng 0 0.000975)
             (battery "i1" 0.033475 false) 0.25); side. }
  split.
  { unfold nextInterceptorPosition.
    cbn [missile predictedInterceptPoint interceptorId find radarEast Types.id
         String.eqb Ascii.eqb Bool.eqb L.lat L.lng].
    rewrite advance_west by lra. reflexivity. }
  split.
  { apply (@kill_frame [radarEast; battery "i1" 0.033475 false]
             (battery "i1" 0.033475 false)); reflexivity. }
  split; reflexivity.
Qed.

(** C4: the binding is reassigned when the bound unit's id is the empty
    string.  In a run of the component a missile is launched and, in the next
    frame, bound to a battery whose id is the empty string: its id, its
    position and the predicted intercept point are written to the threat and
    the lock is logged.  A faster battery "i2" is then added to the units, and
    the next frame binds the missile to "i2", whose shot intercepts it. *)
Theorem interceptor_rebound_on_empty_id :
  reachable earthDistance relocked
  /\ map interceptorId (threats relocked) = [Some EmptyString]
  /\ map interceptorPos (threats relocked)
     = [Some (position (battery EmptyString 0.0259 true))]
  /\ updateSimulation earthDistance
       [radarEast; battery EmptyString 0.0259 true; fastBattery] 0.03 1 relocked
     = Some rebound
  /\ map interceptorId (threats rebound) = [Some (Types.id fastBattery)]
  /\ map interceptorPos (threats rebound) = [Some (position fastBattery)]
  /\ map status (threats rebound) = [INTERCEPTED].
Proof.
  split; [exact relocked_reachable|].
  split; [reflexivity|].
  split; [reflexivity|].
  split; [exact rebind_frame|].
  repeat split; reflexivity.
Qed.

(** The hypotheses of [interceptor_binding_sticky] hold of the missile bound
    to "i1" in [locked] and of the run of one more frame, in which the radar
    detects the missile again and the faster battery "i2", now among the
    units, is feasible for it. *)
Lemma interceptor_binding_sticky_witness :
  run earthDistance locked neutralized
  /\ Assignment.feasible earthDistance
       (missile MOVING 0.000225 (Some "i1") (Some (L.latLng 0 0.025975))
          (Some (L.latLng 0 0.000975)) (Some "r1"))
       fastBattery
  /\ Assignment.speedKey (battery "i1" 0.033475 true) < Assignment.speedKey fastBattery
  /\ exists threat',
       nth_error (threats neutralized) 0 = Some threat'
       /\ id threat' = "t1"
       /\ interceptorId threat' = Some "i1".
Proof.
  assert (Hrun : run earthDistance locked neutralized).
  { apply (@run_step earthDistance locked locked neutralized); [apply run_refl|].
    apply (@step_frame earthDistance
             [radarEast; battery "i1" 0.033475 true; fastBattery] 0.3 1 locked neutralized).
    apply (@kill_frame [radarEast; battery "i1" 0.033475 true; fastBattery]
             (battery "i1" 0.033475 true)); reflexivity. }
  split; [exact Hrun|]. split; [|split].
  - exists (L.latLng 0 0.00024). split.
    + apply missile_intercept; lra.
    + apply unit_inRange. lra.
  - unfold Assignment.speedKey. cbn [battery fastBattery Types.shotSpeed].
    rewrite !orElse_nonzero by lra. lra.
  - exact (@interceptor_binding_sticky earthDistance locked neutralized 0%nat
             (missile MOVING 0.000225 (Some "i1") (Some (L.latLng 0 0.025975))
                (Some (L.latLng 0 0.000975)) (Some "r1"))
             Hrun eq_refl eq_refl).
Defined.

End EngagementRuns.
